(** * Job-application mailer: contact extraction, send loop and drivers

    A shallow embedding of [bulk_email.py], [unravel.py] and [send_email.py].

    - Spreadsheet text and the operator's typed answer are Python [str]
      values over the Latin-1 code points, modelled as [list ascii]; the
      character classes used by [str.strip], [str.lower], [str.isdigit] and
      by the [re] classes [\s] and [\w] are the ones CPython uses for the
      code points 0..255.
    - Console text, URLs, exception messages and LLM content are sequences
      of Unicode code points ([list N]); the program only concatenates,
      measures and prints them.
    - The outside world (environment variables, files, the SMTP relay, the
      web pages, the LLM endpoint, the JSON codec, the keyboard) is a record
      of oracles; every interaction is recorded in a chronological trace.
      The k-th read of the resume and the k-th message handed to the relay
      may each succeed or raise, so a relay that fails now and then is a
      world like any other.
    - [sys.exit], raised exceptions and normal return are the three ways a
      computation ends; the process exit status follows CPython: the
      argument of [sys.exit], 1 for an uncaught exception, 0 otherwise.
    - Exceptions are the ones deriving from [Exception]; an interrupt from
      the keyboard is outside the model, and so are a failure of the QUIT
      that closes an SMTP session, an error of [json.loads] other than a
      decoding error, and the traceback the interpreter prints for an
      uncaught exception. *)

From Stdlib Require Import Ascii String DecimalString.
From Stdlib Require Import List ZArith NArith Lia Bool Arith.
From Equations Require Import Equations.
Import ListNotations.

(* ===================================================================== *)
(** * Python strings *)
(* ===================================================================== *)

Module Py.

(** A [str] whose code points are all below 256. *)
Definition pystr := list ascii.

(** A [str] of arbitrary code points. *)
Definition text := list N.

Definition py (s : string) : pystr := list_ascii_of_string s.

Definition code (c : ascii) : nat := nat_of_ascii c.

Definition between (lo hi : nat) (c : ascii) : bool :=
  (lo <=? code c) && (code c <=? hi).

(** [str.isspace] on one code point: TAB..CR, FS..US, SPACE, NEL, NBSP. *)
Definition isspace (c : ascii) : bool :=
  between 9 13 c || between 28 32 c || (code c =? 133) || (code c =? 160).

(** [str.isdigit] on one code point: 0-9 and the superscripts 1, 2, 3. *)
Definition isdigit_char (c : ascii) : bool :=
  between 48 57 c || between 178 179 c || (code c =? 185).

(** The [re] class [\w] of a [str] pattern: alphanumeric or underscore. *)
Definition isword (c : ascii) : bool :=
  between 48 57 c || between 65 90 c || (code c =? 95) || between 97 122 c
  || (code c =? 170) || between 178 179 c || (code c =? 181)
  || between 185 186 c || between 188 190 c
  || between 192 214 c || between 216 246 c || between 248 255 c.

(** [str.lower] on one code point. *)
Definition lower_char (c : ascii) : ascii :=
  if between 65 90 c || between 192 214 c || between 216 222 c
  then ascii_of_nat (code c + 32) else c.

Definition lower (s : pystr) : pystr := map lower_char s.

Fixpoint lstrip (s : pystr) : pystr :=
  match s with
  | c :: s' => if isspace c then lstrip s' else s
  | [] => []
  end.

Definition rstrip (s : pystr) : pystr := rev (lstrip (rev s)).

(** [s.strip()] *)
Definition strip (s : pystr) : pystr := rstrip (lstrip s).

(** [s.isdigit()]: at least one character and all of them digits. *)
Definition isdigit (s : pystr) : bool :=
  match s with
  | [] => false
  | _ => forallb isdigit_char s
  end.

(** [c in s] for a one-character [c]. *)
Definition contains (c : ascii) (s : pystr) : bool :=
  existsb (Ascii.eqb c) s.

(** The first character, if any, is not white space. *)
Definition starts_clean (s : pystr) : Prop :=
  match s with c :: _ => isspace c = false | [] => True end.

(** Truth value of a [str]. *)
Definition nonempty {A : Type} (s : list A) : bool :=
  match s with [] => false | _ => true end.

(** Truth value of an optional [str]: [None] and the empty string are false. *)
Definition truthy_opt {A : Type} (o : option (list A)) : bool :=
  match o with Some s => nonempty s | None => false end.

(** The value of a variable already tested to be set. *)
Definition the {A : Type} (o : option (list A)) : list A :=
  match o with Some s => s | None => [] end.

(** [o or default] *)
Definition or_else {A : Type} (o : option (list A)) (default : list A) : list A :=
  match o with
  | Some s => if nonempty s then s else default
  | None => default
  end.

(** [str(n)] for an [int]. *)
Definition str_of_Z (z : Z) : pystr := py (NilZero.string_of_int (Z.to_int z)).
Definition str_of_nat (n : nat) : pystr := py (NilZero.string_of_uint (Nat.to_uint n)).

(** ** Unicode text *)

Definition of_latin1 (s : pystr) : text := map N_of_ascii s.

(** Decoder for the UTF-8 bytes of a literal of this file: [cp] is the code
    point under construction and [need] the continuation bytes missing. *)
Fixpoint utf8_decode (bytes : list ascii) (cp : N) (need : nat) : text :=
  match bytes with
  | [] => []
  | b :: rest =>
      let n := N_of_ascii b in
      match need with
      | S k =>
          let cp' := N.lor (N.shiftl cp 6) (N.land n 63) in
          match k with
          | O => cp' :: utf8_decode rest 0 0
          | _ => utf8_decode rest cp' k
          end
      | O =>
          if (n <? 128)%N then n :: utf8_decode rest 0 0
          else if (n <? 224)%N then utf8_decode rest (N.land n 31) 1
          else if (n <? 240)%N then utf8_decode rest (N.land n 15) 2
          else utf8_decode rest (N.land n 7) 3
      end
  end.

(** A text literal. *)
Definition u (s : string) : text := utf8_decode (list_ascii_of_string s) 0 0.

Definition nl : text := [10%N].

Definition text_of_nat (n : nat) : text := of_latin1 (str_of_nat n).

(** [sep.join(parts)] *)
Fixpoint join (sep : text) (parts : list text) : text :=
  match parts with
  | [] => []
  | [p] => p
  | p :: ps => p ++ sep ++ join sep ps
  end.

End Py.
Import Py.


(* ===================================================================== *)
(** * The fragment of [re] used by the program *)
(* ===================================================================== *)

Module Re.

(** Patterns built from literals, greedy one-or-more repetitions of a
    character class, concatenation and one capturing group. *)
Inductive regex : Type :=
| Lit (l : pystr)
| Plus (cls : ascii -> bool)
| Cat (r1 r2 : regex)
| Group (r : regex).

(** What the pattern denotes: the strings it can match. *)
Inductive matches : regex -> pystr -> Prop :=
| m_lit l : matches (Lit l) l
| m_plus cls m : m <> [] -> Forall (fun c => cls c = true) m -> matches (Plus cls) m
| m_cat r1 r2 m1 m2 : matches r1 m1 -> matches r2 m2 -> matches (Cat r1 r2) (m1 ++ m2)
| m_group r m : matches r m -> matches (Group r) m.

(** [drop_prefix l s] is the rest of [s] after the literal [l]. *)
Fixpoint drop_prefix (l s : pystr) : option pystr :=
  match l, s with
  | [], _ => Some s
  | a :: l', c :: s' => if Ascii.eqb a c then drop_prefix l' s' else None
  | _ :: _, [] => None
  end.

Section Engine.
Context {A : Type}.

(** Greedy [cls*] followed by the continuation [k]: the longest run is
    tried first and given back one character at a time. *)
Fixpoint star_cls (cls : ascii -> bool) (k : pystr -> option A) (s : pystr) : option A :=
  match s with
  | c :: s' =>
      if cls c then
        match star_cls cls k s' with
        | Some x => Some x
        | None => k s
        end
      else k s
  | [] => k []
  end.

(** Backtracking matcher anchored at the start of [s]; [g] is the text
    captured by the group so far, [k] receives it with the unread rest. *)
Fixpoint run (r : regex) (g : option pystr) (s : pystr)
         (k : option pystr -> pystr -> option A) : option A :=
  match r with
  | Lit l =>
      match drop_prefix l s with
      | Some s' => k g s'
      | None => None
      end
  | Plus cls =>
      match s with
      | c :: s' => if cls c then star_cls cls (k g) s' else None
      | [] => None
      end
  | Cat r1 r2 => run r1 g s (fun g' s' => run r2 g' s' k)
  | Group r1 =>
      run r1 g s (fun _ s' => k (Some (firstn (length s - length s') s)) s')
  end.
End Engine.

(** A match object: [group(0)] and [group(1)]. *)
Record match_obj : Type := { group0 : pystr; group1 : option pystr }.

Definition match_at (r : regex) (s : pystr) : option match_obj :=
  run r None s
      (fun g s' => Some {| group0 := firstn (length s - length s') s; group1 := g |}).

(** [re.search(r, s)]: the match at the leftmost position that has one. *)
Fixpoint search (r : regex) (s : pystr) : option match_obj :=
  match match_at r s with
  | Some m => Some m
  | None =>
      match s with
      | [] => None
      | _ :: s' => search r s'
      end
  end.

(** The pattern occurs somewhere in [s]. *)
Definition occurs (r : regex) (s : pystr) : Prop :=
  exists pre m post, s = pre ++ m ++ post /\ matches r m.

End Re.

(* ===================================================================== *)
(** * Effects: events, exceptions, the world *)
(* ===================================================================== *)

(** Exception classes the program distinguishes in its handlers; all of
    them derive from [Exception]. *)
Inductive exn_class : Type :=
| SMTPAuthenticationError
| SMTPException          (* any other subclass of smtplib.SMTPException *)
| RequestException
| OpenAIError
| IndexError
| AttributeError
| EOFError
| OtherError.            (* OSError, TypeError, ... *)

Record exn : Type := { exn_cls : exn_class; exn_msg : text }.

(** A composed message: the headers set by the program and the body; the
    attachment is the content of the resume file. *)
Record message : Type := {
  msg_from : text;
  msg_to : text;
  msg_subject : text;
  msg_body : text
}.

Inductive event : Type :=
| Stdout (s : text)
| Stderr (s : text)
| ReadLine (prompt : text)
| LoadWorkbook (path : text)
| OpenResume (path : text)
| HttpGet (url : text)
| LLMRequest (system_prompt user_prompt : text)
| SmtpConnect (host : text) (port : Z)
| SmtpStartTLS
| SmtpLogin (user password : text)
| SmtpSendMessage (m : message)
| SmtpQuit
| Sleep (seconds : Z).

(** Traffic on the network: page fetches, LLM calls, the SMTP session. *)
Definition is_network (e : event) : bool :=
  match e with
  | HttpGet _ | LLMRequest _ _ | SmtpConnect _ _ | SmtpStartTLS
  | SmtpLogin _ _ | SmtpSendMessage _ | SmtpQuit => true
  | _ => false
  end.

(** Output on the console. *)
Definition is_output (e : event) : bool :=
  match e with Stdout _ | Stderr _ => true | _ => false end.

Definition is_http (e : event) : bool :=
  match e with HttpGet _ => true | _ => false end.

Definition is_llm (e : event) : bool :=
  match e with LLMRequest _ _ => true | _ => false end.

Definition is_smtp (e : event) : bool :=
  match e with
  | SmtpConnect _ _ | SmtpStartTLS | SmtpLogin _ _ | SmtpSendMessage _ | SmtpQuit => true
  | _ => false
  end.

Definition is_send (e : event) : bool :=
  match e with SmtpSendMessage _ => true | _ => false end.

Definition is_open (e : event) : bool :=
  match e with OpenResume _ => true | _ => false end.

Definition is_sleep (e : event) : bool :=
  match e with Sleep _ => true | _ => false end.

(** How a computation ends. *)
Inductive res (A : Type) : Type :=
| Val (a : A)
| Exit (status : Z)        (* sys.exit(status) *)
| Raise (e : exn).         (* an exception on its way up *)
Arguments Val {A} a.
Arguments Exit {A} status.
Arguments Raise {A} e.

(** Computations thread the trace of events, oldest first. *)
Definition M (A : Type) : Type := list event -> list event * res A.

Definition ret {A} (a : A) : M A := fun tr => (tr, Val a).

Definition bind {A B} (m : M A) (f : A -> M B) : M B :=
  fun tr =>
    match m tr with
    | (tr', Val a) => f a tr'
    | (tr', Exit c) => (tr', Exit c)
    | (tr', Raise e) => (tr', Raise e)
    end.

Declare Scope py_scope.
Delimit Scope py_scope with py_m.
Notation "x <- m ;; k" := (bind m (fun x => k))
  (at level 100, m at next level, right associativity) : py_scope.
Notation "m ;; k" := (bind m (fun _ => k))
  (at level 100, right associativity) : py_scope.
Open Scope py_scope.

Definition emit (e : event) : M unit := fun tr => (tr ++ [e], Val tt).
Definition sys_exit {A} (status : Z) : M A := fun tr => (tr, Exit status).
Definition raise {A} (e : exn) : M A := fun tr => (tr, Raise e).
Definition history : M (list event) := fun tr => (tr, Val tr).

(** [print(s)], [print(s, end=e)], [print(s, file=sys.stderr)], [print()] *)
Definition print (s : text) : M unit := emit (Stdout (s ++ nl)).
Definition print_end (s e : text) : M unit := emit (Stdout (s ++ e)).
Definition eprint (s : text) : M unit := emit (Stderr (s ++ nl)).
Definition print_blank : M unit := emit (Stdout nl).

(** An oracle answer: [None] is success, [Some e] raises [e]. *)
Definition check (o : option exn) : M unit :=
  match o with
  | None => ret tt
  | Some e => raise e
  end.

(** [try: body / except <classes accepted by catches>: handler]. *)
Definition try_except {A} (body : M A) (catches : exn_class -> bool)
           (handler : exn -> M A) : M A :=
  fun tr =>
    match body tr with
    | (tr', Raise e) => if catches (exn_cls e) then handler e tr' else (tr', Raise e)
    | r => r
    end.

(** [try: body / finally: cleanup], as run by a [with] block. *)
Definition finally {A} (body : M A) (cleanup : M unit) : M A :=
  fun tr =>
    match body tr with
    | (tr', r) =>
        match cleanup tr' with
        | (tr'', Val _) => (tr'', r)
        | (tr'', Exit c) => (tr'', Exit c)
        | (tr'', Raise e) => (tr'', Raise e)
        end
    end.

(** Exit status of the interpreter for a finished [main()]. *)
Definition exit_status {A} (r : res A) : Z :=
  match r with
  | Val _ => 0
  | Exit c => c
  | Raise _ => 1
  end.

(** Running a script from an empty trace. *)
Definition run_script {A} (m : M A) : list event * Z :=
  let '(tr, r) := m [] in (tr, exit_status r).

(** [when c m]: the statement [if c: m]. *)
Definition when (c : bool) (m : M unit) : M unit := if c then m else ret tt.

(** Number of events of one kind so far. *)
Definition count (p : event -> bool) (tr : list event) : nat :=
  length (filter p tr).

(* ===================================================================== *)
(** * Spreadsheet and JSON values *)
(* ===================================================================== *)

(** The value of a worksheet cell. [COther] stands for a value of any
    other type (float, datetime, ...), given by its [str()] and its truth
    value. *)
Inductive cell : Type :=
| CNone
| CStr (s : pystr)
| CInt (z : Z)
| CBool (b : bool)
| COther (repr : pystr) (truth : bool).

(** [bool(v)] *)
Definition truthy (v : cell) : bool :=
  match v with
  | CNone => false
  | CStr s => nonempty s
  | CInt z => negb (z =? 0)%Z
  | CBool b => b
  | COther _ t => t
  end.

(** [str(v)] *)
Definition py_str (v : cell) : pystr :=
  match v with
  | CNone => py "None"
  | CStr s => s
  | CInt z => str_of_Z z
  | CBool true => py "True"
  | CBool false => py "False"
  | COther r _ => r
  end.

(** A worksheet: its rows 1..max_row, each the list of its cells' values. *)
Definition sheet : Type := list (list cell).

(** A decoded JSON document. *)
Unset Elimination Schemes.
Inductive json : Type :=
| JNull
| JBool (b : bool)
| JInt (z : Z)
| JFloat (nonzero : bool)
| JString (s : text)
| JArray (items : list json)
| JObject (members : list (text * json)).
Set Elimination Schemes.

(** [bool(v)] of a decoded JSON value. *)
Definition json_truthy (v : json) : bool :=
  match v with
  | JNull => false
  | JBool b => b
  | JInt z => negb (z =? 0)%Z
  | JFloat nz => nz
  | JString s => nonempty s
  | JArray l => nonempty l
  | JObject l => nonempty l
  end.

Definition text_eqb (a b : text) : bool :=
  if list_eq_dec N.eq_dec a b then true else false.

(** [d.get(key)] on a [dict]: the value, or [None]. *)
Fixpoint dict_get (members : list (text * json)) (key : text) : json :=
  match members with
  | [] => JNull
  | (k, v) :: rest => if text_eqb k key then v else dict_get rest key
  end.

(** The outside world, but for the command line. *)
Record world : Type := {
  w_getenv : string -> option text;             (* os.getenv after load_dotenv *)
  w_resume_path : text;                         (* str(RESUME_PATH) *)
  w_resume_exists : bool;                       (* RESUME_PATH.exists() *)
  w_excel_path : text;                          (* str(EXCEL_PATH) *)
  w_excel_exists : bool;                        (* EXCEL_PATH.exists() *)
  w_load_workbook : exn + list sheet;           (* openpyxl.load_workbook: wb.worksheets *)
  w_input : option pystr;                       (* the line typed at input(); None at end of input *)
  w_smtp_connect : option exn;                  (* smtplib.SMTP(host, port) *)
  w_smtp_starttls : option exn;
  w_smtp_login : option exn;
  w_open_resume : nat -> option exn;            (* the k-th open(RESUME_PATH, "rb") and read *)
  w_send_message : nat -> message -> option exn;(* the k-th server.send_message *)
  w_http_get : text -> exn + text;              (* fetch one page and extract its visible text *)
  w_llm_chat : text -> text -> exn + option text; (* message content of the first choice *)
  w_json_loads : text -> text + json;           (* json.loads: the parse error, or the value *)
  w_json_dumps : json -> text;                  (* json.dumps(v, indent=2) *)
  w_format : json -> text                       (* str(v) in an f-string *)
}.

Definition index_error : exn :=
  {| exn_cls := IndexError; exn_msg := u "list index out of range" |}.

(** [input(prompt)] *)
Definition input (w : world) (prompt : text) : M pystr :=
  emit (ReadLine prompt) ;;
  match w_input w with
  | Some line => ret line
  | None => raise {| exn_cls := EOFError; exn_msg := u "EOF when reading a line" |}
  end.

(** [with smtplib.SMTP(host, port) as server: body] *)
Definition with_smtp {A} (w : world) (host : text) (port : Z) (body : M A) : M A :=
  emit (SmtpConnect host port) ;;
  check (w_smtp_connect w) ;;
  finally body (emit SmtpQuit).

Definition starttls (w : world) : M unit :=
  emit SmtpStartTLS ;; check (w_smtp_starttls w).

Definition login (w : world) (user password : text) : M unit :=
  emit (SmtpLogin user password) ;; check (w_smtp_login w).

(** [with open(RESUME_PATH, "rb") as f: ... f.read() ...] *)
Definition read_resume (w : world) : M unit :=
  tr <- history ;;
  emit (OpenResume (w_resume_path w)) ;;
  check (w_open_resume w (count is_open tr)).

(** [server.send_message(msg)] *)
Definition send_message (w : world) (msg : message) : M unit :=
  tr <- history ;;
  emit (SmtpSendMessage msg) ;;
  check (w_send_message w (count is_send tr) msg).

Definition any_exception (c : exn_class) : bool := true.

(* ===================================================================== *)
(** * bulk_email.py *)
(* ===================================================================== *)

Module BulkEmail.

Definition SENDER_EMAIL : text := u "nileshcodes04@gmail.com".
Definition SENDER_NAME : text := u "Nilesh Pataskar".
(** [RESUME_PATH.name] *)
Definition RESUME_NAME : text := u "Nilesh Pataskar Resume.pdf".
Definition SMTP_SERVER : text := u "smtp.gmail.com".
Definition SMTP_PORT : Z := 587.
Definition DELAY_BETWEEN_EMAILS : Z := 3.

(** A contact: the dict with keys "company", "name" and "email". *)
Record contact : Type := {
  company : pystr;
  name : pystr;
  email : pystr
}.

Definition build_email_body (contact_name company : text) : text :=
  u "Hi " ++ contact_name ++ u ",

I hope this message finds you well.

My name is Nilesh Pataskar, and I'm a Full Stack Developer with roughly three years of experience specializing in TypeScript (React), .NET, SQL, and Python. I'm passionate about building clean, scalable systems and solving real engineering problems.

I came across " ++ company ++ u " and I'd love to explore whether there are any open positions — or upcoming opportunities — where my skills could be a good fit.

I've attached my resume for your reference. I'd be grateful for the chance to connect or be considered for any suitable roles.

Thank you for your time, and I look forward to hearing from you.

Warm regards,
Nilesh Pataskar
nileshcodes04@gmail.com
(8888082914)
".

Definition build_subject (company : text) : text :=
  u "Exploring Opportunities at " ++ company ++ u " — Nilesh Pataskar".

(** ** Excel reader *)

Definition dquote : ascii := ascii_of_nat 34.

(** The class of the mail-link pattern: anything but white space, the
    double quote and the comma. *)
Definition addr_char (c : ascii) : bool :=
  negb (isspace c || Ascii.eqb c dquote || Ascii.eqb c ",").

(** The class [[\w.+-]]. *)
Definition local_char (c : ascii) : bool :=
  isword c || Ascii.eqb c "." || Ascii.eqb c "+" || Ascii.eqb c "-".

(** The class [[\w.-]]. *)
Definition domain_char (c : ascii) : bool :=
  isword c || Ascii.eqb c "." || Ascii.eqb c "-".

(** The mail-link pattern: the literal [mailto:] and a group of one or more
    [addr_char]. *)
Definition re_mailto : Re.regex :=
  Re.Cat (Re.Lit (py "mailto:")) (Re.Group (Re.Plus addr_char)).

(** [[\w.+-]+@[\w.-]+\.\w+] *)
Definition re_plain : Re.regex :=
  Re.Cat (Re.Plus local_char)
    (Re.Cat (Re.Lit (py "@"))
       (Re.Cat (Re.Plus domain_char)
          (Re.Cat (Re.Lit (py ".")) (Re.Plus isword)))).

(** [match.group(1)]; the pattern's group takes part in every match. *)
Definition the_group1 (m : Re.match_obj) : pystr :=
  match Re.group1 m with Some g => g | None => [] end.

Definition extract_email (raw : pystr) : option pystr :=
  if negb (nonempty raw) then None
  else
    let raw := strip raw in
    match Re.search re_mailto raw with
    | Some m => Some (lower (strip (the_group1 m)))
    | None =>
        match Re.search re_plain raw with
        | Some m => Some (lower (strip (Re.group0 m)))
        | None => None
        end
    end.

(** Guard shared by the three readers, then the chosen worksheet. *)
Definition open_sheet (w : world) (sheet_index : nat) : M sheet :=
  when (negb (w_excel_exists w))
       (eprint (u "Error: Excel file not found at " ++ w_excel_path w) ;; sys_exit 1) ;;
  emit (LoadWorkbook (w_excel_path w)) ;;
  match w_load_workbook w with
  | inl e => raise e
  | inr worksheets =>
      match nth_error worksheets sheet_index with
      | Some ws => ret ws
      | None => raise index_error
      end
  end.

(** The [for row in ws.iter_rows(...)] loop: [body] extends [contacts] with
    the row's contacts, or fails with an IndexError ([None]). *)
Fixpoint for_rows (body : list cell -> list contact -> option (list contact))
         (rows : list (list cell)) (contacts : list contact) : M (list contact) :=
  match rows with
  | [] => ret contacts
  | values :: rest =>
      match body values contacts with
      | Some contacts' => for_rows body rest contacts'
      | None => raise index_error
      end
  end.

(** [str(v).strip() if v else placeholder] *)
Definition text_or (v : cell) (placeholder : pystr) : pystr :=
  if truthy v then strip (py_str v) else placeholder.

(** Body of the row loop of [read_contacts]. *)
Definition read_contacts_row (values : list cell) (contacts : list contact)
  : option (list contact) :=
  match nth_error values 0, nth_error values 1, nth_error values 4 with
  | Some v0, Some v1, Some v4 =>
      let company := text_or v0 (py "your company") in
      let name := text_or v1 (py "Hiring Manager") in
      let email := if truthy v4 then extract_email (py_str v4) else None in
      match email with
      | Some e =>
          if nonempty e
          then Some (contacts ++ [{| company := company; name := name; email := e |}])
          else Some contacts
      | None => Some contacts
      end
  | _, _, _ => None
  end.

Definition read_contacts (w : world) (sheet_index : nat) : M (list contact) :=
  ws <- open_sheet w sheet_index ;;
  for_rows read_contacts_row (skipn 1 ws) [].

(** The [while i + 2 < len(values)] loop of [read_contacts_sheet4]. *)
Equations? sheet4_groups (values : list cell) (company : pystr) (i : nat)
          (contacts : list contact) : option (list contact)
  by wf (length values - i) lt :=
sheet4_groups values company i contacts with lt_dec (i + 2) (length values) := {
  | left _ with nth_error values i, nth_error values (i + 2) := {
      | Some vn, Some ve =>
          let name := if truthy vn then Some (strip (py_str vn)) else None in
          let email := if truthy ve then extract_email (py_str ve) else None in
          sheet4_groups values company (i + 3)
            (match name, email with
             | Some n, Some e =>
                 if nonempty n && nonempty e
                 then contacts ++ [{| company := company; name := n; email := e |}]
                 else contacts
             | _, _ => contacts
             end)
      | _, _ => None };
  | right _ => Some contacts }.
Proof. lia. Qed.

(** Body of the row loop of [read_contacts_sheet4]. *)
Definition read_contacts_sheet4_row (values : list cell) (contacts : list contact)
  : option (list contact) :=
  match nth_error values 0 with
  | Some v0 => sheet4_groups values (text_or v0 (py "your company")) 1 contacts
  | None => None
  end.

Definition read_contacts_sheet4 (w : world) : M (list contact) :=
  ws <- open_sheet w 5 ;;
  for_rows read_contacts_sheet4_row ws [].

(** The [for val in values[2:]] loop of [read_contacts_sheet2]. *)
Fixpoint scan_cells (company : pystr) (vals : list cell) (last_name : option pystr)
         (contacts : list contact) : list contact :=
  match vals with
  | [] => contacts
  | CNone :: rest => scan_cells company rest last_name contacts
  | val :: rest =>
      let val_str := strip (py_str val) in
      let otherwise :=
        if negb (isdigit val_str) && negb (contains "/" val_str)
           && (2 <? length val_str) && negb (contains "@" val_str) then
          match last_name with
          | None => scan_cells company rest (Some val_str) contacts
          | Some _ => scan_cells company rest last_name contacts
          end
        else scan_cells company rest last_name contacts in
      match extract_email val_str with
      | Some e =>
          if nonempty e then
            scan_cells company rest None
              (contacts ++ [{| company := company;
                               name := or_else last_name (py "Hiring Manager");
                               email := e |}])
          else otherwise
      | None => otherwise
      end
  end.

(** Body of the row loop of [read_contacts_sheet2]. *)
Definition read_contacts_sheet2_row (values : list cell) (contacts : list contact)
  : option (list contact) :=
  match nth_error values 1 with
  | Some v1 =>
      Some (scan_cells (text_or v1 (py "your company")) (skipn 2 values) None contacts)
  | None => None
  end.

Definition read_contacts_sheet2 (w : world) (sheet_index : nat) : M (list contact) :=
  ws <- open_sheet w sheet_index ;;
  for_rows read_contacts_sheet2_row (skipn 1 ws) [].

(** ** Email sender *)

Definition compose (recipient : contact) : message :=
  {| msg_from := SENDER_NAME ++ u " <" ++ SENDER_EMAIL ++ u ">";
     msg_to := of_latin1 (email recipient);
     msg_subject := build_subject (of_latin1 (company recipient));
     msg_body := build_email_body (of_latin1 (name recipient))
                                  (of_latin1 (company recipient)) |}.

Definition send_cold_email (w : world) (recipient : contact) : M bool :=
  try_except
    (let msg := compose recipient in
     read_resume w ;;
     send_message w msg ;;
     ret true)
    any_exception
    (fun exc => eprint (u "   Failed: " ++ exn_msg exc) ;; ret false).

(** ** CLI entry point *)

Definition pystr_eqb (a b : pystr) : bool :=
  if list_eq_dec ascii_dec a b then true else false.

(** [token in sys.argv] *)
Definition member (token : pystr) (argv : list pystr) : bool :=
  existsb (pystr_eqb token) argv.

Definition test_contact : contact :=
  {| company := py "TestCompany Inc.";
     name := py "Nilesh (Test)";
     email := py "nileshcodes04@gmail.com" |}.

(** [for i, c in enumerate(contacts[:5], 1): print(...)] *)
Fixpoint preview (i : nat) (cs : list contact) : M unit :=
  match cs with
  | [] => ret tt
  | c :: rest =>
      print (u "  " ++ text_of_nat i ++ u ". " ++ of_latin1 (name c) ++ u " ("
               ++ of_latin1 (company c) ++ u ") — " ++ of_latin1 (email c)) ;;
      preview (S i) rest
  end.

(** [for i, contact in enumerate(contacts, 1): ...] with [total] standing
    for [len(contacts)] of the whole list. *)
Fixpoint send_all (w : world) (total i : nat) (contacts : list contact)
         (sent failed : nat) : M (nat * nat) :=
  match contacts with
  | [] => ret (sent, failed)
  | contact :: rest =>
      print_end (u "[" ++ text_of_nat i ++ u "/" ++ text_of_nat total
                   ++ u "] Sending to " ++ of_latin1 (name contact) ++ u " ("
                   ++ of_latin1 (email contact) ++ u ")...") (u " ") ;;
      ok <- send_cold_email w contact ;;
      counters <- (if ok : bool
                   then print (u "Sent") ;; ret (S sent, failed)
                   else print (u "FAILED") ;; ret (sent, S failed)) ;;
      when (i <? total) (emit (Sleep DELAY_BETWEEN_EMAILS)) ;;
      send_all w total (S i) rest (fst counters) (snd counters)
  end.

Definition test_run (w : world) (app_password : option text) : M unit :=
  print (u "TEST MODE: Sending a test email to yourself") ;;
  print (u "  To:      " ++ of_latin1 (email test_contact)) ;;
  print (u "  Subject: " ++ build_subject (of_latin1 (company test_contact))) ;;
  print (u "  Resume:  " ++ RESUME_NAME) ;;
  print_blank ;;
  answer <- input w (u "Send test email? (y/n): ") ;;
  let confirm := lower (strip answer) in
  when (negb (pystr_eqb confirm (py "y")))
       (print (u "Cancelled.") ;; sys_exit 0) ;;
  print (nl ++ u "Connecting to " ++ SMTP_SERVER ++ u "...") ;;
  with_smtp w SMTP_SERVER SMTP_PORT
    (starttls w ;;
     login w SENDER_EMAIL (the app_password) ;;
     ok <- send_cold_email w test_contact ;;
     if ok : bool
     then print (u "Test email sent! Check your inbox at nileshcodes04@gmail.com")
     else eprint (u "Test email failed.")) ;;
  ret tt.

Definition full_run (w : world) (app_password : option text) : M unit :=
  contacts <- read_contacts_sheet2 w 4 ;;
  print (u "Found " ++ text_of_nat (length contacts) ++ u " contacts in Sheet 10." ++ nl) ;;
  print (u "Preview (first 5):") ;;
  preview 1 (firstn 5 contacts) ;;
  when (5 <? length contacts)
       (print (u "  ... and " ++ text_of_nat (length contacts - 5) ++ u " more" ++ nl)) ;;
  print (u "From:    " ++ SENDER_EMAIL) ;;
  print (u "Resume:  " ++ RESUME_NAME) ;;
  print (u "Total:   " ++ text_of_nat (length contacts) ++ u " emails") ;;
  print_blank ;;
  answer <- input w (u "Send all emails? (y/n): ") ;;
  let confirm := lower (strip answer) in
  when (negb (pystr_eqb confirm (py "y")))
       (print (u "Cancelled.") ;; sys_exit 0) ;;
  print (nl ++ u "Connecting to " ++ SMTP_SERVER ++ u "...") ;;
  counters <- with_smtp w SMTP_SERVER SMTP_PORT
    (starttls w ;;
     login w SENDER_EMAIL (the app_password) ;;
     print (u "Connected!" ++ nl) ;;
     send_all w (length contacts) 1 contacts 0 0) ;;
  print (nl ++ u "Done! Sent: " ++ text_of_nat (fst counters)
           ++ u " | Failed: " ++ text_of_nat (snd counters)).

(** [argv] is [sys.argv]. *)
Definition main (argv : list pystr) (w : world) : M unit :=
  let test_mode := member (py "--test") argv in
  let use_sheet4 := member (py "--sheet4") argv in
  let app_password := w_getenv w "GMAIL_APP_PASSWORD_CODES04" in
  when (negb (truthy_opt app_password))
       (eprint (u "Error: GMAIL_APP_PASSWORD not set in .env") ;; sys_exit 1) ;;
  when (negb (w_resume_exists w))
       (eprint (u "Error: Resume not found at " ++ w_resume_path w) ;; sys_exit 1) ;;
  if test_mode then test_run w app_password else full_run w app_password.

End BulkEmail.

(* ===================================================================== *)
(** * unravel.py *)
(* ===================================================================== *)

Module Unravel.

Definition UNRAVEL_URLS : list text :=
  [u "https://unravel.tech"; u "https://unravel.tech/blog"; u "https://unravel.tech/talks"].

Definition SEARCH_SUBSTRING : text := u "pr".

Definition dq : text := [34%N].

Definition SYSTEM_PROMPT : text :=
  u "You are a precise data-extraction agent.

You will receive scraped web content from unravel.tech (a senior engineering consulting company).

Follow these steps IN ORDER:

Step 1: List ALL founders/co-founders of Unravel.tech you can find in the content.

Step 2: For EACH founder, check if their **first name** (not last name) contains
the exact substring " ++ dq ++ SEARCH_SUBSTRING ++ dq ++ u " (case-insensitive).
For example: " ++ dq ++ u "Prajwalit" ++ dq ++ u " contains " ++ dq ++ u "pr" ++ dq
  ++ u ", but " ++ dq ++ u "Vedang" ++ dq ++ u " does NOT contain " ++ dq ++ u "pr" ++ dq ++ u ".

Step 3: For the matching founder, construct their email:
   firstname@unrel.tech  (all lowercase, no spaces or separators).

Step 4: Return ONLY a JSON object with exactly two keys:
   - " ++ dq ++ u "founder_name" ++ dq ++ u ": the matching founder's full name
   - " ++ dq ++ u "email" ++ dq ++ u ": the constructed email

If no founder's first name contains " ++ dq ++ SEARCH_SUBSTRING ++ dq ++ u ", return:
  {" ++ dq ++ u "founder_name" ++ dq ++ u ": null, " ++ dq ++ u "email" ++ dq ++ u ": null}

IMPORTANT: Return ONLY the raw JSON. No markdown, no explanation.
".

Definition is_request_exception (c : exn_class) : bool :=
  match c with RequestException => true | _ => false end.

Definition is_openai_error (c : exn_class) : bool :=
  match c with OpenAIError => true | _ => false end.

(** The [for url in UNRAVEL_URLS] loop of [scrape_unravel_profiles]. *)
Fixpoint fetch_all (w : world) (urls : list text) (all_text : list text) : M (list text) :=
  match urls with
  | [] => ret all_text
  | url :: rest =>
      all_text' <-
        try_except
          (emit (HttpGet url) ;;
           match w_http_get w url with
           | inl e => raise e
           | inr page =>
               ret (all_text ++ [u "--- Content from " ++ url ++ u " ---" ++ nl ++ page])
           end)
          is_request_exception
          (fun exc =>
             eprint (u "Warning: Could not fetch " ++ url ++ u ": " ++ exn_msg exc) ;;
             ret all_text) ;;
      fetch_all w rest all_text'
  end.

Definition scrape_unravel_profiles (w : world) : M text :=
  all_text <- fetch_all w UNRAVEL_URLS [] ;;
  when (negb (nonempty all_text))
       (eprint (u "Error: Could not fetch any content from unravel.tech") ;; sys_exit 1) ;;
  ret (join (nl ++ nl) all_text).

Definition build_user_prompt (profiles : text) : text :=
  u "Scraped content from unravel.tech:" ++ nl ++ nl ++ profiles.

Definition extract_founder_info (w : world) (profiles : text) : M json :=
  let api_key := w_getenv w "GROQ_API_KEY" in
  when (negb (truthy_opt api_key))
       (eprint (u "Error: GROQ_API_KEY environment variable is not set." ++ nl
                  ++ u "Get a free key at: https://console.groq.com/keys" ++ nl
                  ++ u "Then add to your .env file:  GROQ_API_KEY=gsk_...") ;;
        sys_exit 1) ;;
  raw_content <-
    try_except
      (emit (LLMRequest SYSTEM_PROMPT (build_user_prompt profiles)) ;;
       match w_llm_chat w SYSTEM_PROMPT (build_user_prompt profiles) with
       | inl e => raise e
       | inr content => ret content
       end)
      is_openai_error
      (fun exc => eprint (u "Groq API error: " ++ exn_msg exc) ;; sys_exit 1) ;;
  when (negb (truthy_opt raw_content))
       (eprint (u "Error: LLM returned an empty response.") ;; sys_exit 1) ;;
  match w_json_loads w (the raw_content) with
  | inl err =>
      eprint (u "Error: Failed to parse LLM response as JSON." ++ nl
                ++ u "Raw response: " ++ the raw_content ++ nl
                ++ u "Parse error:  " ++ err) ;;
      sys_exit 1
  | inr result => ret result
  end.

(** [main] of unravel.py: scrape, extract, print the result. *)
Definition main (w : world) : M unit :=
  print (u "ğŸŒ Scraping unravel.tech for founder profiles...") ;;
  profiles <- scrape_unravel_profiles w ;;
  print (u "   Fetched " ++ text_of_nat (length profiles) ++ u " characters of content." ++ nl) ;;
  print (u "ğŸ¤– Analyzing with LLM agent...") ;;
  result <- extract_founder_info w profiles ;;
  print (w_json_dumps w result).

End Unravel.

(* ===================================================================== *)
(** * send_email.py *)
(* ===================================================================== *)

Module SendEmail.

Definition SENDER_EMAIL : text := u "nileshpataskars@gmail.com".
Definition SENDER_NAME : text := u "Nilesh Pataskar".
Definition RESUME_NAME : text := u "Nilesh Pataskar Resume.pdf".
Definition SMTP_SERVER : text := u "smtp.gmail.com".
Definition SMTP_PORT : Z := 587.
Definition SUBJECT : text := u "Apply | DSPy | KillJOY".

Definition EMAIL_BODY : text :=
  u "Hi,

I am writing to apply for the Software Development Engineer (SDE) role at Unravel.tech.

I am a Full Stack Developer with roughly three years of experience, specializing in technologies like TypeScript (React), .NET, and SQL. I am comfortable working in both Python and TypeScript and am passionate about solving real engineering problems, with a focus on clean architecture.

I have attached my resume below

Thank you for considering my application, and I would be thrilled to hear from you.

Thank you for considering my application, I'll be thrilled to hearing from you

Thanks,
Nilesh Pataskar
(with assistance from ChatGPT)

".

Definition is_smtp_error (c : exn_class) : bool :=
  match c with SMTPAuthenticationError | SMTPException => true | _ => false end.

(** [recipient] is the value taken from the decoded JSON; it is written
    into the To header as the f-strings render it. *)
Definition send_application_email (w : world) (recipient : json) : M unit :=
  let app_password := w_getenv w "GMAIL_APP_PASSWORD" in
  when (negb (truthy_opt app_password))
       (eprint (u "Error: GMAIL_APP_PASSWORD environment variable is not set.") ;;
        sys_exit 1) ;;
  when (negb (w_resume_exists w))
       (eprint (u "Error: Resume not found at " ++ w_resume_path w) ;; sys_exit 1) ;;
  let msg := {| msg_from := SENDER_NAME ++ u " <" ++ SENDER_EMAIL ++ u ">";
                msg_to := w_format w recipient;
                msg_subject := SUBJECT;
                msg_body := EMAIL_BODY |} in
  read_resume w ;;
  try_except
    (print (u "Connecting to " ++ SMTP_SERVER ++ u "...") ;;
     with_smtp w SMTP_SERVER SMTP_PORT
       (starttls w ;;
        login w SENDER_EMAIL (the app_password) ;;
        send_message w msg) ;;
     print (u "✅ Email sent successfully to " ++ w_format w recipient))
    is_smtp_error
    (fun exc =>
       match exn_cls exc with
       | SMTPAuthenticationError =>
           eprint (u "Error: Authentication failed.") ;; sys_exit 1
       | _ => eprint (u "SMTP error: " ++ exn_msg exc) ;; sys_exit 1
       end).

(** [type(v).__name__] of a decoded JSON value. *)
Definition type_name (v : json) : text :=
  match v with
  | JNull => u "NoneType"
  | JBool _ => u "bool"
  | JInt _ => u "int"
  | JFloat _ => u "float"
  | JString _ => u "str"
  | JArray _ => u "list"
  | JObject _ => u "dict"
  end.

(** [result.get(key)]: only a dict has the method. *)
Definition get (result : json) (key : text) : M json :=
  match result with
  | JObject members => ret (dict_get members key)
  | _ => raise {| exn_cls := AttributeError;
                  exn_msg := u "'" ++ type_name result
                               ++ u "' object has no attribute 'get'" |}
  end.

Definition main (w : world) : M unit :=
  print (u "🌐 Step 1: Scraping unravel.tech for founder profiles...") ;;
  profiles <- Unravel.scrape_unravel_profiles w ;;
  print (u "   Fetched " ++ text_of_nat (length profiles) ++ u " characters of content." ++ nl) ;;
  print (u "🤖 Step 2: Extracting founder info with LLM agent...") ;;
  result <- Unravel.extract_founder_info w profiles ;;
  founder_name <- get result (u "founder_name") ;;
  recipient <- get result (u "email") ;;
  when (negb (json_truthy founder_name) || negb (json_truthy recipient))
       (eprint (u "Error: Could not extract founder info.") ;; sys_exit 1) ;;
  print (u "   Found: " ++ w_format w founder_name) ;;
  print (u "   Email: " ++ w_format w recipient) ;;
  print_blank ;;
  print (u "📧 Step 2: Ready to send application email:") ;;
  print (u "   From:    " ++ SENDER_EMAIL) ;;
  print (u "   To:      " ++ w_format w recipient) ;;
  print (u "   Subject: " ++ SUBJECT) ;;
  print (u "   Resume:  " ++ RESUME_NAME) ;;
  print_blank ;;
  answer <- input w (u "Send this email? (y/n): ") ;;
  let confirm := lower (strip answer) in
  when (negb (BulkEmail.pystr_eqb confirm (py "y")))
       (print (u "Cancelled.") ;; sys_exit 0) ;;
  send_application_email w recipient ;;
  print_blank ;;
  print (w_json_dumps w result).

End SendEmail.

(* ===================================================================== *)
(** * The extraction strategies as the specification words them *)
(* ===================================================================== *)

Module Spec.
Import BulkEmail.

(** The email recognised in a cell, if any. *)
Definition cell_email (v : cell) : option pystr :=
  if truthy v then extract_email (py_str v) else None.

(** The non-empty name held by a cell, if any. *)
Definition cell_name (v : cell) : option pystr :=
  if truthy v && nonempty (strip (py_str v)) then Some (strip (py_str v)) else None.

(** Repeating-triplet strategy: the complete groups (name, phone, email
    candidate) of the columns after the company column. *)
Fixpoint triplets (cells : list cell) : list (cell * cell * cell) :=
  match cells with
  | n :: p :: e :: rest => (n, p, e) :: triplets rest
  | _ => []
  end.

(** A group with both a name and a recognisable email is one contact. *)
Definition group_contacts (company : pystr) (g : cell * cell * cell) : list contact :=
  match cell_name (fst (fst g)), cell_email (snd g) with
  | Some n, Some e => [{| company := company; name := n; email := e |}]
  | _, _ => []
  end.

Definition triplet_row (values : list cell) : option (list contact) :=
  match values with
  | v0 :: rest =>
      Some (flat_map (group_contacts (text_or v0 (py "your company"))) (triplets rest))
  | [] => None
  end.

(** Scan-and-pair strategy: the two states of the pending name. *)
Inductive pairing : Type :=
| AwaitingName
| Pending (candidate : pystr).

(** Not purely numeric, no date-like separator, longer than 2, no at-sign. *)
Definition is_candidate_name (t : pystr) : bool :=
  negb (isdigit t) && negb (contains "/" t) && (2 <? length t) && negb (contains "@" t).

Definition pending_name (st : pairing) : pystr :=
  match st with
  | Pending n => n
  | AwaitingName => py "Hiring Manager"
  end.

(** One cell: the next state and the contacts emitted. *)
Definition pair_step (company : pystr) (st : pairing) (v : cell)
  : pairing * list contact :=
  match v with
  | CNone => (st, [])
  | _ =>
      let t := strip (py_str v) in
      match extract_email t with
      | Some e =>
          (AwaitingName, [{| company := company; name := pending_name st; email := e |}])
      | None =>
          if is_candidate_name t
          then (match st with AwaitingName => Pending t | Pending n => Pending n end, [])
          else (st, [])
      end
  end.

Fixpoint pair_cells (company : pystr) (st : pairing) (cells : list cell) : list contact :=
  match cells with
  | [] => []
  | v :: rest =>
      snd (pair_step company st v) ++ pair_cells company (fst (pair_step company st v)) rest
  end.

Definition scan_pair_row (values : list cell) : option (list contact) :=
  match values with
  | _ :: v1 :: rest =>
      Some (pair_cells (text_or v1 (py "your company")) AwaitingName rest)
  | _ => None
  end.

(** The emails recognised in the cells scanned by scan-and-pair. *)
Definition scanned_emails (cells : list cell) : list pystr :=
  flat_map (fun v => match v with
                     | CNone => []
                     | _ => match extract_email (strip (py_str v)) with
                            | Some e => [e]
                            | None => []
                            end
                     end) cells.

(** The pending name as the loop variable [last_name] holds it. *)
Definition of_last_name (ln : option pystr) : pairing :=
  match ln with Some n => Pending n | None => AwaitingName end.

(** ** The send loop *)

(** The line printed to stderr by the handler of [send_cold_email]. *)
Definition failed_line (exc : exn) : event :=
  Stderr (u "   Failed: " ++ exn_msg exc ++ nl).

(** What one call of [send_cold_email] may add to the trace, with its result. *)
Inductive attempt_events (w : world) (c : contact) : list event -> bool -> Prop :=
| attempt_delivered :
    attempt_events w c [OpenResume (w_resume_path w); SmtpSendMessage (compose c)] true
| attempt_open_failed exc :
    attempt_events w c [OpenResume (w_resume_path w); failed_line exc] false
| attempt_send_failed exc :
    attempt_events w c
      [OpenResume (w_resume_path w); SmtpSendMessage (compose c); failed_line exc] false.

(** The progress line of the [i]-th contact. *)
Definition progress_line (total i : nat) (c : contact) : event :=
  Stdout ((u "[" ++ text_of_nat i ++ u "/" ++ text_of_nat total
             ++ u "] Sending to " ++ of_latin1 (name c) ++ u " ("
             ++ of_latin1 (email c) ++ u ")...") ++ u " ").

Definition verdict_line (ok : bool) : event :=
  Stdout ((if ok then u "Sent" else u "FAILED") ++ nl).

Definition pause (total i : nat) : list event :=
  if i <? total then [Sleep DELAY_BETWEEN_EMAILS] else [].

(** The trace of the send loop from index [i] on, with the number of
    contacts sent to and failed. *)
Inductive loop_events (w : world) (total : nat)
  : nat -> list contact -> list event -> nat -> nat -> Prop :=
| loop_done i : loop_events w total i [] [] 0 0
| loop_step i c rest evs ok tail s f :
    attempt_events w c evs ok ->
    loop_events w total (S i) rest tail s f ->
    loop_events w total i (c :: rest)
      (progress_line total i c :: evs ++ verdict_line ok :: pause total i ++ tail)
      (if ok then S s else s) (if ok then f else S f).

(** A progress line is the only output that starts with a bracket. *)
Definition is_progress (e : event) : bool :=
  match e with
  | Stdout (c :: _) => (c =? 91)%N
  | _ => false
  end.


(** ** How a run ends *)

Inductive ending : Type :=
| Completed            (* main() returned *)
| Cancelled            (* the operator did not answer y *)
| ValidationFailure    (* a prerequisite or an extracted value is missing *)
| FatalError.          (* an error of a collaborator stops the run *)

(** Exit code 0 on success or cancellation, 1 on validation or fatal error. *)
Definition status_of (e : ending) : Z :=
  match e with
  | Completed | Cancelled => 0
  | ValidationFailure | FatalError => 1
  end.

(** The operator's answer: [None] at end of input. *)
Definition confirmed (w : world) : option bool :=
  match w_input w with
  | Some answer => Some (pystr_eqb (lower (strip answer)) (py "y"))
  | None => None
  end.

(** Connection, STARTTLS and login all succeed. *)
Definition session_ok (w : world) : bool :=
  match w_smtp_connect w, w_smtp_starttls w, w_smtp_login w with
  | None, None, None => true
  | _, _, _ => false
  end.

(** The rows loop without its effects: [None] on an IndexError. *)
Fixpoint fold_rows (body : list cell -> list contact -> option (list contact))
         (rows : list (list cell)) (contacts : list contact) : option (list contact) :=
  match rows with
  | [] => Some contacts
  | values :: rest =>
      match body values contacts with
      | Some contacts' => fold_rows body rest contacts'
      | None => None
      end
  end.

(** From the prompt on, for both modes of the bulk script. *)
Definition after_prompt (w : world) : ending :=
  match confirmed w with
  | None => FatalError
  | Some false => Cancelled
  | Some true => if session_ok w then Completed else FatalError
  end.

(** How a run of the bulk script ends; whether single sends succeed plays
    no part. *)
Definition bulk_ending (argv : list pystr) (w : world) : ending :=
  if negb (truthy_opt (w_getenv w "GMAIL_APP_PASSWORD_CODES04")) then ValidationFailure
  else if negb (w_resume_exists w) then ValidationFailure
  else if member (py "--test") argv then after_prompt w
  else if negb (w_excel_exists w) then ValidationFailure
  else
    match w_load_workbook w with
    | inl _ => FatalError
    | inr worksheets =>
        match nth_error worksheets 4 with
        | None => FatalError
        | Some ws =>
            match fold_rows read_contacts_sheet2_row (skipn 1 ws) [] with
            | None => FatalError
            | Some _ => after_prompt w
            end
        end
    end.

(** The pages loop without its effects: the exception that escapes, or the
    texts gathered. *)
Fixpoint fetch_pure (w : world) (urls : list text) (all_text : list text)
  : exn + list text :=
  match urls with
  | [] => inr all_text
  | url :: rest =>
      match w_http_get w url with
      | inl e =>
          if Unravel.is_request_exception (exn_cls e)
          then fetch_pure w rest all_text
          else inl e
      | inr page =>
          fetch_pure w rest
            (all_text ++ [u "--- Content from " ++ url ++ u " ---" ++ nl ++ page])
      end
  end.

(** What scraping adds to the trace: page fetches and console output. *)
Definition scrape_event (e : event) : bool := is_http e || is_output e.

(** The error lines for the two secrets of the single-recipient script. *)
Definition key_message : text :=
  (u "Error: GROQ_API_KEY environment variable is not set." ++ nl
     ++ u "Get a free key at: https://console.groq.com/keys" ++ nl
     ++ u "Then add to your .env file:  GROQ_API_KEY=gsk_...") ++ nl.

Definition password_message : text :=
  u "Error: GMAIL_APP_PASSWORD environment variable is not set." ++ nl.

(** The error line of the driver for an answer without founder. *)
Definition could_not_extract : event :=
  Stderr (u "Error: Could not extract founder info." ++ nl).

(** The message of the single-recipient script for a recipient value. *)
Definition application (w : world) (recipient : json) : message :=
  {| msg_from := SendEmail.SENDER_NAME ++ u " <" ++ SendEmail.SENDER_EMAIL ++ u ">";
     msg_to := w_format w recipient;
     msg_subject := SendEmail.SUBJECT;
     msg_body := SendEmail.EMAIL_BODY |}.

(** The last stage of the single-recipient script, with the resume read
    for the [k]-th time and the [j]-th message of the run. *)
Definition send_ending (w : world) (k j : nat) (recipient : json) : ending :=
  if negb (truthy_opt (w_getenv w "GMAIL_APP_PASSWORD")) then ValidationFailure
  else if negb (w_resume_exists w) then ValidationFailure
  else
    match w_open_resume w k with
    | Some _ => FatalError
    | None =>
        if session_ok w then
          match w_send_message w j (application w recipient) with
          | None => Completed
          | Some _ => FatalError
          end
        else FatalError
    end.

(** How a run of the single-recipient script ends. *)
Definition single_ending (w : world) : ending :=
  match fetch_pure w Unravel.UNRAVEL_URLS [] with
  | inl _ => FatalError
  | inr [] => FatalError
  | inr all_text =>
      let profiles := join (nl ++ nl) all_text in
      if negb (truthy_opt (w_getenv w "GROQ_API_KEY")) then ValidationFailure
      else
        match w_llm_chat w Unravel.SYSTEM_PROMPT (Unravel.build_user_prompt profiles) with
        | inl _ => FatalError
        | inr content =>
            if negb (truthy_opt content) then FatalError
            else
              match w_json_loads w (the content) with
              | inl _ => FatalError
              | inr (JObject members) =>
                  let founder_name := dict_get members (u "founder_name") in
                  let recipient := dict_get members (u "email") in
                  if negb (json_truthy founder_name) || negb (json_truthy recipient)
                  then ValidationFailure
                  else
                    match confirmed w with
                    | None => FatalError
                    | Some false => Cancelled
                    | Some true => send_ending w 0 0 recipient
                    end
              | inr _ => FatalError
              end
        end
  end.

End Spec.

(* ===================================================================== *)
(** * Worlds used as examples *)
(* ===================================================================== *)

Module Scenario.
Import BulkEmail.

Definition relay_error : exn :=
  {| exn_cls := SMTPException; exn_msg := u "550 mailbox unavailable" |}.

Definition null_object : json :=
  JObject [(u "founder_name", JNull); (u "email", JNull)].

(** The text of the null answer of the LLM. *)
Definition null_answer : text :=
  u "{" ++ Unravel.dq ++ u "founder_name" ++ Unravel.dq ++ u ": null, "
    ++ Unravel.dq ++ u "email" ++ Unravel.dq ++ u ": null}".

Definition acme_row : list cell :=
  [CInt 1; CStr (py "Acme"); CStr (py "Jo Smith"); CStr (py "jo@acme.com")].

Definition beta_row : list cell :=
  [CStr (py "Beta"); CStr (py "Al"); CInt 555; CStr (py "al@beta.com")].

Definition header : list cell :=
  [CStr (py "Sl.No"); CStr (py "Client Name"); CStr (py "Name"); CStr (py "Email")].

(** Six worksheets: index 4 laid out for scan-and-pair, index 5 for the
    repeating triplets. *)
Definition workbook : list sheet :=
  [[]; []; []; []; [header; acme_row]; [beta_row]].

(** Everything is in place and every collaborator succeeds; the operator
    answers y; the LLM answers the null object. *)
Definition sunny : world :=
  {| w_getenv := fun _ => Some (u "app-password");
     w_resume_path := u "Nilesh Pataskar Resume.pdf";
     w_resume_exists := true;
     w_excel_path := u "Email Excel.xlsx";
     w_excel_exists := true;
     w_load_workbook := inr workbook;
     w_input := Some (py "y");
     w_smtp_connect := None;
     w_smtp_starttls := None;
     w_smtp_login := None;
     w_open_resume := fun _ => None;
     w_send_message := fun _ _ => None;
     w_http_get := fun _ => inr (u "Unravel");
     w_llm_chat := fun _ _ => inr (Some null_answer);
     w_json_loads := fun raw => if text_eqb raw null_answer then inr null_object
                                else inl (u "Expecting value");
     w_json_dumps := fun _ => u "{}";
     w_format := fun _ => u "None" |}.

(** The same, with some environment variables unset. *)
Definition without_env (unset : string -> bool) (w : world) : world :=
  {| w_getenv := fun key => if unset key then None else w_getenv w key;
     w_resume_path := w_resume_path w;
     w_resume_exists := w_resume_exists w;
     w_excel_path := w_excel_path w;
     w_excel_exists := w_excel_exists w;
     w_load_workbook := w_load_workbook w;
     w_input := w_input w;
     w_smtp_connect := w_smtp_connect w;
     w_smtp_starttls := w_smtp_starttls w;
     w_smtp_login := w_smtp_login w;
     w_open_resume := w_open_resume w;
     w_send_message := w_send_message w;
     w_http_get := w_http_get w;
     w_llm_chat := w_llm_chat w;
     w_json_loads := w_json_loads w;
     w_json_dumps := w_json_dumps w;
     w_format := w_format w |}.

(** The same, with the relay refusing the messages whose index [refused]
    selects. *)
Definition with_relay (refused : nat -> bool) (w : world) : world :=
  {| w_getenv := w_getenv w;
     w_resume_path := w_resume_path w;
     w_resume_exists := w_resume_exists w;
     w_excel_path := w_excel_path w;
     w_excel_exists := w_excel_exists w;
     w_load_workbook := w_load_workbook w;
     w_input := w_input w;
     w_smtp_connect := w_smtp_connect w;
     w_smtp_starttls := w_smtp_starttls w;
     w_smtp_login := w_smtp_login w;
     w_open_resume := w_open_resume w;
     w_send_message := fun k _ => if refused k then Some relay_error else None;
     w_http_get := w_http_get w;
     w_llm_chat := w_llm_chat w;
     w_json_loads := w_json_loads w;
     w_json_dumps := w_json_dumps w;
     w_format := w_format w |}.

(** The messages handed to the relay, in order. *)
Definition sent_to (tr : list event) : list text :=
  flat_map (fun e => match e with SmtpSendMessage m => [msg_to m] | _ => [] end) tr.

Definition jo : contact :=
  {| company := py "Acme"; name := py "Jo Smith"; email := py "jo@acme.com" |}.
Definition al : contact :=
  {| company := py "Beta"; name := py "Al"; email := py "al@beta.com" |}.

End Scenario.

(* ===================================================================== *)
(** * Vocabulary for the behaviour of the readers and of the SMTP sessions *)
(* ===================================================================== *)

Module Behaviour.
Import BulkEmail Spec.

(** A greedy repetition of [cls] cannot run into [rest]: [rest] is empty or
    starts with a character outside the class. *)
Definition stops (cls : ascii -> bool) (rest : pystr) : Prop :=
  match rest with
  | [] => True
  | c :: _ => cls c = false
  end.

(** The contacts of all rows, in row order; [None] when a row is too short. *)
Fixpoint all_rows (f : list cell -> option (list contact)) (rows : list (list cell))
  : option (list contact) :=
  match rows with
  | [] => Some []
  | values :: rest =>
      match f values, all_rows f rest with
      | Some here, Some later => Some (here ++ later)
      | _, _ => None
      end
  end.

(** Fixed-column strategy: the contact of one row, if its column 4 holds a
    recognised email; [None] when the row has fewer than five cells. *)
Definition fixed_row (values : list cell) : option (list contact) :=
  match nth_error values 0, nth_error values 1, nth_error values 4 with
  | Some v0, Some v1, Some v4 =>
      Some (match cell_email v4 with
            | Some e => [{| company := text_or v0 (py "your company");
                            name := text_or v1 (py "Hiring Manager");
                            email := e |}]
            | None => []
            end)
  | _, _, _ => None
  end.

(** The characters of [str(n)] for an [int]. *)
Definition sign_or_digit (c : ascii) : bool := isdigit_char c || Ascii.eqb c "-".

(** The same world, the workbook file missing. *)
Definition no_workbook (w : world) : world :=
  {| w_getenv := w_getenv w;
     w_resume_path := w_resume_path w;
     w_resume_exists := w_resume_exists w;
     w_excel_path := w_excel_path w;
     w_excel_exists := false;
     w_load_workbook := w_load_workbook w;
     w_input := w_input w;
     w_smtp_connect := w_smtp_connect w;
     w_smtp_starttls := w_smtp_starttls w;
     w_smtp_login := w_smtp_login w;
     w_open_resume := w_open_resume w;
     w_send_message := w_send_message w;
     w_http_get := w_http_get w;
     w_llm_chat := w_llm_chat w;
     w_json_loads := w_json_loads w;
     w_json_dumps := w_json_dumps w;
     w_format := w_format w |}.

Definition excel_missing (w : world) : event :=
  Stderr ((u "Error: Excel file not found at " ++ w_excel_path w) ++ nl).

Definition resume_missing (w : world) : event :=
  Stderr ((u "Error: Resume not found at " ++ w_resume_path w) ++ nl).

Definition is_load (e : event) : bool :=
  match e with LoadWorkbook _ => true | _ => false end.

Definition is_prompt (e : event) : bool :=
  match e with ReadLine _ => true | _ => false end.

Definition is_login (e : event) : bool :=
  match e with SmtpLogin _ _ => true | _ => false end.

Definition is_starttls (e : event) : bool :=
  match e with SmtpStartTLS => true | _ => false end.

Definition is_quit (e : event) : bool :=
  match e with SmtpQuit => true | _ => false end.

Definition is_connect (e : event) : bool :=
  match e with SmtpConnect _ _ => true | _ => false end.

Definition is_stdout (e : event) : bool :=
  match e with Stdout _ => true | _ => false end.

Definition is_stderr (e : event) : bool :=
  match e with Stderr _ => true | _ => false end.

Definition eof_error : exn :=
  {| exn_cls := EOFError; exn_msg := u "EOF when reading a line" |}.

Definition cancelled : event := Stdout (u "Cancelled." ++ nl).

(** The events of a [with smtplib.SMTP(...)] block that starts with STARTTLS
    and login: [body] is what happens once logged in; the block quits the
    session it opened, however it is left. *)
Definition session (w : world) (host : text) (port : Z) (user password : text)
           (body : list event) : list event :=
  SmtpConnect host port ::
  match w_smtp_connect w with
  | Some _ => []
  | None =>
      SmtpStartTLS ::
      match w_smtp_starttls w with
      | Some _ => [SmtpQuit]
      | None =>
          SmtpLogin user password ::
          match w_smtp_login w with
          | Some _ => [SmtpQuit]
          | None => body ++ [SmtpQuit]
          end
      end
  end.

(** The exception that ends a session before its body, if any. *)
Definition session_error (w : world) : option exn :=
  match w_smtp_connect w with
  | Some e => Some e
  | None =>
      match w_smtp_starttls w with
      | Some e => Some e
      | None => w_smtp_login w
      end
  end.

(** The line of [send_application_email] for an SMTP error. *)
Definition smtp_report (e : exn) : event :=
  match exn_cls e with
  | SMTPAuthenticationError => Stderr (u "Error: Authentication failed." ++ nl)
  | _ => Stderr ((u "SMTP error: " ++ exn_msg e) ++ nl)
  end.

(** The stages of an SMTP session. *)
Inductive smtp_state : Type :=
| Closed
| Connected
| Secured
| Authenticated.

(** The order in which a session may be driven: connect, STARTTLS, login,
    any number of messages, quit. [None] is a call out of order. *)
Definition smtp_step (st : smtp_state) (e : event) : option smtp_state :=
  match e with
  | SmtpConnect _ _ => match st with Closed => Some Connected | _ => None end
  | SmtpStartTLS => match st with Connected => Some Secured | _ => None end
  | SmtpLogin _ _ => match st with Secured => Some Authenticated | _ => None end
  | SmtpSendMessage _ => match st with Authenticated => Some Authenticated | _ => None end
  | SmtpQuit => match st with Closed => None | _ => Some Closed end
  | _ => Some st
  end.

Fixpoint smtp_run (st : smtp_state) (tr : list event) : option smtp_state :=
  match tr with
  | [] => Some st
  | e :: rest =>
      match smtp_step st e with
      | Some st' => smtp_run st' rest
      | None => None
      end
  end.

(** The last line of a completed bulk run. *)
Definition done_line (sent failed : nat) : event :=
  Stdout ((nl ++ u "Done! Sent: " ++ text_of_nat sent
              ++ u " | Failed: " ++ text_of_nat failed) ++ nl).

(** The warning of the scraper for a page it could not fetch. *)
Definition fetch_warning (url : text) (exc : exn) : event :=
  Stderr ((u "Warning: Could not fetch " ++ url ++ u ": " ++ exn_msg exc) ++ nl).

(** The pages loop as a list of events: each page is fetched, a refused
    page is warned about, and an error of another kind ends the loop. *)
Fixpoint fetch_events (w : world) (urls : list text) : list event :=
  match urls with
  | [] => []
  | url :: rest =>
      match w_http_get w url with
      | inl e =>
          if Unravel.is_request_exception (exn_cls e)
          then HttpGet url :: fetch_warning url e :: fetch_events w rest
          else [HttpGet url]
      | inr _ => HttpGet url :: fetch_events w rest
      end
  end.

(** The sections gathered from the pages that answered, in page order. *)
Fixpoint sections (w : world) (urls : list text) : list text :=
  match urls with
  | [] => []
  | url :: rest =>
      match w_http_get w url with
      | inl _ => sections w rest
      | inr page => (u "--- Content from " ++ url ++ u " ---" ++ nl ++ page) :: sections w rest
      end
  end.

(** One warning per page that was refused. *)
Definition warnings (w : world) (urls : list text) : list event :=
  flat_map (fun url => match w_http_get w url with
                       | inl e => [fetch_warning url e]
                       | inr _ => []
                       end) urls.

Definition no_content : event :=
  Stderr (u "Error: Could not fetch any content from unravel.tech" ++ nl).

(** Every page either answers or is refused with a RequestException. *)
Definition only_request_errors (w : world) (urls : list text) : Prop :=
  forall url e, In url urls -> w_http_get w url = inl e ->
                Unravel.is_request_exception (exn_cls e) = true.

(** Events of a session body: messages and whatever is not an SMTP call of
    the session itself. *)
Definition body_event (e : event) : bool :=
  match e with
  | SmtpConnect _ _ | SmtpStartTLS | SmtpLogin _ _ | SmtpQuit => false
  | _ => true
  end.

(** The discipline of a trace: the SMTP calls come in the order of the
    protocol and the session ends closed when the connection was made; the
    login follows a successful STARTTLS, a message a successful login. *)
Definition disciplined (w : world) (evs : list event) : Prop :=
  (exists st, smtp_run Closed evs = Some st /\ (w_smtp_connect w = None -> st = Closed)) /\
  (existsb is_login evs = true -> w_smtp_connect w = None /\ w_smtp_starttls w = None) /\
  (existsb is_send evs = true -> session_error w = None).

(** ** Lines and prompts of the bulk script *)

Definition test_prompt : text := u "Send test email? (y/n): ".
Definition full_prompt : text := u "Send all emails? (y/n): ".

Definition connecting : event :=
  Stdout ((nl ++ u "Connecting to " ++ SMTP_SERVER ++ u "...") ++ nl).

Definition connected : event := Stdout ((u "Connected!" ++ nl) ++ nl).

Definition test_verdict (ok : bool) : event :=
  if ok then Stdout (u "Test email sent! Check your inbox at nileshcodes04@gmail.com" ++ nl)
  else Stderr (u "Test email failed." ++ nl).

(** ** Lines, prompts and classes of events of the single-recipient script *)

Definition fetched (profiles : text) : event :=
  Stdout ((u "   Fetched " ++ text_of_nat (length profiles)
             ++ u " characters of content." ++ nl) ++ nl).

(** What the agent does: console output, page fetches, the LLM call. *)
Definition agent_event (e : event) : bool := is_output e || is_http e || is_llm e.

(** Neither SMTP traffic nor a read of the resume. *)
Definition calm (e : event) : bool := negb (is_smtp e || is_open e).

(** Events that are no traffic of the agent, no prompt, no workbook and no
    pause. *)
Definition send_stage_event (e : event) : bool :=
  negb (is_http e || is_llm e || is_prompt e || is_load e || is_sleep e).

Definition send_prompt : text := u "Send this email? (y/n): ".

Definition connecting_single : event :=
  Stdout ((u "Connecting to " ++ SendEmail.SMTP_SERVER ++ u "...") ++ nl).

Definition sent_line (w : world) (recipient : json) : event :=
  Stdout ((u "✅ Email sent successfully to " ++ w_format w recipient) ++ nl).

(** The error that stops the sending of the application, if any: of the
    session, or of the relay for the [j]-th message of the run. *)
Definition send_failure (w : world) (j : nat) (recipient : json) : option exn :=
  match session_error w with
  | Some e => Some e
  | None => w_send_message w j (application w recipient)
  end.

(** The exception of [result.get] on a value that is no dict. *)
Definition attribute_error (result : json) : exn :=
  {| exn_cls := AttributeError;
     exn_msg := u "'" ++ SendEmail.type_name result ++ u "' object has no attribute 'get'" |}.

(** The decoded answer is a dict whose two fields are true values. *)
Definition usable (result : json) : bool :=
  match result with
  | JObject members =>
      json_truthy (dict_get members (u "founder_name"))
      && json_truthy (dict_get members (u "email"))
  | _ => false
  end.

(** ** More worlds *)

(** The same world, the pages answering as [get] says. *)
Definition with_pages (get : text -> exn + text) (w : world) : world :=
  {| w_getenv := w_getenv w;
     w_resume_path := w_resume_path w;
     w_resume_exists := w_resume_exists w;
     w_excel_path := w_excel_path w;
     w_excel_exists := w_excel_exists w;
     w_load_workbook := w_load_workbook w;
     w_input := w_input w;
     w_smtp_connect := w_smtp_connect w;
     w_smtp_starttls := w_smtp_starttls w;
     w_smtp_login := w_smtp_login w;
     w_open_resume := w_open_resume w;
     w_send_message := w_send_message w;
     w_http_get := get;
     w_llm_chat := w_llm_chat w;
     w_json_loads := w_json_loads w;
     w_json_dumps := w_json_dumps w;
     w_format := w_format w |}.

(** The same world, the LLM answering [content], which decodes to [value]. *)
Definition with_answer (content : text) (value : json) (w : world) : world :=
  {| w_getenv := w_getenv w;
     w_resume_path := w_resume_path w;
     w_resume_exists := w_resume_exists w;
     w_excel_path := w_excel_path w;
     w_excel_exists := w_excel_exists w;
     w_load_workbook := w_load_workbook w;
     w_input := w_input w;
     w_smtp_connect := w_smtp_connect w;
     w_smtp_starttls := w_smtp_starttls w;
     w_smtp_login := w_smtp_login w;
     w_open_resume := w_open_resume w;
     w_send_message := w_send_message w;
     w_http_get := w_http_get w;
     w_llm_chat := fun _ _ => inr (Some content);
     w_json_loads := fun _ => inr value;
     w_json_dumps := w_json_dumps w;
     w_format := w_format w |}.

(** An answer of the LLM that names a founder and no email. *)
Definition name_only_answer : text :=
  u "{" ++ Unravel.dq ++ u "founder_name" ++ Unravel.dq ++ u ": "
    ++ Unravel.dq ++ u "Prajwalit" ++ Unravel.dq ++ u "}".

Definition name_only_object : json :=
  JObject [(u "founder_name", JString (u "Prajwalit"))].

(** A page that cannot be fetched, and one whose handling fails otherwise. *)
Definition refused : exn :=
  {| exn_cls := RequestException; exn_msg := u "503 Server Error" |}.

Definition broken : exn :=
  {| exn_cls := OtherError; exn_msg := u "maximum recursion depth exceeded" |}.

End Behaviour.

(* ===================================================================== *)
(** * Facts *)
(* ===================================================================== *)

Import BulkEmail Spec.

(** ** Facts about characters and strings *)

Ltac all_chars c :=
  destruct c as [[] [] [] [] [] [] [] []]; vm_compute; try reflexivity; try congruence.

Lemma lower_char_idem c : lower_char (lower_char c) = lower_char c.
Proof. all_chars c. Qed.

Lemma isspace_lower_char c : isspace (lower_char c) = isspace c.
Proof. all_chars c. Qed.

Lemma lower_idem s : lower (lower s) = lower s.
Proof.
  unfold lower. rewrite map_map. apply map_ext. intro c. apply lower_char_idem.
Qed.

Lemma lstrip_lower s : lstrip (lower s) = lower (lstrip s).
Proof.
  induction s as [|c s IH]; simpl; [reflexivity|].
  rewrite isspace_lower_char. destruct (isspace c); [exact IH | reflexivity].
Qed.

Lemma rev_lower s : rev (lower s) = lower (rev s).
Proof. unfold lower. symmetry. apply map_rev. Qed.

Lemma strip_lower s : strip (lower s) = lower (strip s).
Proof.
  unfold strip, rstrip.
  rewrite lstrip_lower, rev_lower, lstrip_lower, rev_lower. reflexivity.
Qed.

(** [lstrip] removes a prefix of white space. *)
Lemma lstrip_split s :
  exists p, s = p ++ lstrip s /\ forallb isspace p = true.
Proof.
  induction s as [|c s [p [E F]]]; simpl.
  - exists []. split; reflexivity.
  - destruct (isspace c) eqn:Hc.
    + exists (c :: p). simpl. rewrite Hc, F. split; [f_equal; exact E | reflexivity].
    + exists []. split; reflexivity.
Qed.

Lemma lstrip_clean s : starts_clean (lstrip s).
Proof.
  induction s as [|c s IH]; simpl; [exact I|].
  destruct (isspace c) eqn:Hc; [exact IH | exact Hc].
Qed.

Lemma lstrip_id s : starts_clean s -> lstrip s = s.
Proof. destruct s as [|c s]; simpl; [reflexivity|]. intros ->. reflexivity. Qed.

Lemma starts_clean_prefix a b : starts_clean (a ++ b) -> a <> [] -> starts_clean a.
Proof. destruct a; simpl; [congruence | auto]. Qed.

Lemma strip_id s : starts_clean s -> starts_clean (rev s) -> strip s = s.
Proof.
  intros H1 H2. unfold strip, rstrip.
  rewrite (lstrip_id s H1), (lstrip_id (rev s) H2). apply rev_involutive.
Qed.

Lemma strip_clean s : starts_clean (strip s) /\ starts_clean (rev (strip s)).
Proof.
  unfold strip, rstrip. rewrite rev_involutive. split; [|apply lstrip_clean].
  destruct (lstrip_split (rev (lstrip s))) as [p [E _]].
  remember (lstrip (rev (lstrip s))) as b.
  assert (Ha : lstrip s = rev b ++ rev p).
  { rewrite <- rev_app_distr, <- E. symmetry. apply rev_involutive. }
  destruct (rev b) eqn:Hb; [exact I|].
  eapply starts_clean_prefix with (b := rev p).
  - rewrite <- Ha. apply lstrip_clean.
  - discriminate.
Qed.

Lemma strip_idem s : strip (strip s) = strip s.
Proof. destruct (strip_clean s). apply strip_id; assumption. Qed.

(** ** The matcher against the denotation of patterns *)

Lemma firstn_consumed {A} (a b : list A) :
  firstn (length (a ++ b) - length b) (a ++ b) = a.
Proof.
  rewrite length_app, Nat.add_sub. rewrite firstn_app, Nat.sub_diag, firstn_all.
  simpl. apply app_nil_r.
Qed.

Lemma drop_prefix_spec l s s' : Re.drop_prefix l s = Some s' <-> s = l ++ s'.
Proof.
  revert s. induction l as [|a l IH]; intros s; simpl.
  - split; [intros [= ->] | intros ->]; reflexivity.
  - destruct s as [|c s]; [split; discriminate|].
    destruct (Ascii.eqb a c) eqn:E.
    + apply Ascii.eqb_eq in E. subst c. rewrite IH.
      split; [intros -> | intros [= ->]]; reflexivity.
    + split; [discriminate|]. intros [= -> _]. rewrite Ascii.eqb_refl in E. discriminate.
Qed.

Section EngineFacts.
Context {A : Type}.
Implicit Types (k : pystr -> option A) (K : option pystr -> pystr -> option A).

Lemma star_cls_sound cls k s x :
  Re.star_cls cls k s = Some x ->
  exists m s', s = m ++ s' /\ Forall (fun c => cls c = true) m /\ k s' = Some x.
Proof.
  induction s as [|c s IH]; simpl.
  - intros H. exists [], []. auto.
  - destruct (cls c) eqn:Hc.
    + destruct (Re.star_cls cls k s) as [y|] eqn:E.
      * intros [= <-]. destruct (IH eq_refl) as (m & s' & -> & Hm & Hk).
        exists (c :: m), s'. auto.
      * intros H. exists [], (c :: s). auto.
    + intros H. exists [], (c :: s). auto.
Qed.

Lemma star_cls_fallback cls k s : k s <> None -> Re.star_cls cls k s <> None.
Proof.
  destruct s as [|c s]; simpl; [auto|].
  destruct (cls c); [|auto].
  destruct (Re.star_cls cls k s); [discriminate | auto].
Qed.

Lemma star_cls_complete cls k m s' :
  Forall (fun c => cls c = true) m -> k s' <> None ->
  Re.star_cls cls k (m ++ s') <> None.
Proof.
  intros Hm Hk. induction Hm as [|c m Hc _ IH]; simpl.
  - apply star_cls_fallback, Hk.
  - rewrite Hc. destruct (Re.star_cls cls k (m ++ s')); [discriminate | contradiction].
Qed.

Lemma run_sound r : forall g s K x,
  Re.run r g s K = Some x ->
  exists m s' g', s = m ++ s' /\ Re.matches r m /\ K g' s' = Some x.
Proof.
  induction r as [l | cls | r1 IH1 r2 IH2 | r IH]; intros g s K x; simpl.
  - destruct (Re.drop_prefix l s) as [s'|] eqn:E; [|discriminate].
    apply drop_prefix_spec in E. intros H. exists l, s', g. split; [|split]; auto.
    constructor.
  - destruct s as [|c s]; [discriminate|]. destruct (cls c) eqn:Hc; [|discriminate].
    intros H. apply star_cls_sound in H. destruct H as (m & s' & -> & Hm & Hk).
    exists (c :: m), s', g. split; [reflexivity|]. split; [|exact Hk].
    constructor; [discriminate | constructor; assumption].
  - intros H. apply IH1 in H. destruct H as (m1 & s1 & g1 & -> & M1 & H).
    apply IH2 in H. destruct H as (m2 & s2 & g2 & -> & M2 & H).
    exists (m1 ++ m2), s2, g2. rewrite <- app_assoc. split; [reflexivity|].
    split; [constructor; assumption | exact H].
  - intros H. apply IH in H. destruct H as (m & s' & g' & -> & Mm & H).
    eexists m, s', _. split; [reflexivity|]. split; [constructor; exact Mm | exact H].
Qed.

Lemma run_complete r m :
  Re.matches r m ->
  forall g s' K, (forall g', K g' s' <> None) -> Re.run r g (m ++ s') K <> None.
Proof.
  induction 1 as [l | cls m Hne Hm | r1 r2 m1 m2 _ IH1 _ IH2 | r m _ IH];
    intros g s' K HK; simpl.
  - assert (E : Re.drop_prefix l (l ++ s') = Some s') by (apply drop_prefix_spec; reflexivity).
    rewrite E. apply HK.
  - destruct m as [|c m]; [congruence|]. inversion Hm; subst. simpl.
    match goal with H : cls c = true |- _ => rewrite H end.
    apply star_cls_complete; [assumption | apply HK].
  - rewrite <- app_assoc. apply IH1. intros g'. apply IH2, HK.
  - apply IH. intros g'. apply HK.
Qed.
End EngineFacts.

Lemma match_at_sound r s mo :
  Re.match_at r s = Some mo ->
  exists post, s = Re.group0 mo ++ post /\ Re.matches r (Re.group0 mo).
Proof.
  unfold Re.match_at. intros H. apply run_sound in H.
  destruct H as (m & s' & g' & -> & Hm & [= <-]). simpl.
  rewrite firstn_consumed. exists s'. auto.
Qed.

Lemma match_at_complete r m post :
  Re.matches r m -> Re.match_at r (m ++ post) <> None.
Proof.
  intros Hm. unfold Re.match_at. apply run_complete; [exact Hm | discriminate].
Qed.

Lemma search_unfold r s :
  Re.search r s =
  match Re.match_at r s with
  | Some m => Some m
  | None => match s with [] => None | _ :: s' => Re.search r s' end
  end.
Proof. destruct s; reflexivity. Qed.

(** A match reported by [search] is an occurrence of the pattern. *)
Lemma search_sound r s mo :
  Re.search r s = Some mo ->
  exists pre post, s = pre ++ Re.group0 mo ++ post /\ Re.matches r (Re.group0 mo).
Proof.
  induction s as [|c s IH]; rewrite search_unfold;
    destruct (Re.match_at r _) as [m|] eqn:E.
  - intros [= ->]. apply match_at_sound in E. destruct E as (post & E & Hm).
    exists [], post. auto.
  - discriminate.
  - intros [= ->]. apply match_at_sound in E. destruct E as (post & E & Hm).
    exists [], post. auto.
  - intros H. destruct (IH H) as (pre & post & -> & Hm).
    exists (c :: pre), post. auto.
Qed.

(** [search] finds a match whenever the pattern occurs. *)
Lemma search_complete r s : Re.occurs r s -> Re.search r s <> None.
Proof.
  intros (pre & m & post & -> & Hm).
  induction pre as [|c pre IH]; rewrite search_unfold; simpl.
  - pose proof (match_at_complete r m post Hm) as H.
    destruct (Re.match_at r (m ++ post)); [discriminate | contradiction].
  - destruct (Re.match_at r (c :: pre ++ m ++ post)); [discriminate | exact IH].
Qed.

Lemma search_none r s : Re.search r s = None <-> ~ Re.occurs r s.
Proof.
  split.
  - intros H Ho. exact (search_complete r s Ho H).
  - intros H. destruct (Re.search r s) as [mo|] eqn:E; [|reflexivity].
    exfalso. apply H. apply search_sound in E. destruct E as (pre & post & E & Hm).
    exists pre, (Re.group0 mo), post. auto.
Qed.

(** ** Email normalization *)

Lemma addr_char_not_space c : addr_char c = true -> isspace c = false.
Proof. all_chars c. Qed.

Lemma local_char_not_space c : local_char c = true -> isspace c = false.
Proof. all_chars c. Qed.

Lemma isword_not_space c : isword c = true -> isspace c = false.
Proof. all_chars c. Qed.

Lemma firstn_prefix {A} (a b s : list A) :
  s = a ++ b -> firstn (length s - length b) s = a.
Proof. intros ->. apply firstn_consumed. Qed.

Lemma match_obj_eq a b mo :
  Some {| Re.group0 := a; Re.group1 := b |} = Some mo ->
  Re.group0 mo = a /\ Re.group1 mo = b.
Proof. intros [= <-]. split; reflexivity. Qed.

(** The shape of a match of the mail-link pattern. *)
Lemma mailto_match_at s mo :
  Re.match_at re_mailto s = Some mo ->
  exists g, Re.group1 mo = Some g /\ Re.group0 mo = py "mailto:" ++ g /\
            g <> [] /\ Forall (fun c => addr_char c = true) g.
Proof.
  unfold Re.match_at, re_mailto. cbn [Re.run].
  destruct (Re.drop_prefix (py "mailto:") s) as [s1|] eqn:E; [|discriminate].
  apply drop_prefix_spec in E.
  destruct s1 as [|c s2]; [discriminate|].
  destruct (addr_char c) eqn:Hc; [|discriminate].
  intros H. apply star_cls_sound in H. destruct H as (m & s' & E2 & Hm & Hk).
  apply match_obj_eq in Hk. destruct Hk as [H0 H1].
  exists (c :: m). rewrite H0, H1.
  rewrite (firstn_prefix (c :: m) s' (c :: s2)) by (rewrite E2; reflexivity).
  rewrite (firstn_prefix (py "mailto:" ++ c :: m) s' s)
    by (rewrite E, E2, <- app_assoc; reflexivity).
  repeat split; [discriminate | constructor; assumption].
Qed.

Lemma mailto_search s mo :
  Re.search re_mailto s = Some mo ->
  exists g, Re.group1 mo = Some g /\ Re.group0 mo = py "mailto:" ++ g /\
            g <> [] /\ Forall (fun c => addr_char c = true) g.
Proof.
  induction s as [|c s IH]; rewrite search_unfold;
    destruct (Re.match_at re_mailto _) as [m|] eqn:E;
    try discriminate; try (intros [= ->]; eapply mailto_match_at; eassumption).
  exact IH.
Qed.

Lemma clean_of_Forall (P : ascii -> bool) g :
  (forall c, P c = true -> isspace c = false) ->
  Forall (fun c => P c = true) g -> starts_clean g /\ starts_clean (rev g).
Proof.
  intros HP Hg. split.
  - destruct Hg; simpl; auto.
  - apply Forall_rev in Hg. destruct Hg; simpl; auto.
Qed.

Lemma starts_clean_app a b : a <> [] -> starts_clean a -> starts_clean (a ++ b).
Proof. destruct a; simpl; [congruence | auto]. Qed.

(** A match of the plain pattern starts and ends with a non-space. *)
Lemma plain_match_clean m :
  Re.matches re_plain m -> m <> [] /\ starts_clean m /\ starts_clean (rev m).
Proof.
  unfold re_plain. intros H.
  inversion H as [| |? ? l x Hl Hx|]; subst; clear H.
  inversion Hx as [| |? ? a y Ha Hy|]; subst; clear Hx.
  inversion Hy as [| |? ? d z Hd Hz|]; subst; clear Hy.
  inversion Hz as [| |? ? p t Hp Ht|]; subst; clear Hz.
  inversion Hl as [|? ? Hne HF| |]; subst; clear Hl.
  inversion Ht as [|? ? Hne' HF'| |]; subst; clear Ht.
  destruct (clean_of_Forall local_char l local_char_not_space HF) as [Cl _].
  destruct (clean_of_Forall isword t isword_not_space HF') as [_ Ct].
  split; [|split].
  - destruct l; [congruence | discriminate].
  - apply starts_clean_app; assumption.
  - rewrite !rev_app_distr, <- !app_assoc. apply starts_clean_app; [|exact Ct].
    intro E. apply (f_equal (@rev ascii)) in E. rewrite rev_involutive in E.
    simpl in E. congruence.
Qed.

Lemma nonempty_true {A} (s : list A) : nonempty s = true <-> s <> [].
Proof. destruct s; simpl; split; congruence. Qed.

Lemma lower_nil s : lower s = [] -> s = [].
Proof. destruct s; [reflexivity | discriminate]. Qed.

(** Whatever [extract_email] returns is not empty, lower-cased and trimmed. *)
Lemma extract_email_normal raw e :
  extract_email raw = Some e -> e <> [] /\ lower e = e /\ strip e = e.
Proof.
  unfold extract_email. destruct (nonempty raw); simpl; [|discriminate].
  destruct (Re.search re_mailto (strip raw)) as [mo|] eqn:E1.
  - intros [= <-]. apply mailto_search in E1.
    destruct E1 as (g & Hg1 & _ & Hne & HF).
    unfold the_group1. rewrite Hg1.
    destruct (clean_of_Forall addr_char g addr_char_not_space HF) as [C1 C2].
    rewrite (strip_id g C1 C2). split; [|split].
    + intro H. apply lower_nil in H. contradiction.
    + apply lower_idem.
    + rewrite strip_lower, (strip_id g C1 C2). reflexivity.
  - destruct (Re.search re_plain (strip raw)) as [mo|] eqn:E2; [|discriminate].
    intros [= <-]. apply search_sound in E2. destruct E2 as (pre & post & _ & Hm).
    destruct (plain_match_clean _ Hm) as (Hne & C1 & C2).
    rewrite (strip_id _ C1 C2). split; [|split].
    + intro H. apply lower_nil in H. contradiction.
    + apply lower_idem.
    + rewrite strip_lower, (strip_id _ C1 C2). reflexivity.
Qed.

Lemma extract_email_nonempty raw e : extract_email raw = Some e -> nonempty e = true.
Proof. intros H. apply nonempty_true. apply (extract_email_normal raw e H). Qed.

(** Normalization does its own trimming. *)
Lemma extract_email_strip raw : extract_email (strip raw) = extract_email raw.
Proof.
  unfold extract_email. rewrite strip_idem.
  destruct raw as [|c raw]; [reflexivity|].
  destruct (strip (c :: raw)) eqn:E; reflexivity.
Qed.

(** ** The repeating-triplet loop *)

Lemma nth_error_middle {A} (pre : list A) x suf :
  nth_error (pre ++ x :: suf) (length pre) = Some x.
Proof. rewrite nth_error_app2, Nat.sub_diag by lia. reflexivity. Qed.

Lemma cell_name_email_contacts company vn ve contacts :
  match (if truthy vn then Some (strip (py_str vn)) else None),
        (if truthy ve then extract_email (py_str ve) else None) with
  | Some n, Some e =>
      if nonempty n && nonempty e
      then contacts ++ [{| company := company; name := n; email := e |}]
      else contacts
  | _, _ => contacts
  end = contacts ++ group_contacts company (vn, CNone, ve)
  /\ forall vp, group_contacts company (vn, vp, ve) = group_contacts company (vn, CNone, ve).
Proof.
  split; [|reflexivity].
  unfold group_contacts, cell_name, cell_email. simpl.
  destruct (truthy vn); simpl; [|rewrite app_nil_r; reflexivity].
  destruct (truthy ve); simpl.
  - destruct (extract_email (py_str ve)) as [e|] eqn:E.
    + rewrite (extract_email_nonempty _ _ E), andb_true_r.
      destruct (nonempty (strip (py_str vn))); [reflexivity | rewrite app_nil_r; reflexivity].
    + destruct (nonempty (strip (py_str vn))); rewrite app_nil_r; reflexivity.
  - destruct (nonempty (strip (py_str vn))); rewrite app_nil_r; reflexivity.
Qed.

(** One turn of the loop. *)
Lemma sheet4_groups_unfold values company i contacts :
  sheet4_groups values company i contacts =
  if lt_dec (i + 2) (length values) then
    match nth_error values i, nth_error values (i + 2) with
    | Some vn, Some ve =>
        sheet4_groups values company (i + 3)
          (match (if truthy vn then Some (strip (py_str vn)) else None),
                 (if truthy ve then extract_email (py_str ve) else None) with
           | Some n, Some e =>
               if nonempty n && nonempty e
               then contacts ++ [{| company := company; name := n; email := e |}]
               else contacts
           | _, _ => contacts
           end)
    | _, _ => None
    end
  else Some contacts.
Proof.
  rewrite sheet4_groups_equation_1.
  destruct (lt_dec (i + 2) (length values)) as [H|H]; simp sheet4_groups; [|reflexivity].
  destruct (nth_error values i) as [vn|]; destruct (nth_error values (i + 2)) as [ve|];
    simp sheet4_groups; reflexivity.
Qed.

(** From index [length pre] on, the loop emits the contacts of the complete
    groups of the remaining columns. *)
Lemma sheet4_groups_spec company : forall n suf pre contacts,
  length suf <= n ->
  sheet4_groups (pre ++ suf) company (length pre) contacts
  = Some (contacts ++ flat_map (group_contacts company) (triplets suf)).
Proof.
  induction n as [|n IH]; intros suf pre contacts Hn; rewrite sheet4_groups_unfold.
  - destruct suf; [|simpl in Hn; lia].
    destruct (lt_dec _ _) as [H|H]; [rewrite length_app in H; simpl in H; lia|].
    simpl. rewrite app_nil_r. reflexivity.
  - destruct suf as [|vn [|vp [|ve rest]]];
      destruct (lt_dec _ _) as [H|H];
      try (rewrite length_app in H; simpl in H; lia);
      try (simpl; rewrite app_nil_r; reflexivity).
    rewrite nth_error_middle.
    replace (pre ++ vn :: vp :: ve :: rest) with ((pre ++ [vn; vp]) ++ ve :: rest)
      by (rewrite <- app_assoc; reflexivity).
    replace (length pre + 2) with (length (pre ++ [vn; vp]))
      by (rewrite length_app; reflexivity).
    rewrite nth_error_middle.
    replace ((pre ++ [vn; vp]) ++ ve :: rest) with ((pre ++ [vn; vp; ve]) ++ rest)
      by (rewrite <- !app_assoc; reflexivity).
    replace (length pre + 3) with (length (pre ++ [vn; vp; ve]))
      by (rewrite length_app; reflexivity).
    destruct (cell_name_email_contacts company vn ve contacts) as [E1 E2].
    rewrite E1, IH by (simpl in Hn; lia).
    simpl. rewrite <- app_assoc, (E2 vp). reflexivity.
Qed.

Lemma sheet4_row_refines values contacts :
  read_contacts_sheet4_row values contacts
  = option_map (app contacts) (triplet_row values).
Proof.
  unfold read_contacts_sheet4_row, triplet_row.
  destruct values as [|v0 rest]; [reflexivity|]. simpl.
  apply (sheet4_groups_spec (text_or v0 (py "your company")) (length rest) rest [v0] contacts).
  lia.
Qed.

(** ** The scan-and-pair loop *)

Lemma or_else_pending ln :
  (forall n, ln = Some n -> n <> []) ->
  or_else ln (py "Hiring Manager") = pending_name (of_last_name ln).
Proof.
  destruct ln as [n|]; simpl; [|reflexivity].
  intros H. destruct n; [exfalso; apply (H []); reflexivity | reflexivity].
Qed.

Lemma scan_cells_spec company : forall vals ln contacts,
  (forall n, ln = Some n -> n <> []) ->
  scan_cells company vals ln contacts
  = contacts ++ pair_cells company (of_last_name ln) vals.
Proof.
  induction vals as [|v vals IH]; intros ln contacts Hln.
  - simpl. rewrite app_nil_r. reflexivity.
  - assert (Hstep : forall t,
      match extract_email t with
      | Some e =>
          if nonempty e
          then scan_cells company vals None
                 (contacts ++ [{| company := company;
                                  name := or_else ln (py "Hiring Manager");
                                  email := e |}])
          else
            if negb (isdigit t) && negb (contains "/" t) && (2 <? length t)
               && negb (contains "@" t)
            then match ln with
                 | None => scan_cells company vals (Some t) contacts
                 | Some _ => scan_cells company vals ln contacts
                 end
            else scan_cells company vals ln contacts
      | None =>
          if negb (isdigit t) && negb (contains "/" t) && (2 <? length t)
             && negb (contains "@" t)
          then match ln with
               | None => scan_cells company vals (Some t) contacts
               | Some _ => scan_cells company vals ln contacts
               end
          else scan_cells company vals ln contacts
      end
      = contacts ++
        snd (match extract_email t with
             | Some e => (AwaitingName,
                          [{| company := company;
                              name := pending_name (of_last_name ln);
                              email := e |}])
             | None => if is_candidate_name t
                       then (match of_last_name ln with
                             | AwaitingName => Pending t
                             | Pending n => Pending n
                             end, [])
                       else (of_last_name ln, [])
             end) ++
        pair_cells company
          (fst (match extract_email t with
                | Some e => (AwaitingName,
                             [{| company := company;
                                 name := pending_name (of_last_name ln);
                                 email := e |}])
                | None => if is_candidate_name t
                          then (match of_last_name ln with
                                | AwaitingName => Pending t
                                | Pending n => Pending n
                                end, [])
                          else (of_last_name ln, [])
                end)) vals).
    { intros t. destruct (extract_email t) as [e|] eqn:E.
      - rewrite (extract_email_nonempty _ _ E). rewrite IH by discriminate.
        rewrite (or_else_pending ln Hln), <- app_assoc. reflexivity.
      - unfold is_candidate_name.
        destruct (negb (isdigit t) && negb (contains "/" t) && (2 <? length t)
                  && negb (contains "@" t)) eqn:C.
        + destruct ln as [n|]; simpl.
          * apply IH, Hln.
          * apply (IH (Some t)). intros n [= <-].
            apply andb_prop in C. destruct C as [C _].
            apply andb_prop in C. destruct C as [_ C].
            apply Nat.ltb_lt in C. destruct t; [simpl in C; lia | discriminate].
        + simpl. apply IH, Hln. }
    destruct v; try apply Hstep.
    simpl. apply IH, Hln.
Qed.

Lemma sheet2_row_refines values contacts :
  read_contacts_sheet2_row values contacts
  = option_map (app contacts) (scan_pair_row values).
Proof.
  unfold read_contacts_sheet2_row, scan_pair_row.
  destruct values as [|v0 [|v1 rest]]; try reflexivity. simpl.
  rewrite scan_cells_spec by discriminate. reflexivity.
Qed.

(** Every recognised email of the scanned cells yields a contact, in order. *)
Lemma pair_cells_emails company : forall cells st,
  map email (pair_cells company st cells) = scanned_emails cells.
Proof.
  induction cells as [|v cells IH]; intros st; [reflexivity|].
  simpl. rewrite map_app, IH. f_equal.
  destruct v; simpl; try reflexivity;
    match goal with |- context [extract_email ?t] => destruct (extract_email t) end;
    simpl; try reflexivity;
    match goal with |- context [is_candidate_name ?t] =>
      destruct (is_candidate_name t) end; reflexivity.
Qed.

Lemma pair_cells_company company : forall cells st,
  Forall (fun c => BulkEmail.company c = company) (pair_cells company st cells).
Proof.
  induction cells as [|v cells IH]; intros st; [constructor|].
  simpl. apply Forall_app. split; [|apply IH].
  destruct v; simpl; try constructor;
    match goal with |- context [extract_email ?t] => destruct (extract_email t) end;
    simpl; try (repeat constructor);
    match goal with |- context [is_candidate_name ?t] =>
      destruct (is_candidate_name t) end; constructor.
Qed.

Lemma scanned_emails_in cells e :
  In e (scanned_emails cells) ->
  exists v, In v cells /\ v <> CNone /\ extract_email (py_str v) = Some e.
Proof.
  unfold scanned_emails. rewrite in_flat_map. intros (v & Hv & He).
  exists v. split; [exact Hv|].
  assert (Hn : v <> CNone) by (intros ->; exact He).
  split; [exact Hn|].
  assert (He' : In e (match extract_email (strip (py_str v)) with
                      | Some e => [e]
                      | None => []
                      end))
    by (destruct v; [contradiction | exact He ..]).
  rewrite extract_email_strip in He'.
  destruct (extract_email (py_str v)); [|contradiction].
  destruct He' as [<-|[]]. reflexivity.
Qed.

Lemma triplets_in : forall n cells g,
  length cells <= n -> In g (triplets cells) ->
  In (fst (fst g)) cells /\ In (snd g) cells.
Proof.
  induction n as [|n IH]; intros cells g Hn Hg.
  - destruct cells; [contradiction | simpl in Hn; lia].
  - destruct cells as [|a [|b [|c rest]]]; try contradiction.
    simpl in Hg. destruct Hg as [<-|Hg].
    + simpl. auto.
    + destruct (IH rest g) as [H1 H2]; [simpl in Hn; lia | exact Hg |].
      simpl. auto 6.
Qed.

Lemma group_contacts_in company g c :
  In c (group_contacts company g) ->
  BulkEmail.company c = company /\
  cell_name (fst (fst g)) = Some (name c) /\
  cell_email (snd g) = Some (email c).
Proof.
  unfold group_contacts.
  destruct (cell_name (fst (fst g))) as [n|]; [|contradiction].
  destruct (cell_email (snd g)) as [e|]; [|contradiction].
  intros [<-|[]]. auto.
Qed.

Lemma cell_email_extract v e :
  cell_email v = Some e -> v <> CNone /\ extract_email (py_str v) = Some e.
Proof.
  unfold cell_email. destruct (truthy v) eqn:T; [|discriminate].
  intros H. split; [|exact H]. intros ->. discriminate.
Qed.

(** The fixed-column row: nothing, or the one contact of column 4's email. *)
Lemma read_contacts_row_spec values contacts :
  read_contacts_row values contacts =
  match nth_error values 0, nth_error values 1, nth_error values 4 with
  | Some v0, Some v1, Some v4 =>
      match cell_email v4 with
      | Some e => Some (contacts ++ [{| company := text_or v0 (py "your company");
                                        name := text_or v1 (py "Hiring Manager");
                                        email := e |}])
      | None => Some contacts
      end
  | _, _, _ => None
  end.
Proof.
  unfold read_contacts_row, cell_email.
  destruct (nth_error values 0) as [v0|]; [|reflexivity].
  destruct (nth_error values 1) as [v1|]; [|reflexivity].
  destruct (nth_error values 4) as [v4|]; [|reflexivity].
  destruct (truthy v4); [|reflexivity].
  destruct (extract_email (py_str v4)) as [e|] eqn:E; [|reflexivity].
  rewrite (extract_email_nonempty _ _ E). reflexivity.
Qed.

Lemma text_or_missing v placeholder : truthy v = false -> text_or v placeholder = placeholder.
Proof. unfold text_or. intros ->. reflexivity. Qed.

(** Every contact a row adds carries the normalized email of one of the
    row's cells. *)
Lemma emitted_has_email values contacts out c :
  read_contacts_row values contacts = Some out \/
  read_contacts_sheet4_row values contacts = Some out \/
  read_contacts_sheet2_row values contacts = Some out ->
  In c out ->
  In c contacts \/
  exists v, In v values /\ v <> CNone /\ extract_email (py_str v) = Some (email c).
Proof.
  intros [H|[H|H]] Hc.
  - rewrite read_contacts_row_spec in H.
    destruct (nth_error values 0) as [v0|]; [|discriminate].
    destruct (nth_error values 1) as [v1|]; [|discriminate].
    destruct (nth_error values 4) as [v4|] eqn:E4; [|discriminate].
    destruct (cell_email v4) as [e|] eqn:E; injection H as <-; [|auto].
    apply in_app_or in Hc. destruct Hc as [Hc|[<-|[]]]; [auto|]. right.
    exists v4. apply nth_error_In in E4. apply cell_email_extract in E. simpl. tauto.
  - rewrite sheet4_row_refines in H. destruct values as [|v0 rest]; [discriminate|].
    injection H as <-. apply in_app_or in Hc. destruct Hc as [Hc|Hc]; [auto|]. right.
    apply in_flat_map in Hc. destruct Hc as (g & Hg & Hc).
    apply group_contacts_in in Hc. destruct Hc as (_ & _ & He).
    apply (triplets_in (length rest)) in Hg; [|lia]. destruct Hg as [_ Hg].
    apply cell_email_extract in He. exists (snd g). simpl. tauto.
  - rewrite sheet2_row_refines in H. destruct values as [|v0 [|v1 rest]]; try discriminate.
    injection H as <-. apply in_app_or in Hc. destruct Hc as [Hc|Hc]; [auto|]. right.
    apply (in_map email) in Hc. rewrite pair_cells_emails in Hc.
    apply scanned_emails_in in Hc. destruct Hc as (v & Hv & Hn & He).
    exists v. simpl. tauto.
Qed.

(** ** Running computations *)

Lemma bind_run {A B} (m : M A) (f : A -> M B) tr tr' r :
  m tr = (tr', r) ->
  bind m f tr = match r with
                | Val a => f a tr'
                | Exit c => (tr', Exit c)
                | Raise e => (tr', Raise e)
                end.
Proof. unfold bind. intros ->. destruct r; reflexivity. Qed.

Lemma count_app p a b : count p (a ++ b) = count p a + count p b.
Proof. unfold count. rewrite filter_app, length_app. reflexivity. Qed.

(** ** One send *)

Lemma send_cold_email_run w c tr :
  send_cold_email w c tr =
  match w_open_resume w (count is_open tr) with
  | Some exc => (tr ++ [OpenResume (w_resume_path w); failed_line exc], Val false)
  | None =>
      match w_send_message w (count is_send tr) (compose c) with
      | Some exc =>
          (tr ++ [OpenResume (w_resume_path w); SmtpSendMessage (compose c); failed_line exc],
           Val false)
      | None => (tr ++ [OpenResume (w_resume_path w); SmtpSendMessage (compose c)], Val true)
      end
  end.
Proof.
  unfold send_cold_email, try_except, read_resume, send_message, bind, history, emit,
    check, eprint, ret, raise, failed_line. simpl.
  destruct (w_open_resume w (count is_open tr)) as [exc|]; simpl.
  - rewrite <- app_assoc. reflexivity.
  - rewrite count_app. simpl. rewrite Nat.add_0_r.
    destruct (w_send_message w (count is_send tr) (compose c)) as [exc|]; simpl;
      rewrite <- ?app_assoc; reflexivity.
Qed.

(** An exception during a send is caught, logged and turned into [False];
    the call never exits, never raises and leaves the session open. *)
Lemma send_cold_email_total w c tr :
  exists evs ok,
    send_cold_email w c tr = (tr ++ evs, Val ok) /\ attempt_events w c evs ok.
Proof.
  rewrite send_cold_email_run.
  destruct (w_open_resume w _) as [exc|].
  - eexists _, false. split; [reflexivity | constructor].
  - destruct (w_send_message w _ _) as [exc|].
    + eexists _, false. split; [reflexivity | constructor].
    + eexists _, true. split; [reflexivity | constructor].
Qed.

(** ** The loop *)

Lemma send_all_spec w total : forall contacts i sent failed tr,
  exists evs s f,
    send_all w total i contacts sent failed tr = (tr ++ evs, Val (sent + s, failed + f))
    /\ loop_events w total i contacts evs s f.
Proof.
  induction contacts as [|c rest IH]; intros i sent failed tr.
  - exists [], 0, 0. simpl. unfold ret. rewrite app_nil_r, !Nat.add_0_r.
    split; [reflexivity | constructor].
  - cbn [send_all].
    destruct (send_cold_email_total w c
                (tr ++ [progress_line total i c])) as (evs & ok & Hrun & Hev).
    destruct (IH (S i) (if ok then S sent else sent) (if ok then failed else S failed)
                 (tr ++ progress_line total i c :: evs ++ verdict_line ok :: pause total i))
      as (tail & s & f & Htail & Hloop).
    exists (progress_line total i c :: evs ++ verdict_line ok :: pause total i ++ tail),
           (if ok then S s else s), (if ok then f else S f).
    split; [|constructor; assumption].
    unfold bind at 1. unfold print_end, emit. fold (progress_line total i c).
    erewrite bind_run by exact Hrun. cbn beta iota.
    assert (Hcnt : forall (tr0 : list event),
      (counters <- (if ok : bool
                    then print (u "Sent");; ret (S sent, failed)
                    else print (u "FAILED");; ret (sent, S failed)) ;;
       when (i <? total) (emit (Sleep DELAY_BETWEEN_EMAILS)) ;;
       send_all w total (S i) rest (fst counters) (snd counters)) tr0
      = send_all w total (S i) rest (if ok then S sent else sent)
          (if ok then failed else S failed)
          (tr0 ++ verdict_line ok :: pause total i)).
    { intros tr0. unfold bind, print, emit, ret, when, pause, verdict_line.
      destruct ok; simpl; destruct (i <? total); simpl;
        rewrite <- ?app_assoc; reflexivity. }
    rewrite Hcnt. rewrite <- !app_assoc. simpl.
    rewrite <- !app_assoc in Htail. simpl in Htail. rewrite <- !app_assoc in Htail.
    rewrite Htail. f_equal. f_equal.
    destruct ok; f_equal; lia.
Qed.

(** One turn of the loop, by the answers of the file system and the relay. *)
Lemma send_all_step w total i c rest sent failed tr :
  send_all w total i (c :: rest) sent failed tr =
  match w_open_resume w (count is_open tr) with
  | Some exc =>
      send_all w total (S i) rest sent (S failed)
        (tr ++ [progress_line total i c; OpenResume (w_resume_path w);
                failed_line exc; verdict_line false] ++ pause total i)
  | None =>
      match w_send_message w (count is_send tr) (compose c) with
      | Some exc =>
          send_all w total (S i) rest sent (S failed)
            (tr ++ [progress_line total i c; OpenResume (w_resume_path w);
                    SmtpSendMessage (compose c); failed_line exc; verdict_line false]
                ++ pause total i)
      | None =>
          send_all w total (S i) rest (S sent) failed
            (tr ++ [progress_line total i c; OpenResume (w_resume_path w);
                    SmtpSendMessage (compose c); verdict_line true] ++ pause total i)
      end
  end.
Proof.
  cbn [send_all]. unfold bind at 1. unfold print_end, emit.
  fold (progress_line total i c).
  unfold bind at 1. rewrite send_cold_email_run.
  rewrite !count_app. cbn [count filter is_open is_send progress_line length].
  rewrite !Nat.add_0_r.
  destruct (w_open_resume w (count is_open tr)) as [exc|];
    [|destruct (w_send_message w (count is_send tr) (compose c)) as [exc|]];
    unfold bind, print, emit, ret, when, pause, verdict_line;
    destruct (i <? total); simpl; rewrite <- ?app_assoc; reflexivity.
Qed.

Lemma attempt_events_count w c evs ok :
  attempt_events w c evs ok ->
  count is_open evs = 1 /\ count is_sleep evs = 0 /\ filter is_progress evs = []
  /\ forallb (fun e => negb (is_sleep e)) evs = true.
Proof. destruct 1; repeat split; reflexivity. Qed.



Lemma filter_pause p total i :
  (forall z, p (Sleep z) = false) -> filter p (pause total i) = [].
Proof. intros H. unfold pause. destruct (i <? total); simpl; rewrite ?H; reflexivity. Qed.

(** Every attempt is counted once, as sent or as failed. *)
Lemma loop_counters w total i cs evs s f :
  loop_events w total i cs evs s f -> s + f = length cs.
Proof.
  induction 1 as [|i c rest evs ok tail s f Ha _ IH]; [reflexivity|].
  simpl. destruct ok; lia.
Qed.

(** One attempt per contact. *)
Lemma loop_opens w total i cs evs s f :
  loop_events w total i cs evs s f -> count is_open evs = length cs.
Proof.
  induction 1 as [|i c rest evs ok tail s f Ha _ IH]; [reflexivity|].
  change (progress_line total i c :: evs ++ verdict_line ok :: pause total i ++ tail)
    with ([progress_line total i c] ++ evs ++ [verdict_line ok] ++ pause total i ++ tail).
  rewrite !count_app, IH. destruct (attempt_events_count _ _ _ _ Ha) as (-> & _).
  unfold count at 3. rewrite filter_pause by reflexivity.
  destruct ok; simpl; lia.
Qed.


Lemma last_app_nonempty {A} (a b : list A) d : b <> [] -> last (a ++ b) d = last b d.
Proof.
  intros Hb. induction a as [|x a IH]; [reflexivity|].
  simpl. destruct (a ++ b) eqn:E; [|exact IH].
  apply app_eq_nil in E. destruct E. contradiction.
Qed.



(** ** The bulk driver *)

Local Opaque u.

Lemma for_rows_run body : forall rows contacts tr,
  for_rows body rows contacts tr =
  (tr, match fold_rows body rows contacts with
       | Some cs => Val cs
       | None => Raise index_error
       end).
Proof.
  induction rows as [|values rest IH]; intros contacts tr; simpl.
  - reflexivity.
  - destruct (body values contacts); [apply IH | reflexivity].
Qed.

Lemma preview_run : forall cs i tr,
  exists evs, preview i cs tr = (tr ++ evs, Val tt).
Proof.
  induction cs as [|c rest IH]; intros i tr; simpl.
  - exists []. unfold ret. rewrite app_nil_r. reflexivity.
  - unfold bind at 1. unfold print, emit.
    destruct (IH (S i) (tr ++ [Stdout ((u "  " ++ text_of_nat i ++ u ". " ++ of_latin1 (name c)
        ++ u " (" ++ of_latin1 (company c) ++ u ") — " ++ of_latin1 (email c)) ++ nl)]))
      as [evs E].
    rewrite E. eexists. rewrite <- app_assoc. reflexivity.
Qed.

Lemma test_run_status w pw tr :
  exit_status (snd (test_run w pw tr)) = status_of (after_prompt w).
Proof.
  unfold test_run, after_prompt, confirmed, session_ok, input, with_smtp, starttls, login,
    finally.
  unfold bind, print, print_blank, eprint, emit, check, when, ret, raise, sys_exit.
  destruct (w_input w) as [answer|]; [|reflexivity].
  destruct (pystr_eqb (lower (strip answer)) (py "y")); [|reflexivity].
  cbn [negb].
  destruct (w_smtp_connect w); [reflexivity|].
  destruct (w_smtp_starttls w); [reflexivity|].
  destruct (w_smtp_login w); [reflexivity|].
  rewrite send_cold_email_run.
  destruct (w_open_resume w _); [reflexivity|].
  destruct (w_send_message w _ _); reflexivity.
Qed.

Lemma full_run_status w pw tr :
  exit_status (snd (full_run w pw tr)) =
  status_of (if negb (w_excel_exists w) then ValidationFailure
             else match w_load_workbook w with
                  | inl _ => FatalError
                  | inr worksheets =>
                      match nth_error worksheets 4 with
                      | None => FatalError
                      | Some ws =>
                          match fold_rows read_contacts_sheet2_row (skipn 1 ws) [] with
                          | None => FatalError
                          | Some _ => after_prompt w
                          end
                      end
                  end).
Proof.
  unfold full_run, read_contacts_sheet2, open_sheet.
  unfold bind at 1. unfold bind at 1. unfold bind at 1.
  unfold when, eprint, emit, sys_exit, ret, raise.
  destruct (w_excel_exists w); cbn [negb]; [|reflexivity].
  unfold bind at 1. destruct (w_load_workbook w) as [e|worksheets]; [reflexivity|].
  destruct (nth_error worksheets 4) as [ws|]; [|reflexivity].
  rewrite for_rows_run.
  destruct (fold_rows read_contacts_sheet2_row (skipn 1 ws) []) as [contacts|];
    [|reflexivity].
  unfold after_prompt, confirmed, session_ok, input, with_smtp, starttls, login, finally.
  unfold bind, print, print_blank, emit.
  match goal with |- context [preview ?i ?cs ?t] =>
    destruct (preview_run cs i t) as [evs E]; rewrite E end.
  unfold check, when, print, emit, ret, raise, sys_exit.
  destruct (5 <? length contacts);
    (destruct (w_input w) as [answer|]; [|reflexivity]);
    (destruct (pystr_eqb (lower (strip answer)) (py "y")); [|reflexivity]);
    cbn [negb];
    (destruct (w_smtp_connect w); [reflexivity|]);
    (destruct (w_smtp_starttls w); [reflexivity|]);
    (destruct (w_smtp_login w); [reflexivity|]);
    cbn beta iota;
    match goal with |- context [send_all ?w ?n ?i ?cs ?s ?f ?t] =>
      destruct (send_all_spec w n cs i s f t) as (evs' & s' & f' & E' & _); rewrite E' end;
    reflexivity.
Qed.

(** The exit status of the bulk script, for every world. *)
Lemma bulk_main_status argv w tr :
  exit_status (snd (BulkEmail.main argv w tr)) = status_of (bulk_ending argv w).
Proof.
  unfold BulkEmail.main, bulk_ending.
  unfold bind at 1. unfold when at 1.
  destruct (truthy_opt (w_getenv w "GMAIL_APP_PASSWORD_CODES04")); cbn [negb];
    [|reflexivity].
  unfold ret at 1. unfold bind at 1. unfold when at 1.
  destruct (w_resume_exists w); cbn [negb]; [|reflexivity].
  unfold ret at 1.
  destruct (member (py "--test") argv).
  - apply test_run_status.
  - apply full_run_status.
Qed.

(** Without the password nothing but the error message happens. *)
Lemma bulk_main_no_password argv w tr :
  truthy_opt (w_getenv w "GMAIL_APP_PASSWORD_CODES04") = false ->
  BulkEmail.main argv w tr =
  (tr ++ [Stderr (u "Error: GMAIL_APP_PASSWORD not set in .env" ++ nl)], Exit 1).
Proof.
  intros H. unfold BulkEmail.main. unfold bind at 1. unfold when at 1.
  rewrite H. reflexivity.
Qed.

(** The driver reads its arguments for the test token only. *)
Lemma bulk_main_reads_test_only argv argv' w tr :
  member (py "--test") argv = member (py "--test") argv' ->
  BulkEmail.main argv w tr = BulkEmail.main argv' w tr.
Proof. intros H. unfold BulkEmail.main. rewrite H. reflexivity. Qed.

(** In full mode the contacts are always those of the scan-and-pair reader
    on worksheet 4. *)
Lemma bulk_main_full_mode argv w tr :
  member (py "--test") argv = false ->
  truthy_opt (w_getenv w "GMAIL_APP_PASSWORD_CODES04") = true ->
  w_resume_exists w = true ->
  BulkEmail.main argv w tr
  = full_run w (w_getenv w "GMAIL_APP_PASSWORD_CODES04") tr.
Proof.
  intros Ht Hp Hr. unfold BulkEmail.main. rewrite Ht.
  unfold bind at 1. unfold when at 1. rewrite Hp. cbn [negb]. unfold ret at 1.
  unfold bind at 1. unfold when at 1. rewrite Hr. reflexivity.
Qed.

(** ** Scraping and founder extraction *)

Lemma fetch_all_run w : forall urls all_text tr,
  exists evs,
    forallb scrape_event evs = true /\
    Unravel.fetch_all w urls all_text tr =
    (tr ++ evs, match fetch_pure w urls all_text with
                | inl e => Raise e
                | inr gathered => Val gathered
                end).
Proof.
  induction urls as [|url rest IH]; intros all_text tr.
  - exists []. rewrite app_nil_r. split; reflexivity.
  - cbn [Unravel.fetch_all fetch_pure].
    unfold bind at 1. unfold try_except, bind, eprint, emit, ret, raise.
    destruct (w_http_get w url) as [e|page]; cbn beta iota.
    + destruct (Unravel.is_request_exception (exn_cls e)); cbn beta iota.
      * match goal with |- context [Unravel.fetch_all _ _ ?a ?t] =>
          destruct (IH a t) as (evs & Hevs & E); rewrite E end.
        rewrite <- !app_assoc. eexists. split; [|reflexivity].
        simpl. exact Hevs.
      * exists [HttpGet url]. split; reflexivity.
    + match goal with |- context [Unravel.fetch_all _ _ ?a ?t] =>
        destruct (IH a t) as (evs & Hevs & E); rewrite E end.
      rewrite <- !app_assoc. eexists. split; [|reflexivity].
      simpl. exact Hevs.
Qed.

Lemma scrape_run w tr :
  exists evs,
    forallb scrape_event evs = true /\
    Unravel.scrape_unravel_profiles w tr =
    (tr ++ evs, match fetch_pure w Unravel.UNRAVEL_URLS [] with
                | inl e => Raise e
                | inr [] => Exit 1
                | inr all_text => Val (join (nl ++ nl) all_text)
                end).
Proof.
  unfold Unravel.scrape_unravel_profiles.
  destruct (fetch_all_run w Unravel.UNRAVEL_URLS [] tr) as (evs & Hevs & E).
  unfold bind at 1. rewrite E.
  destruct (fetch_pure w Unravel.UNRAVEL_URLS []) as [e|[|p ps]].
  - exists evs. split; [exact Hevs | reflexivity].
  - eexists. unfold bind, when, eprint, emit, sys_exit, ret. cbn [nonempty negb].
    rewrite <- app_assoc. split; [|reflexivity].
    rewrite forallb_app, Hevs. reflexivity.
  - exists evs. split; [exact Hevs | reflexivity].
Qed.

Lemma extract_founder_info_run w profiles tr :
  Unravel.extract_founder_info w profiles tr =
  if negb (truthy_opt (w_getenv w "GROQ_API_KEY"))
  then (tr ++ [Stderr key_message], Exit 1)
  else
    let request := LLMRequest Unravel.SYSTEM_PROMPT (Unravel.build_user_prompt profiles) in
    match w_llm_chat w Unravel.SYSTEM_PROMPT (Unravel.build_user_prompt profiles) with
    | inl e =>
        if Unravel.is_openai_error (exn_cls e)
        then (tr ++ [request; Stderr ((u "Groq API error: " ++ exn_msg e) ++ nl)], Exit 1)
        else (tr ++ [request], Raise e)
    | inr content =>
        if negb (truthy_opt content)
        then (tr ++ [request; Stderr (u "Error: LLM returned an empty response." ++ nl)],
              Exit 1)
        else
          match w_json_loads w (the content) with
          | inl err =>
              (tr ++ [request;
                      Stderr ((u "Error: Failed to parse LLM response as JSON." ++ nl
                                 ++ u "Raw response: " ++ the content ++ nl
                                 ++ u "Parse error:  " ++ err) ++ nl)], Exit 1)
          | inr result => (tr ++ [request], Val result)
          end
    end.
Proof.
  unfold Unravel.extract_founder_info, key_message.
  unfold try_except, bind, when, eprint, emit, sys_exit, ret, raise.
  destruct (truthy_opt (w_getenv w "GROQ_API_KEY")); cbn [negb]; [|reflexivity].
  destruct (w_llm_chat w _ _) as [e|content]; cbn beta iota.
  - destruct (Unravel.is_openai_error (exn_cls e)); [|reflexivity].
    rewrite <- app_assoc. reflexivity.
  - destruct (truthy_opt content); cbn [negb].
    + destruct (w_json_loads w (the content)); [|reflexivity].
      rewrite <- app_assoc. reflexivity.
    + rewrite <- app_assoc. reflexivity.
Qed.

(** ** The single-recipient driver *)

Lemma send_application_email_no_password w recipient tr :
  truthy_opt (w_getenv w "GMAIL_APP_PASSWORD") = false ->
  SendEmail.send_application_email w recipient tr =
  (tr ++ [Stderr password_message], Exit 1).
Proof.
  intros H. unfold SendEmail.send_application_email. unfold bind at 1. unfold when at 1.
  rewrite H. reflexivity.
Qed.

Lemma send_application_email_run w recipient tr :
  exists evs r,
    SendEmail.send_application_email w recipient tr = (tr ++ evs, r) /\
    exit_status r
    = status_of (send_ending w (count is_open tr) (count is_send tr) recipient).
Proof.
  unfold SendEmail.send_application_email, send_ending, session_ok.
  fold (application w recipient).
  unfold read_resume, with_smtp, starttls, login, send_message, finally, try_except.
  unfold bind, when, history, check, print, eprint, emit, sys_exit, ret, raise.
  destruct (truthy_opt (w_getenv w "GMAIL_APP_PASSWORD")); cbn [negb];
    [|eexists _, _; split; reflexivity].
  destruct (w_resume_exists w); cbn [negb]; [|eexists _, _; split; reflexivity].
  destruct (w_open_resume w (count is_open tr)) as [e|]; cbn beta iota;
    [eexists _, _; split; reflexivity|].
  destruct (w_smtp_connect w) as [e|]; cbn beta iota.
  { destruct e as [[] msg]; cbn; rewrite <- ?app_assoc; eexists _, _; split; reflexivity. }
  destruct (w_smtp_starttls w) as [e|]; cbn beta iota.
  { destruct e as [[] msg]; cbn; rewrite <- ?app_assoc; eexists _, _; split; reflexivity. }
  destruct (w_smtp_login w) as [e|]; cbn beta iota.
  { destruct e as [[] msg]; cbn; rewrite <- ?app_assoc; eexists _, _; split; reflexivity. }
  rewrite !count_app. cbn [count filter is_send length]. rewrite !Nat.add_0_r.
  destruct (w_send_message w (count is_send tr) (application w recipient)) as [e|];
    cbn beta iota.
  { destruct e as [[] msg]; cbn; rewrite <- ?app_assoc; eexists _, _; split; reflexivity. }
  rewrite <- ?app_assoc. eexists _, _; split; reflexivity.
Qed.

Lemma count_scrape_events p evs :
  (forall e, scrape_event e = true -> p e = false) ->
  forallb scrape_event evs = true -> count p evs = 0.
Proof.
  intros Hp. induction evs as [|e evs IH]; [reflexivity|].
  simpl. intros H. apply andb_prop in H. destruct H as [He Hevs].
  unfold count. simpl. rewrite (Hp e He). apply IH, Hevs.
Qed.

Lemma scrape_event_not_open e : scrape_event e = true -> is_open e = false.
Proof. unfold scrape_event. destruct e; simpl; congruence. Qed.

Lemma scrape_event_not_send e : scrape_event e = true -> is_send e = false.
Proof. unfold scrape_event. destruct e; simpl; congruence. Qed.

(** The exit status of the single-recipient script, for every world. *)
Lemma single_main_status w :
  exit_status (snd (SendEmail.main w [])) = status_of (single_ending w).
Proof.
  unfold SendEmail.main, single_ending.
  unfold bind at 1. unfold print at 1. unfold emit at 1. unfold bind at 1.
  match goal with |- context [Unravel.scrape_unravel_profiles w ?t] =>
    destruct (scrape_run w t) as (evs & Hevs & E); rewrite E end.
  destruct (fetch_pure w Unravel.UNRAVEL_URLS []) as [e|[|p ps]]; try reflexivity.
  unfold bind at 1. unfold print at 1. unfold emit at 1.
  unfold bind at 1. unfold print at 1. unfold emit at 1.
  unfold bind at 1. rewrite extract_founder_info_run.
  destruct (truthy_opt (w_getenv w "GROQ_API_KEY")); cbn [negb]; [|reflexivity].
  cbn zeta.
  destruct (w_llm_chat w _ _) as [e|content].
  { destruct (Unravel.is_openai_error (exn_cls e)); reflexivity. }
  destruct (truthy_opt content); cbn [negb]; [|reflexivity].
  destruct (w_json_loads w (the content)) as [err|result]; [reflexivity|].
  destruct result as [| | | | |items|members]; try reflexivity.
  unfold SendEmail.get. unfold bind at 1. unfold ret at 1.
  unfold bind at 1. unfold ret at 1. unfold bind at 1. unfold when at 1.
  destruct (negb (json_truthy (dict_get members (u "founder_name")))
            || negb (json_truthy (dict_get members (u "email")))); [reflexivity|].
  unfold confirmed, input.
  unfold bind, when, print, print_blank, emit, ret, raise, sys_exit.
  cbn beta iota.
  destruct (w_input w) as [answer|]; [|reflexivity]. cbn beta iota.
  destruct (pystr_eqb (lower (strip answer)) (py "y")); cbn [negb]; [|reflexivity].
  cbn beta iota.
  match goal with |- context [SendEmail.send_application_email w ?r ?t] =>
    destruct (send_application_email_run w r t) as (evs' & res & E' & St); rewrite E';
    assert (Ho : count is_open t = 0);
    [|assert (Hs : count is_send t = 0)] end.
  { rewrite !count_app. rewrite (count_scrape_events is_open evs scrape_event_not_open Hevs).
    reflexivity. }
  { rewrite !count_app. rewrite (count_scrape_events is_send evs scrape_event_not_send Hevs).
    reflexivity. }
  rewrite Ho, Hs in St. rewrite <- St. destruct res; reflexivity.
Qed.

Lemma scrape_no p evs :
  (forall e, scrape_event e = true -> p e = false) ->
  forallb scrape_event evs = true -> existsb p evs = false.
Proof.
  intros Hp. induction evs as [|e evs IH]; [reflexivity|].
  simpl. intros H. apply andb_prop in H. destruct H as [He Hevs].
  rewrite (Hp e He). apply IH, Hevs.
Qed.

Lemma scrape_event_not_llm e : scrape_event e = true -> is_llm e = false.
Proof. unfold scrape_event. destruct e; simpl; congruence. Qed.

Lemma scrape_event_not_smtp e : scrape_event e = true -> is_smtp e = false.
Proof. unfold scrape_event. destruct e; simpl; congruence. Qed.

Ltac quiet Hevs :=
  rewrite ?existsb_app; cbn [existsb is_llm is_smtp orb];
  try rewrite (scrape_no is_llm _ scrape_event_not_llm Hevs);
  try rewrite (scrape_no is_smtp _ scrape_event_not_smtp Hevs);
  cbn [orb].

(** Closes a goal [exists evs r, (tr ++ ..., res) = (tr ++ evs, r) /\ ...]
    whose events cannot have happened or whose conditions are at hand. *)
Ltac settle Hevs :=
  rewrite <- ?app_assoc; eexists _, _; split; [reflexivity|];
  split;
  first [ solve [intros _; auto]
        | solve [quiet Hevs; let H := fresh in intros H; discriminate H] ].

(** What the trace of the single-recipient script tells about the world:
    the LLM is called only with the key set, and the relay is contacted only
    after a dict with two true fields was decoded, the operator answered y
    and the password was found. *)
Lemma single_main_events w tr :
  exists evs r,
    SendEmail.main w tr = (tr ++ evs, r) /\
    (existsb is_llm evs = true -> truthy_opt (w_getenv w "GROQ_API_KEY") = true) /\
    (existsb is_smtp evs = true ->
       truthy_opt (w_getenv w "GROQ_API_KEY") = true /\
       truthy_opt (w_getenv w "GMAIL_APP_PASSWORD") = true /\
       confirmed w = Some true /\
       exists profiles content members,
         w_llm_chat w Unravel.SYSTEM_PROMPT (Unravel.build_user_prompt profiles)
           = inr content /\
         w_json_loads w (the content) = inr (JObject members) /\
         json_truthy (dict_get members (u "founder_name")) = true /\
         json_truthy (dict_get members (u "email")) = true).
Proof.
  unfold SendEmail.main.
  unfold bind at 1. unfold print at 1. unfold emit at 1. unfold bind at 1.
  match goal with |- context [Unravel.scrape_unravel_profiles w ?t] =>
    destruct (scrape_run w t) as (evs & Hevs & E); rewrite E end.
  destruct (fetch_pure w Unravel.UNRAVEL_URLS []) as [e|[|p ps]];
    [settle Hevs | settle Hevs |].
  unfold bind at 1. unfold print at 1. unfold emit at 1.
  unfold bind at 1. unfold print at 1. unfold emit at 1.
  unfold bind at 1. rewrite extract_founder_info_run.
  destruct (truthy_opt (w_getenv w "GROQ_API_KEY")) eqn:Hkey; cbn [negb];
    [|settle Hevs].
  cbn zeta.
  destruct (w_llm_chat w _ _) as [e|content] eqn:Hllm.
  { destruct (Unravel.is_openai_error (exn_cls e)); settle Hevs. }
  destruct (truthy_opt content); cbn [negb]; [|settle Hevs].
  destruct (w_json_loads w (the content)) as [err|result] eqn:Hjson; [settle Hevs|].
  destruct result as [| | | | |items|members];
    try (unfold SendEmail.get; unfold bind at 1; unfold raise at 1; settle Hevs).
  unfold SendEmail.get. unfold bind at 1. unfold ret at 1.
  unfold bind at 1. unfold ret at 1. unfold bind at 1. unfold when at 1.
  destruct (json_truthy (dict_get members (u "founder_name"))) eqn:Hf; cbn [negb orb];
    [|unfold bind, eprint, emit, sys_exit; settle Hevs].
  destruct (json_truthy (dict_get members (u "email"))) eqn:Hr; cbn [negb orb];
    [|unfold bind, eprint, emit, sys_exit; settle Hevs].
  unfold confirmed, input.
  unfold bind, when, print, print_blank, emit, ret, raise, sys_exit.
  cbn beta iota.
  destruct (w_input w) as [answer|]; cbn beta iota; [|settle Hevs].
  destruct (pystr_eqb (lower (strip answer)) (py "y")); cbn [negb]; cbn beta iota;
    [|settle Hevs].
  destruct (truthy_opt (w_getenv w "GMAIL_APP_PASSWORD")) eqn:Hpw.
  - match goal with |- context [SendEmail.send_application_email w ?r ?t] =>
      destruct (send_application_email_run w r t) as (evs' & res & E' & _); rewrite E' end.
    assert (Hex : exists profiles content0 members0,
        w_llm_chat w Unravel.SYSTEM_PROMPT (Unravel.build_user_prompt profiles)
          = inr content0 /\
        w_json_loads w (the content0) = inr (JObject members0) /\
        json_truthy (dict_get members0 (u "founder_name")) = true /\
        json_truthy (dict_get members0 (u "email")) = true) by eauto 8.
    destruct res; rewrite <- ?app_assoc; eexists _, _; (split; [reflexivity|]);
      split; auto.
  - rewrite send_application_email_no_password by exact Hpw. settle Hevs.
Qed.

(** The run when the LLM answers the null object. *)
Lemma single_main_null w raw tr :
  truthy_opt (w_getenv w "GROQ_API_KEY") = true ->
  (forall profiles,
      w_llm_chat w Unravel.SYSTEM_PROMPT (Unravel.build_user_prompt profiles)
      = inr (Some raw)) ->
  raw <> [] ->
  w_json_loads w raw = inr Scenario.null_object ->
  exists evs,
    forallb scrape_event evs = true /\
    SendEmail.main w tr =
    match fetch_pure w Unravel.UNRAVEL_URLS [] with
    | inl e => (tr ++ evs, Raise e)
    | inr [] => (tr ++ evs, Exit 1)
    | inr all_text =>
        (tr ++ evs ++
           [Stdout ((u "   Fetched " ++ text_of_nat (length (join (nl ++ nl) all_text))
                       ++ u " characters of content." ++ nl) ++ nl);
            Stdout (u "🤖 Step 2: Extracting founder info with LLM agent..." ++ nl);
            LLMRequest Unravel.SYSTEM_PROMPT
                       (Unravel.build_user_prompt (join (nl ++ nl) all_text));
            could_not_extract],
         Exit 1)
    end.
Proof.
  intros Hkey Hllm Hraw Hjson.
  unfold SendEmail.main.
  unfold bind at 1. unfold print at 1. unfold emit at 1. unfold bind at 1.
  match goal with |- context [Unravel.scrape_unravel_profiles w ?t] =>
    destruct (scrape_run w t) as (evs & Hevs & E); rewrite E end.
  exists (Stdout (u "🌐 Step 1: Scraping unravel.tech for founder profiles..." ++ nl)
            :: evs).
  split; [simpl; exact Hevs|].
  destruct (fetch_pure w Unravel.UNRAVEL_URLS []) as [e|[|p ps]];
    try (rewrite <- app_assoc; reflexivity).
  unfold bind at 1. unfold print at 1. unfold emit at 1.
  unfold bind at 1. unfold print at 1. unfold emit at 1.
  unfold bind at 1. rewrite extract_founder_info_run, Hkey, Hllm. cbn [negb]. cbn zeta.
  assert (Ht : truthy_opt (Some raw) = true) by (destruct raw; [congruence | reflexivity]).
  rewrite Ht. cbn [negb the]. rewrite Hjson.
  unfold SendEmail.get, Scenario.null_object.
  unfold bind, when, eprint, emit, ret, sys_exit, could_not_extract.
  assert (H1 : dict_get [(u "founder_name", JNull); (u "email", JNull)] (u "founder_name")
               = JNull) by (vm_compute; reflexivity).
  rewrite H1. cbn [json_truthy negb orb]. rewrite <- !app_assoc. reflexivity.
Qed.

Local Transparent u.

Lemma attempt_no_quit w c evs ok :
  attempt_events w c evs ok ->
  existsb (fun e => match e with SmtpQuit => true | _ => false end) evs = false.
Proof. destruct 1; reflexivity. Qed.

(** The loop leaves the session open. *)
Lemma loop_no_quit w total i cs evs s f :
  loop_events w total i cs evs s f ->
  existsb (fun e => match e with SmtpQuit => true | _ => false end) evs = false.
Proof.
  induction 1 as [|i c rest evs ok tail s f Ha _ IH]; [reflexivity|].
  change (progress_line total i c :: evs ++ verdict_line ok :: pause total i ++ tail)
    with ([progress_line total i c] ++ evs ++ [verdict_line ok] ++ pause total i ++ tail).
  rewrite !existsb_app, IH, (attempt_no_quit _ _ _ _ Ha).
  unfold pause. destruct ok; destruct (i <? total); reflexivity.
Qed.

Lemma pair_cells_names company : forall cells st,
  (forall n, st = Pending n -> n <> []) ->
  Forall (fun c => name c <> []) (pair_cells company st cells).
Proof.
  induction cells as [|v cells IH]; intros st Hst; [constructor|].
  simpl. apply Forall_app.
  assert (Hp : pending_name st <> []).
  { destruct st as [|n]; [discriminate | apply Hst; reflexivity]. }
  destruct v; simpl;
    try (split; [constructor | apply IH, Hst]);
    match goal with |- context [extract_email ?t] =>
      destruct (extract_email t) as [e|]; simpl;
      [split; [repeat constructor; exact Hp | apply IH; discriminate]|];
      destruct (is_candidate_name t) eqn:C; simpl;
      (split; [constructor|]); apply IH;
      [|exact Hst];
      destruct st as [|n]; [|exact Hst];
      intros n [= <-];
      unfold is_candidate_name in C;
      apply andb_prop in C; destruct C as [C _];
      apply andb_prop in C; destruct C as [_ C];
      apply Nat.ltb_lt in C; destruct t; [simpl in C; lia | discriminate]
    end.
Qed.

(* ===================================================================== *)
(** * The claims *)
(* ===================================================================== *)

(** C1 (evaluation of the code where the claim fails). The claim says the
    --sheet4 token selects the repeating-triplet reader for the bulk run.
    The driver reads the token into a variable it never uses: with the token
    the run is the run without it, the messages go to the contacts the
    scan-and-pair reader finds on worksheet 4, and the contact the
    repeating-triplet reader would find is not written to. *)
Theorem C1_sheet4_token_is_ignored :
  BulkEmail.main [py "bulk_email.py"; py "--sheet4"] Scenario.sunny []
  = BulkEmail.main [py "bulk_email.py"] Scenario.sunny []
  /\ Scenario.sent_to
       (fst (run_script (BulkEmail.main [py "bulk_email.py"; py "--sheet4"] Scenario.sunny)))
     = [u "jo@acme.com"]
  /\ snd (read_contacts_sheet2 Scenario.sunny 4 []) = Val [Scenario.jo]
  /\ snd (read_contacts_sheet4 Scenario.sunny []) = Val [Scenario.al].
Proof.
  split; [apply bulk_main_reads_test_only; reflexivity|].
  split; [vm_compute; reflexivity|].
  split; vm_compute; reflexivity.
Qed.

(** C2 (counterexample). With the LLM key unset the single-recipient script
    exits with status 1, but only after fetching the three pages. *)
Lemma C2_pages_fetched_before_key_check :
  w_getenv (Scenario.without_env (String.eqb "GROQ_API_KEY") Scenario.sunny) "GROQ_API_KEY"
  = None
  /\ filter is_network
       (fst (run_script
               (SendEmail.main
                  (Scenario.without_env (String.eqb "GROQ_API_KEY") Scenario.sunny))))
     = map HttpGet Unravel.UNRAVEL_URLS
  /\ snd (run_script
            (SendEmail.main
               (Scenario.without_env (String.eqb "GROQ_API_KEY") Scenario.sunny)))
     = 1%Z.
Proof. repeat split; vm_compute; reflexivity. Qed.

(** C2 (amended). Each secret is checked where it is used. In the bulk
    script a missing SMTP password ends the run with status 1 and the error
    message before anything else happens. In the single-recipient script a
    missing LLM key makes [extract_founder_info] print its message and exit
    with status 1 before the LLM is called, so the run ends with status 1
    with no LLM call and no SMTP traffic, after the page fetches; a missing
    SMTP password makes [send_application_email] print its message and exit
    with status 1 before the relay is contacted, so the run has no SMTP
    traffic. *)
Theorem C2_secrets_checked_at_use :
  (forall argv w,
      truthy_opt (w_getenv w "GMAIL_APP_PASSWORD_CODES04") = false ->
      BulkEmail.main argv w []
      = ([Stderr (u "Error: GMAIL_APP_PASSWORD not set in .env" ++ nl)], Exit 1)) /\
  (forall w,
      truthy_opt (w_getenv w "GROQ_API_KEY") = false ->
      (forall profiles tr,
          Unravel.extract_founder_info w profiles tr = (tr ++ [Stderr key_message], Exit 1)) /\
      exit_status (snd (SendEmail.main w [])) = 1%Z /\
      existsb is_llm (fst (SendEmail.main w [])) = false /\
      existsb is_smtp (fst (SendEmail.main w [])) = false) /\
  (forall w,
      truthy_opt (w_getenv w "GMAIL_APP_PASSWORD") = false ->
      (forall recipient tr,
          SendEmail.send_application_email w recipient tr
          = (tr ++ [Stderr password_message], Exit 1)) /\
      existsb is_smtp (fst (SendEmail.main w [])) = false).
Proof.
  split; [|split].
  - intros argv w H. apply (bulk_main_no_password argv w [] H).
  - intros w H. split; [|split; [|split]].
    + intros profiles tr. rewrite extract_founder_info_run, H. reflexivity.
    + rewrite single_main_status. unfold single_ending.
      destruct (fetch_pure w Unravel.UNRAVEL_URLS []) as [e|[|p ps]]; try reflexivity.
      rewrite H. reflexivity.
    + destruct (single_main_events w []) as (evs & r & E & Hl & _).
      rewrite E. simpl. destruct (existsb is_llm evs); [|reflexivity].
      rewrite Hl in H by reflexivity. discriminate.
    + destruct (single_main_events w []) as (evs & r & E & Hl & Hs).
      rewrite E. simpl. destruct (existsb is_smtp evs) eqn:X; [|reflexivity].
      destruct (Hs eq_refl) as (Hk & _). rewrite Hk in H. discriminate.
  - intros w H. split.
    + intros recipient tr. apply send_application_email_no_password, H.
    + destruct (single_main_events w []) as (evs & r & E & _ & Hs).
      rewrite E. simpl. destruct (existsb is_smtp evs); [|reflexivity].
      destruct (Hs eq_refl) as (_ & Hp & _). rewrite Hp in H. discriminate.
Qed.




(** C5. For every raw cell string, [extract_email] answers no-match on the
    empty string; otherwise it trims the string and, when the mail-link
    pattern occurs in it, returns the lower-cased address that follows a
    [mailto:] there; when it does not occur but the generic email pattern
    does, it returns a lower-cased occurrence of that pattern; when neither
    occurs it answers no-match. Whatever is returned is lower-cased and
    trimmed. The three examples of the specification evaluate as stated. *)
Theorem C5_email_normalization :
  (forall raw,
      (raw = [] -> extract_email raw = None) /\
      (Re.occurs re_mailto (strip raw) ->
         exists pre addr post,
           strip raw = pre ++ (py "mailto:" ++ addr) ++ post /\
           addr <> [] /\ Forall (fun c => addr_char c = true) addr /\
           extract_email raw = Some (lower addr)) /\
      (~ Re.occurs re_mailto (strip raw) -> Re.occurs re_plain (strip raw) ->
         exists pre m post,
           strip raw = pre ++ m ++ post /\ Re.matches re_plain m /\
           extract_email raw = Some (lower m)) /\
      (~ Re.occurs re_mailto (strip raw) -> ~ Re.occurs re_plain (strip raw) ->
         extract_email raw = None) /\
      (forall e, extract_email raw = Some e -> lower e = e /\ strip e = e)) /\
  extract_email (py "=HYPERLINK(" ++ [dquote] ++ py "mailto:a@b.com" ++ [dquote] ++ py ","
                   ++ [dquote] ++ py "a@b.com" ++ [dquote] ++ py ")")
  = Some (py "a@b.com") /\
  extract_email (py "A@B.COM") = Some (py "a@b.com") /\
  extract_email (py "call me") = None.
Proof.
  split; [|repeat split; vm_compute; reflexivity].
  intros raw. split; [intros ->; reflexivity|].
  split; [|split; [|split]].
  - intros Ho.
    assert (Hraw : nonempty raw = true).
    { destruct raw; [|reflexivity]. exfalso.
      destruct Ho as (pre & m & post & E & Hm). cbn in E.
      inversion Hm as [| |? ? a b Ha Hb|]; subst. inversion Ha; subst.
      destruct pre; discriminate. }
    unfold extract_email. rewrite Hraw. cbn [negb].
    destruct (Re.search re_mailto (strip raw)) as [mo|] eqn:E.
    + pose proof (search_sound _ _ _ E) as (pre & post & Es & _).
      apply mailto_search in E. destruct E as (g & Hg1 & Hg0 & Hne & HF).
      exists pre, g, post. rewrite <- Hg0. split; [exact Es|].
      split; [exact Hne|]. split; [exact HF|].
      unfold the_group1. rewrite Hg1.
      destruct (clean_of_Forall addr_char g addr_char_not_space HF) as [C1 C2].
      rewrite (strip_id g C1 C2). reflexivity.
    + apply search_none in E. contradiction.
  - intros Hn Ho.
    assert (Hraw : nonempty raw = true).
    { destruct raw; [|reflexivity]. exfalso.
      destruct Ho as (pre & m & post & E & Hm). cbn in E.
      destruct (plain_match_clean m Hm) as (Hne & _).
      destruct pre; [destruct m; [congruence | discriminate] | discriminate]. }
    unfold extract_email. rewrite Hraw. cbn [negb].
    apply search_none in Hn. rewrite Hn.
    destruct (Re.search re_plain (strip raw)) as [mo|] eqn:E.
    + apply search_sound in E. destruct E as (pre & post & Es & Hm).
      exists pre, (Re.group0 mo), post. split; [exact Es|]. split; [exact Hm|].
      destruct (plain_match_clean _ Hm) as (_ & C1 & C2).
      rewrite (strip_id _ C1 C2). reflexivity.
    + apply search_none in E. contradiction.
  - intros Hn Hp. unfold extract_email.
    apply search_none in Hn. apply search_none in Hp. rewrite Hn, Hp.
    destruct (nonempty raw); reflexivity.
  - intros e He. apply (extract_email_normal raw e He).
Qed.

(** C7. For every row, the repeating-triplet reader takes the company from
    column 0 and walks the columns after it in groups of three (name, phone,
    email candidate); it adds exactly one contact, with the row's company,
    for each complete group that has a non-empty name and a recognisable
    email, in order, and nothing else. The example row yields the contacts
    of Jo and Al, in that order. *)
Theorem C7_repeating_triplets :
  (forall values contacts,
      read_contacts_sheet4_row values contacts
      = option_map (app contacts) (triplet_row values)) /\
  (forall v0 rest,
      triplet_row (v0 :: rest)
      = Some (flat_map (group_contacts (text_or v0 (py "your company"))) (triplets rest))) /\
  (forall n p e rest, triplets (n :: p :: e :: rest) = (n, p, e) :: triplets rest) /\
  (forall company n p e,
      group_contacts company (n, p, e)
      = match cell_name n, cell_email e with
        | Some nm, Some em => [{| company := company; name := nm; email := em |}]
        | _, _ => []
        end) /\
  read_contacts_sheet4_row
    [CStr (py "Acme"); CStr (py "Jo"); CStr (py "555"); CStr (py "jo@acme.com");
     CStr (py "Al"); CStr (py "555"); CStr (py "al@acme.com")] []
  = Some [{| company := py "Acme"; name := py "Jo"; email := py "jo@acme.com" |};
          {| company := py "Acme"; name := py "Al"; email := py "al@acme.com" |}].
Proof.
  split; [exact sheet4_row_refines|].
  split; [reflexivity|]. split; [reflexivity|]. split; [reflexivity|].
  rewrite sheet4_row_refines. vm_compute. reflexivity.
Qed.

(** C8. When the LLM response parses to the JSON object with both fields
    null, [extract_founder_info] returns that object after its one LLM call,
    both fields read as [None] for the caller, and the single-recipient
    driver ends with exit status 1 having produced nothing but console
    output, page fetches and the LLM call: no prompt, no file read and no
    SMTP traffic. When scraping produced text, the run ends by [sys.exit(1)]
    right after the could-not-extract message. *)
Theorem C8_null_founder_halts_before_sending
  (w : world) (raw : text)
  (Hkey : truthy_opt (w_getenv w "GROQ_API_KEY") = true)
  (Hllm : forall profiles,
      w_llm_chat w Unravel.SYSTEM_PROMPT (Unravel.build_user_prompt profiles)
      = inr (Some raw))
  (Hraw : raw <> [])
  (Hjson : w_json_loads w raw = inr Scenario.null_object) :
  (forall profiles tr,
      Unravel.extract_founder_info w profiles tr
      = (tr ++ [LLMRequest Unravel.SYSTEM_PROMPT (Unravel.build_user_prompt profiles)],
         Val Scenario.null_object)) /\
  (forall tr, SendEmail.get Scenario.null_object (u "founder_name") tr = (tr, Val JNull)) /\
  (forall tr, SendEmail.get Scenario.null_object (u "email") tr = (tr, Val JNull)) /\
  exit_status (snd (SendEmail.main w [])) = 1%Z /\
  forallb (fun e => is_output e || is_http e || is_llm e) (fst (SendEmail.main w [])) = true /\
  existsb is_smtp (fst (SendEmail.main w [])) = false /\
  (forall all_text,
      fetch_pure w Unravel.UNRAVEL_URLS [] = inr all_text -> all_text <> [] ->
      snd (SendEmail.main w []) = Exit 1 /\
      last (fst (SendEmail.main w [])) (Sleep 0) = could_not_extract).
Proof.
  assert (Ht : truthy_opt (Some raw) = true) by (destruct raw; [congruence | reflexivity]).
  split.
  { intros profiles tr. rewrite extract_founder_info_run, Hkey, Hllm. cbn [negb]. cbn zeta.
    rewrite Ht. cbn [negb the]. rewrite Hjson. reflexivity. }
  split; [intros tr; vm_compute; reflexivity|].
  split; [intros tr; vm_compute; reflexivity|].
  destruct (single_main_null w raw [] Hkey Hllm Hraw Hjson) as (evs & Hevs & E).
  assert (Hout : forallb (fun e => is_output e || is_http e || is_llm e) evs = true).
  { clear E. induction evs as [|e evs IH]; [reflexivity|].
    simpl in Hevs. apply andb_prop in Hevs. destruct Hevs as [He Hevs].
    simpl. rewrite (IH Hevs), andb_true_r.
    unfold scrape_event in He. destruct e; simpl in *; congruence. }
  assert (Hsm : existsb is_smtp evs = false)
    by exact (scrape_no is_smtp evs scrape_event_not_smtp Hevs).
  rewrite E.
  destruct (fetch_pure w Unravel.UNRAVEL_URLS []) as [e|[|p ps]]; cbn [fst snd app].
  - split; [reflexivity|]. split; [exact Hout|]. split; [exact Hsm|].
    intros all_text [=].
  - split; [reflexivity|]. split; [exact Hout|]. split; [exact Hsm|].
    intros all_text [= <-]. congruence.
  - split; [reflexivity|].
    split; [rewrite forallb_app, Hout; reflexivity|].
    split; [rewrite existsb_app, Hsm; reflexivity|].
    intros all_text _ _. split; [reflexivity|].
    rewrite last_app_nonempty by discriminate. reflexivity.
Qed.

(** The LLM of the example world answers the null object. *)
Lemma C8_null_answer_run :
  exit_status (snd (SendEmail.main Scenario.sunny [])) = 1%Z
  /\ existsb is_smtp (fst (SendEmail.main Scenario.sunny [])) = false.
Proof.
  pose proof (C8_null_founder_halts_before_sending Scenario.sunny Scenario.null_answer
                eq_refl (fun _ => eq_refl)
                ltac:(vm_compute; discriminate) ltac:(vm_compute; reflexivity)) as H.
  split; [exact (proj1 (proj2 (proj2 (proj2 H)))) |
          exact (proj1 (proj2 (proj2 (proj2 (proj2 (proj2 H))))))].
Defined.

(** C9 (counterexample). In test mode, with the relay refusing the message,
    the bulk script reports the failure on stderr and ends with status 0. *)
Lemma C9_failed_test_send_exits_zero :
  snd (run_script (BulkEmail.main [py "bulk_email.py"; py "--test"]
                     (Scenario.with_relay (fun _ => true) Scenario.sunny)))
  = 0%Z
  /\ existsb (fun e => match e with
                       | Stderr s => text_eqb s (u "Test email failed." ++ nl)
                       | _ => false
                       end)
       (fst (run_script (BulkEmail.main [py "bulk_email.py"; py "--test"]
                           (Scenario.with_relay (fun _ => true) Scenario.sunny))))
     = true.
Proof. split; vm_compute; reflexivity. Qed.

(** C9 (amended). Every run of either script ends with the exit status of
    its ending: 0 when main returns (the bulk script returns whether or not
    single sends failed, in test mode and in the loop) or the operator did
    not answer y, 1 for every validation failure and every fatal error. *)
Theorem C9_exit_status_by_ending (argv : list pystr) (w : world) :
  exit_status (snd (BulkEmail.main argv w [])) = status_of (bulk_ending argv w) /\
  exit_status (snd (SendEmail.main w [])) = status_of (single_ending w) /\
  (forall e, status_of e = 0%Z <-> e = Completed \/ e = Cancelled) /\
  (forall e, status_of e = 1%Z <-> e = ValidationFailure \/ e = FatalError) /\
  (forall refused,
      bulk_ending argv (Scenario.with_relay refused w) = bulk_ending argv w).
Proof.
  split; [apply bulk_main_status|].
  split; [apply single_main_status|].
  split; [|split].
  - intros e. destruct e; simpl; split; intros H; try discriminate; auto;
      destruct H as [H|H]; discriminate.
  - intros e. destruct e; simpl; split; intros H; try discriminate; auto;
      destruct H as [H|H]; discriminate.
  - intros refused. reflexivity.
Qed.

(* ===================================================================== *)
(** * Further facts *)
(* ===================================================================== *)

Import Behaviour.

(** ** Greedy repetition: where it stops, what it gives back *)

Section GreedyFacts.
Context {A : Type}.
Variable cls : ascii -> bool.
Variable k : pystr -> option A.

Lemma star_cls_stop rest : stops cls rest -> Re.star_cls cls k rest = k rest.
Proof. destruct rest as [|c r]; simpl; [reflexivity|]. intros ->. reflexivity. Qed.

Lemma star_cls_all_fail rest : stops cls rest -> forall b,
  (forall b1 b2, b = b1 ++ b2 -> k (b2 ++ rest) = None) ->
  Re.star_cls cls k (b ++ rest) = None.
Proof.
  intros Hr. induction b as [|c b IH]; intros H.
  - simpl. rewrite (star_cls_stop _ Hr). apply (H [] []). reflexivity.
  - simpl. destruct (cls c).
    + rewrite IH.
      * apply (H [] (c :: b)). reflexivity.
      * intros b1 b2 ->. apply (H (c :: b1) b2). reflexivity.
    + apply (H [] (c :: b)). reflexivity.
Qed.

Lemma star_cls_giveback rest b x :
  stops cls rest ->
  forallb cls b = true ->
  (forall b1 b2, b = b1 ++ b2 -> b1 <> [] -> k (b2 ++ rest) = None) ->
  k (b ++ rest) = Some x ->
  Re.star_cls cls k (b ++ rest) = Some x.
Proof.
  intros Hr Hb Hfail Hk. destruct b as [|c b].
  - simpl in *. rewrite (star_cls_stop _ Hr). exact Hk.
  - simpl in *. apply andb_prop in Hb. destruct Hb as [-> _].
    rewrite (star_cls_all_fail rest Hr b).
    + exact Hk.
    + intros b1 b2 ->. apply (Hfail (c :: b1) b2); [reflexivity | discriminate].
Qed.

Lemma star_cls_prefix a s x :
  forallb cls a = true -> Re.star_cls cls k s = Some x ->
  Re.star_cls cls k (a ++ s) = Some x.
Proof.
  induction a as [|c a IH]; intros Ha Hs; [exact Hs|].
  simpl in *. apply andb_prop in Ha. destruct Ha as [-> Ha].
  rewrite (IH Ha Hs). reflexivity.
Qed.

Lemma star_cls_longest m rest x :
  stops cls rest -> forallb cls m = true -> k rest = Some x ->
  Re.star_cls cls k (m ++ rest) = Some x.
Proof.
  intros Hr Hm Hk. apply star_cls_prefix; [exact Hm|].
  rewrite (star_cls_stop _ Hr). exact Hk.
Qed.

End GreedyFacts.

Lemma Forall_of_forallb {A} (p : A -> bool) l :
  forallb p l = true -> Forall (fun c => p c = true) l.
Proof. rewrite forallb_forall, Forall_forall. auto. Qed.

Lemma forallb_of_Forall {A} (p : A -> bool) l :
  Forall (fun c => p c = true) l -> forallb p l = true.
Proof. rewrite forallb_forall, Forall_forall. auto. Qed.

(** ** The mail link *)

Lemma contains_app c a b : contains c (a ++ b) = contains c a || contains c b.
Proof. apply existsb_app. Qed.

Lemma mailto_not_inside p rest :
  p <> [] -> contains ":" p = false ->
  Re.drop_prefix (py "mailto:") (p ++ py "mailto:" ++ rest) = None.
Proof.
  intros Hp Hc.
  destruct (Re.drop_prefix (py "mailto:") (p ++ py "mailto:" ++ rest)) as [s'|] eqn:E;
    [|reflexivity].
  exfalso. apply drop_prefix_spec in E.
  destruct p as [|c1 [|c2 [|c3 [|c4 [|c5 [|c6 [|c7 p]]]]]]]; cbn in E;
    try congruence; try discriminate.
  injection E as -> -> -> -> -> -> -> _. cbn in Hc. discriminate.
Qed.

Lemma match_at_mailto_none s :
  Re.drop_prefix (py "mailto:") s = None -> Re.match_at re_mailto s = None.
Proof. intros H. unfold Re.match_at, re_mailto. cbn [Re.run]. rewrite H. reflexivity. Qed.

Lemma search_mailto_skip rest : forall pre,
  contains ":" pre = false ->
  Re.search re_mailto (pre ++ py "mailto:" ++ rest)
  = Re.search re_mailto (py "mailto:" ++ rest).
Proof.
  induction pre as [|c pre IH]; intros Hc; [reflexivity|].
  rewrite search_unfold.
  rewrite (match_at_mailto_none ((c :: pre) ++ py "mailto:" ++ rest)).
  - cbn [app]. apply IH. cbn in Hc. apply orb_false_elim in Hc. tauto.
  - apply mailto_not_inside; [discriminate | exact Hc].
Qed.

Lemma match_at_mailto addr post :
  addr <> [] -> forallb addr_char addr = true -> stops addr_char post ->
  Re.match_at re_mailto (py "mailto:" ++ addr ++ post)
  = Some {| Re.group0 := py "mailto:" ++ addr; Re.group1 := Some addr |}.
Proof.
  intros Hne Ha Hp. destruct addr as [|c addr]; [congruence|].
  cbn in Ha. apply andb_prop in Ha. destruct Ha as [Hc Ha].
  unfold Re.match_at, re_mailto. cbn [Re.run].
  replace (Re.drop_prefix (py "mailto:") (py "mailto:" ++ (c :: addr) ++ post))
    with (Some ((c :: addr) ++ post)) by reflexivity.
  cbn [app]. rewrite Hc.
  erewrite star_cls_longest; [|exact Hp | exact Ha | reflexivity].
  f_equal. f_equal.
  - apply (firstn_prefix (py "mailto:" ++ c :: addr) post).
    rewrite <- app_assoc. reflexivity.
  - f_equal. apply (firstn_prefix (c :: addr) post). reflexivity.
Qed.

Lemma strip_nonempty raw : strip raw <> [] -> nonempty raw = true.
Proof. destruct raw; [intros H; exfalso; apply H; reflexivity | reflexivity]. Qed.

Lemma strip_of_class (P : ascii -> bool) g :
  (forall c, P c = true -> isspace c = false) -> forallb P g = true -> strip g = g.
Proof.
  intros HP Hg. destruct (clean_of_Forall P g HP (Forall_of_forallb _ _ Hg)) as [C1 C2].
  apply strip_id; assumption.
Qed.

Lemma extract_email_mail_link raw pre addr post :
  strip raw = pre ++ py "mailto:" ++ addr ++ post ->
  contains ":" pre = false ->
  addr <> [] -> forallb addr_char addr = true -> stops addr_char post ->
  extract_email raw = Some (lower addr).
Proof.
  intros Hs Hpre Hne Ha Hp.
  unfold extract_email. rewrite strip_nonempty.
  2:{ rewrite Hs. destruct pre; discriminate. }
  cbn [negb]. rewrite Hs, (search_mailto_skip _ pre Hpre), search_unfold.
  rewrite (match_at_mailto addr post Hne Ha Hp).
  unfold the_group1. cbn [Re.group1].
  rewrite (strip_of_class addr_char addr addr_char_not_space Ha). reflexivity.
Qed.

(** ** The bare address *)

Section RunFacts.
Context {A : Type}.

Lemma run_plus_longest cls g m rest (K : option pystr -> pystr -> option A) x :
  m <> [] -> forallb cls m = true -> stops cls rest -> K g rest = Some x ->
  Re.run (Re.Plus cls) g (m ++ rest) K = Some x.
Proof.
  intros Hne Hm Hr Hk. destruct m as [|c m]; [congruence|].
  cbn in Hm. apply andb_prop in Hm. destruct Hm as [Hc Hm].
  cbn [Re.run app]. rewrite Hc. apply star_cls_longest; assumption.
Qed.

Lemma run_plus_giveback cls g a b rest (K : option pystr -> pystr -> option A) x :
  a <> [] -> forallb cls a = true -> forallb cls b = true -> stops cls rest ->
  (forall b1 b2, b = b1 ++ b2 -> b1 <> [] -> K g (b2 ++ rest) = None) ->
  K g (b ++ rest) = Some x ->
  Re.run (Re.Plus cls) g (a ++ b ++ rest) K = Some x.
Proof.
  intros Hne Ha Hb Hr Hfail Hk. destruct a as [|c a]; [congruence|].
  cbn in Ha. apply andb_prop in Ha. destruct Ha as [Hc Ha].
  cbn [Re.run app]. rewrite Hc. apply star_cls_prefix; [exact Ha|].
  apply star_cls_giveback; assumption.
Qed.

Lemma run_lit l g s (K : option pystr -> pystr -> option A) :
  Re.run (Re.Lit l) g (l ++ s) K = K g s.
Proof.
  cbn [Re.run]. replace (Re.drop_prefix l (l ++ s)) with (Some s); [reflexivity|].
  symmetry. apply drop_prefix_spec. reflexivity.
Qed.

Lemma run_dot_fail g s (K : option pystr -> pystr -> option A) r :
  match s with [] => True | c :: _ => Ascii.eqb "." c = false end ->
  Re.run (Re.Cat (Re.Lit (py ".")) r) g s K = None.
Proof. destruct s as [|c s]; cbn; [reflexivity|]. intros ->. reflexivity. Qed.

End RunFacts.

Lemma isword_domain c : isword c = true -> domain_char c = true.
Proof. unfold domain_char. intros ->. reflexivity. Qed.

Lemma isword_local c : isword c = true -> local_char c = true.
Proof. unfold local_char. intros ->. reflexivity. Qed.

Lemma domain_local c : domain_char c = true -> local_char c = true.
Proof. all_chars c. Qed.

Lemma isword_not_dot c : isword c = true -> Ascii.eqb "." c = false.
Proof. all_chars c. Qed.

Lemma not_domain_not_dot c : domain_char c = false -> Ascii.eqb "." c = false.
Proof. all_chars c. Qed.

Lemma not_domain_not_word c : domain_char c = false -> isword c = false.
Proof. all_chars c. Qed.

Lemma forallb_impl {A} (p q : A -> bool) l :
  (forall c, p c = true -> q c = true) -> forallb p l = true -> forallb q l = true.
Proof. rewrite !forallb_forall. auto. Qed.

Lemma stops_impl (p q : ascii -> bool) rest :
  (forall c, p c = false -> q c = false) -> stops p rest -> stops q rest.
Proof. destruct rest; simpl; auto. Qed.

Lemma run_cat {A} r1 r2 g s (K : option pystr -> pystr -> option A) :
  Re.run (Re.Cat r1 r2) g s K = Re.run r1 g s (fun g' s' => Re.run r2 g' s' K).
Proof. reflexivity. Qed.

Lemma match_at_plain l d t post :
  l <> [] -> forallb local_char l = true ->
  d <> [] -> forallb domain_char d = true ->
  t <> [] -> forallb isword t = true ->
  stops domain_char post ->
  Re.match_at re_plain (l ++ py "@" ++ d ++ py "." ++ t ++ post)
  = Some {| Re.group0 := l ++ py "@" ++ d ++ py "." ++ t; Re.group1 := None |}.
Proof.
  intros Hl Fl Hd Fd Ht Ft Hp.
  unfold Re.match_at, re_plain. rewrite run_cat.
  apply run_plus_longest; [exact Hl | exact Fl | reflexivity |].
  cbv beta. rewrite run_cat, run_lit. cbv beta. rewrite run_cat.
  apply (run_plus_giveback domain_char None d (py "." ++ t) post);
    [exact Hd | exact Fd | | exact Hp | |].
  - cbn [forallb app py list_ascii_of_string]. apply (forallb_impl _ _ _ isword_domain Ft).
  - intros b1 b2 E Hb1. cbv beta. apply run_dot_fail.
    destruct b1 as [|c1 b1]; [congruence|]. cbn in E. injection E as _ E. subst t.
    destruct b2 as [|c b2].
    + simpl. destruct post as [|c post]; [exact I|]. apply not_domain_not_dot, Hp.
    + simpl. apply isword_not_dot. rewrite forallb_app in Ft.
      apply andb_prop in Ft. destruct Ft as [_ Ft]. simpl in Ft.
      apply andb_prop in Ft. tauto.
  - cbv beta. rewrite <- app_assoc. rewrite run_cat, run_lit.
    apply run_plus_longest;
      [exact Ht | exact Ft | exact (stops_impl _ _ _ not_domain_not_word Hp) |].
    f_equal. f_equal.
    apply (firstn_prefix (l ++ py "@" ++ d ++ py "." ++ t) post).
    rewrite <- !app_assoc. reflexivity.
Qed.

Lemma contains_In c s : contains c s = true <-> In c s.
Proof.
  unfold contains. rewrite existsb_exists. split.
  - intros (x & Hx & E). apply Ascii.eqb_eq in E. subst. exact Hx.
  - intros H. exists c. split; [exact H | apply Ascii.eqb_refl].
Qed.

Lemma contains_false c s : contains c s = false <-> ~ In c s.
Proof.
  rewrite <- contains_In. destruct (contains c s); split; congruence.
Qed.

Lemma stops_rev_last cls q z : stops cls (rev (q ++ [z])) -> cls z = false.
Proof. rewrite rev_app_distr. simpl. auto. Qed.

Lemma stops_rev_tail cls c p : stops cls (rev (c :: p)) -> stops cls (rev p).
Proof.
  destruct p as [|x p] using rev_ind; [intros _; exact I|].
  rewrite app_comm_cons, !rev_app_distr. simpl. auto.
Qed.

Lemma plain_match_shape m :
  Re.matches re_plain m ->
  exists l d t, m = l ++ py "@" ++ d ++ py "." ++ t /\
                l <> [] /\ forallb local_char l = true /\
                d <> [] /\ forallb domain_char d = true /\
                t <> [] /\ forallb isword t = true.
Proof.
  unfold re_plain. intros H.
  inversion H as [| |? ? l x Hl Hx|]; subst; clear H.
  inversion Hx as [| |? ? a y Ha Hy|]; subst; clear Hx.
  inversion Hy as [| |? ? d z Hd Hz|]; subst; clear Hy.
  inversion Hz as [| |? ? p t Hp Ht|]; subst; clear Hz.
  inversion Hl as [|? ? Hne HF| |]; subst; clear Hl.
  inversion Hd as [|? ? Hne2 HF2| |]; subst; clear Hd.
  inversion Ht as [|? ? Hne' HF'| |]; subst; clear Ht.
  inversion Ha; subst. inversion Hp; subst.
  exists l, d, t. repeat split; auto using forallb_of_Forall.
Qed.

Lemma match_at_plain_not_before p rest :
  p <> [] -> contains "@" p = false -> stops local_char (rev p) ->
  Re.match_at re_plain (p ++ rest) = None.
Proof.
  intros Hne Hat Hend.
  destruct (Re.match_at re_plain (p ++ rest)) as [mo|] eqn:E; [exfalso | reflexivity].
  apply match_at_sound in E. destruct E as (post' & Es & Hm).
  apply plain_match_shape in Hm.
  destruct Hm as (l & d & t & Em & Hl & Fl & _). rewrite Em in Es. clear Em.
  destruct p as [|z q _] using rev_ind; [congruence|].
  apply stops_rev_last in Hend.
  rewrite <- (app_assoc l) in Es.
  apply app_eq_app in Es. destruct Es as (x & [[E1 E2] | [E1 E2]]).
  - destruct x as [|c x].
    + rewrite app_nil_r in E1.
      assert (Hz : local_char z = true).
      { rewrite forallb_forall in Fl. apply Fl. rewrite <- E1. apply in_or_app.
        right. left. reflexivity. }
      congruence.
    + cbn in E2. injection E2 as <- _.
      apply contains_false in Hat. apply Hat. rewrite E1. apply in_or_app. right.
      left. reflexivity.
  - assert (Hz : local_char z = true).
    { rewrite forallb_forall in Fl. apply Fl. rewrite E1. apply in_or_app. left.
      apply in_or_app. right. left. reflexivity. }
    congruence.
Qed.

Lemma search_plain_skip rest : forall pre,
  contains "@" pre = false -> stops local_char (rev pre) ->
  Re.search re_plain (pre ++ rest) = Re.search re_plain rest.
Proof.
  induction pre as [|c pre IH]; intros Hat Hend; [reflexivity|].
  rewrite search_unfold.
  rewrite (match_at_plain_not_before (c :: pre) rest); [|discriminate | exact Hat | exact Hend].
  cbn [app]. apply IH.
  - cbn in Hat. apply orb_false_elim in Hat. tauto.
  - exact (stops_rev_tail _ _ _ Hend).
Qed.

Lemma search_mailto_no_colon : forall s,
  contains ":" s = false -> Re.search re_mailto s = None.
Proof.
  induction s as [|c s IH]; intros H; [reflexivity|].
  rewrite search_unfold, match_at_mailto_none.
  - apply IH. cbn in H. apply orb_false_elim in H. tauto.
  - destruct (Re.drop_prefix (py "mailto:") (c :: s)) as [s'|] eqn:E; [|reflexivity].
    apply drop_prefix_spec in E. rewrite E in H. cbn in H. discriminate.
Qed.

Lemma class_no_char (P : ascii -> bool) x s :
  P x = false -> forallb P s = true -> contains x s = false.
Proof.
  intros Hx Hs. apply contains_false. intros Hin.
  rewrite forallb_forall in Hs. rewrite (Hs x Hin) in Hx. discriminate.
Qed.

Lemma extract_email_bare_address raw pre l d t post :
  strip raw = pre ++ l ++ py "@" ++ d ++ py "." ++ t ++ post ->
  contains "@" pre = false -> stops local_char (rev pre) ->
  l <> [] -> forallb local_char l = true ->
  d <> [] -> forallb domain_char d = true ->
  t <> [] -> forallb isword t = true ->
  stops domain_char post ->
  contains ":" pre = false -> contains ":" post = false ->
  extract_email raw = Some (lower (l ++ py "@" ++ d ++ py "." ++ t)).
Proof.
  intros Hs Hat Hend Hl Fl Hd Fd Ht Ft Hp Hc1 Hc2.
  unfold extract_email. rewrite strip_nonempty.
  2:{ rewrite Hs. destruct pre; [destruct l; [congruence | discriminate] | discriminate]. }
  cbn [negb]. rewrite Hs.
  rewrite search_mailto_no_colon.
  2:{ rewrite !contains_app, Hc1, Hc2.
      rewrite (class_no_char local_char ":" l eq_refl Fl).
      rewrite (class_no_char domain_char ":" d eq_refl Fd).
      rewrite (class_no_char isword ":" t eq_refl Ft). reflexivity. }
  rewrite (search_plain_skip _ pre Hat Hend), search_unfold.
  rewrite (match_at_plain l d t post Hl Fl Hd Fd Ht Ft Hp). cbn [Re.group0].
  rewrite (strip_id (l ++ py "@" ++ d ++ py "." ++ t)); [reflexivity | |].
  - destruct l as [|c l]; [congruence|]. simpl. apply local_char_not_space.
    cbn in Fl. apply andb_prop in Fl. tauto.
  - rewrite !rev_app_distr, <- !app_assoc.
    destruct t as [|c t _] using rev_ind; [congruence|].
    rewrite rev_app_distr. simpl. apply isword_not_space.
    rewrite forallb_app in Ft. apply andb_prop in Ft. destruct Ft as [_ Ft].
    simpl in Ft. apply andb_prop in Ft. tauto.
Qed.

(** ** What a result looks like *)

Lemma addr_char_lower c : addr_char (lower_char c) = addr_char c.
Proof. all_chars c. Qed.

Lemma local_addr c : local_char c = true -> addr_char c = true.
Proof. all_chars c. Qed.

Lemma forallb_lower (P : ascii -> bool) s :
  (forall c, P (lower_char c) = P c) -> forallb P (lower s) = forallb P s.
Proof.
  intros HP. unfold lower. induction s as [|c s IH]; [reflexivity|].
  simpl. rewrite HP, IH. reflexivity.
Qed.

Lemma In_lstrip c s : In c (lstrip s) -> In c s.
Proof.
  destruct (lstrip_split s) as (p & E & _). intros H. rewrite E. apply in_or_app. tauto.
Qed.

Lemma In_strip c s : In c (strip s) -> In c s.
Proof.
  unfold strip, rstrip. intros H.
  apply In_lstrip. apply in_rev in H. apply In_lstrip in H. apply in_rev in H. exact H.
Qed.

Lemma contains_strip c s : contains c s = false -> contains c (strip s) = false.
Proof. rewrite !contains_false. intros H Hin. apply H, In_strip, Hin. Qed.

(** Every outcome of [extract_email]. *)
Lemma extract_email_cases raw e :
  extract_email raw = Some e ->
  (exists g, g <> [] /\ forallb addr_char g = true /\ e = lower g /\
             exists pre post, strip raw = pre ++ py "mailto:" ++ g ++ post) \/
  (Re.search re_mailto (strip raw) = None /\
   exists l d t, e = lower (l ++ py "@" ++ d ++ py "." ++ t) /\
                 l <> [] /\ forallb local_char l = true /\
                 d <> [] /\ forallb domain_char d = true /\
                 t <> [] /\ forallb isword t = true /\
                 exists pre post, strip raw = pre ++ (l ++ py "@" ++ d ++ py "." ++ t) ++ post).
Proof.
  unfold extract_email. destruct (nonempty raw); cbn [negb]; [|discriminate].
  destruct (Re.search re_mailto (strip raw)) as [mo|] eqn:E.
  - intros [= <-]. left.
    pose proof (search_sound _ _ _ E) as (pre & post & Es & _).
    apply mailto_search in E. destruct E as (g & Hg1 & Hg0 & Hne & HF).
    exists g. split; [exact Hne|]. split; [exact (forallb_of_Forall _ _ HF)|].
    unfold the_group1. rewrite Hg1.
    rewrite (strip_of_class addr_char g addr_char_not_space (forallb_of_Forall _ _ HF)).
    split; [reflexivity|]. exists pre, post. rewrite Es, Hg0, <- app_assoc. reflexivity.
  - destruct (Re.search re_plain (strip raw)) as [mo|] eqn:E2; [|discriminate].
    intros [= <-]. right. split; [reflexivity|].
    apply search_sound in E2. destruct E2 as (pre & post & Es & Hm).
    destruct (plain_match_clean _ Hm) as (_ & C1 & C2).
    rewrite (strip_id _ C1 C2).
    destruct (plain_match_shape _ Hm) as (l & d & t & Em & H).
    exists l, d, t. rewrite Em in *. split; [reflexivity|].
    repeat (split; [tauto|]). exists pre, post. exact Es.
Qed.

Lemma extract_email_alphabet raw e :
  extract_email raw = Some e -> forallb addr_char e = true.
Proof.
  intros H. apply extract_email_cases in H.
  destruct H as [(g & _ & Hg & -> & _) | (_ & l & d & t & -> & _ & Fl & _ & Fd & _ & Ft & _)].
  - rewrite (forallb_lower _ _ addr_char_lower). exact Hg.
  - rewrite (forallb_lower _ _ addr_char_lower), !forallb_app.
    rewrite (forallb_impl _ _ _ local_addr Fl).
    rewrite (forallb_impl _ _ _ (fun c H => local_addr c (domain_local c H)) Fd).
    rewrite (forallb_impl _ _ _ (fun c H => local_addr c (isword_local c H)) Ft).
    reflexivity.
Qed.

Lemma filter_class_nil (P : ascii -> bool) x s :
  P x = false -> forallb P s = true -> filter (Ascii.eqb x) s = [].
Proof.
  intros Hx. induction s as [|c s IH]; [reflexivity|].
  simpl. intros H. apply andb_prop in H. destruct H as [Hc Hs].
  destruct (Ascii.eqb x c) eqn:E; [|exact (IH Hs)].
  apply Ascii.eqb_eq in E. congruence.
Qed.

Lemma shape_one_at l d t :
  forallb local_char l = true -> forallb domain_char d = true -> forallb isword t = true ->
  length (filter (Ascii.eqb "@") (l ++ py "@" ++ d ++ py "." ++ t)) = 1.
Proof.
  intros Fl Fd Ft. rewrite !filter_app.
  rewrite (filter_class_nil local_char "@" l eq_refl Fl).
  rewrite (filter_class_nil domain_char "@" d eq_refl Fd).
  rewrite (filter_class_nil isword "@" t eq_refl Ft). reflexivity.
Qed.

(** ** What is never an address *)

Lemma search_plain_no_at s : contains "@" s = false -> Re.search re_plain s = None.
Proof.
  intros H. destruct (Re.search re_plain s) as [mo|] eqn:E; [exfalso | reflexivity].
  apply search_sound in E. destruct E as (pre & post & Es & Hm).
  apply plain_match_shape in Hm. destruct Hm as (l & d & t & Em & _).
  rewrite Em in Es. rewrite Es in H. rewrite !contains_app in H. cbn in H.
  rewrite !orb_true_r in H. discriminate.
Qed.

Lemma extract_email_needs_at_or_colon raw :
  contains "@" raw = false -> contains ":" raw = false -> extract_email raw = None.
Proof.
  intros Hat Hc. unfold extract_email. destruct (nonempty raw); [|reflexivity]. cbn [negb].
  rewrite (search_mailto_no_colon _ (contains_strip _ _ Hc)).
  rewrite (search_plain_no_at _ (contains_strip _ _ Hat)). reflexivity.
Qed.

Lemma string_of_uint_digits d :
  forallb sign_or_digit (list_ascii_of_string (NilEmpty.string_of_uint d)) = true.
Proof. induction d; simpl; auto. Qed.

Lemma str_of_Z_digits z : forallb sign_or_digit (str_of_Z z) = true.
Proof.
  unfold str_of_Z, py, NilZero.string_of_int, NilZero.string_of_uint.
  destruct (Z.to_int z) as [d|d].
  - destruct d; try reflexivity; apply (string_of_uint_digits (_ d)).
  - cbn [list_ascii_of_string forallb]. rewrite andb_true_l.
    destruct d; try reflexivity; apply (string_of_uint_digits (_ d)).
Qed.

(** ** Numbers are never addresses *)

Lemma extract_email_number z : extract_email (str_of_Z z) = None.
Proof.
  apply extract_email_needs_at_or_colon;
    apply (class_no_char sign_or_digit); try reflexivity; apply str_of_Z_digits.
Qed.

Lemma sign_or_digit_not_space c : sign_or_digit c = true -> isspace c = false.
Proof. all_chars c. Qed.

Lemma string_of_uint_isdigit d :
  forallb isdigit_char (list_ascii_of_string (NilEmpty.string_of_uint d)) = true.
Proof. induction d; simpl; auto. Qed.

Lemma isdigit_str_of_Z z : (0 <= z)%Z -> isdigit (str_of_Z z) = true.
Proof.
  intros Hz. unfold str_of_Z, py, NilZero.string_of_int, NilZero.string_of_uint.
  destruct z as [|p|p]; [reflexivity | | lia].
  cbn [Z.to_int].
  pose proof (string_of_uint_isdigit (Pos.to_uint p)) as H.
  destruct (Pos.to_uint p) eqn:E; try reflexivity; exact H.
Qed.

Lemma scan_cells_number company z rest last_name contacts :
  (0 <= z)%Z ->
  scan_cells company (CInt z :: rest) last_name contacts
  = scan_cells company rest last_name contacts.
Proof.
  intros Hz. cbn [scan_cells py_str].
  rewrite (strip_of_class sign_or_digit _ sign_or_digit_not_space (str_of_Z_digits z)).
  rewrite extract_email_number, (isdigit_str_of_Z z Hz). reflexivity.
Qed.

(** ** The readers *)

Lemma open_sheet_run w i tr :
  open_sheet w i tr =
  if negb (w_excel_exists w) then (tr ++ [excel_missing w], Exit 1)
  else (tr ++ [LoadWorkbook (w_excel_path w)],
        match w_load_workbook w with
        | inl e => Raise e
        | inr worksheets =>
            match nth_error worksheets i with
            | Some ws => Val ws
            | None => Raise index_error
            end
        end).
Proof.
  unfold open_sheet, excel_missing, when, eprint, bind, emit, sys_exit, ret, raise.
  destruct (w_excel_exists w); cbn [negb]; [|reflexivity].
  destruct (w_load_workbook w) as [e|wss]; [reflexivity|].
  destruct (nth_error wss i); reflexivity.
Qed.

Lemma fold_rows_all_rows body f :
  (forall values contacts, body values contacts = option_map (app contacts) (f values)) ->
  forall rows contacts,
    fold_rows body rows contacts = option_map (app contacts) (all_rows f rows).
Proof.
  intros Hb. induction rows as [|values rows IH]; intros contacts.
  - simpl. rewrite app_nil_r. reflexivity.
  - simpl. rewrite Hb. destruct (f values) as [here|]; simpl; [|reflexivity].
    rewrite IH. destruct (all_rows f rows) as [later|]; simpl; [|reflexivity].
    rewrite app_assoc. reflexivity.
Qed.

Lemma fixed_row_refines values contacts :
  read_contacts_row values contacts = option_map (app contacts) (fixed_row values).
Proof.
  rewrite read_contacts_row_spec. unfold fixed_row.
  destruct (nth_error values 0), (nth_error values 1), (nth_error values 4); try reflexivity.
  destruct (cell_email _); simpl; [reflexivity | rewrite app_nil_r; reflexivity].
Qed.

(** A reader: open the worksheet, loop over the rows chosen. *)
Lemma reader_run body f (rows_of : sheet -> list (list cell)) w i tr :
  (forall values contacts, body values contacts = option_map (app contacts) (f values)) ->
  (ws <- open_sheet w i ;; for_rows body (rows_of ws) []) tr =
  if negb (w_excel_exists w) then (tr ++ [excel_missing w], Exit 1)
  else (tr ++ [LoadWorkbook (w_excel_path w)],
        match w_load_workbook w with
        | inl e => Raise e
        | inr worksheets =>
            match nth_error worksheets i with
            | Some ws =>
                match all_rows f (rows_of ws) with
                | Some cs => Val cs
                | None => Raise index_error
                end
            | None => Raise index_error
            end
        end).
Proof.
  intros Hb. unfold bind at 1. rewrite open_sheet_run.
  destruct (w_excel_exists w); cbn [negb]; [|reflexivity].
  destruct (w_load_workbook w) as [e|wss]; [reflexivity|].
  destruct (nth_error wss i) as [ws|]; [|reflexivity].
  rewrite for_rows_run, (fold_rows_all_rows body f Hb).
  destruct (all_rows f (rows_of ws)); reflexivity.
Qed.

Lemma read_contacts_run w i tr :
  read_contacts w i tr =
  if negb (w_excel_exists w) then (tr ++ [excel_missing w], Exit 1)
  else (tr ++ [LoadWorkbook (w_excel_path w)],
        match w_load_workbook w with
        | inl e => Raise e
        | inr worksheets =>
            match nth_error worksheets i with
            | Some ws =>
                match all_rows fixed_row (skipn 1 ws) with
                | Some cs => Val cs
                | None => Raise index_error
                end
            | None => Raise index_error
            end
        end).
Proof. apply (reader_run _ _ (skipn 1)), fixed_row_refines. Qed.

Lemma read_contacts_sheet2_run w i tr :
  read_contacts_sheet2 w i tr =
  if negb (w_excel_exists w) then (tr ++ [excel_missing w], Exit 1)
  else (tr ++ [LoadWorkbook (w_excel_path w)],
        match w_load_workbook w with
        | inl e => Raise e
        | inr worksheets =>
            match nth_error worksheets i with
            | Some ws =>
                match all_rows scan_pair_row (skipn 1 ws) with
                | Some cs => Val cs
                | None => Raise index_error
                end
            | None => Raise index_error
            end
        end).
Proof. apply (reader_run _ _ (skipn 1)), sheet2_row_refines. Qed.

Lemma read_contacts_sheet4_run w tr :
  read_contacts_sheet4 w tr =
  if negb (w_excel_exists w) then (tr ++ [excel_missing w], Exit 1)
  else (tr ++ [LoadWorkbook (w_excel_path w)],
        match w_load_workbook w with
        | inl e => Raise e
        | inr worksheets =>
            match nth_error worksheets 5 with
            | Some ws =>
                match all_rows triplet_row ws with
                | Some cs => Val cs
                | None => Raise index_error
                end
            | None => Raise index_error
            end
        end).
Proof. apply (reader_run _ _ (fun ws => ws)), sheet4_row_refines. Qed.

Lemma all_rows_none f rows :
  all_rows f rows = None <-> Exists (fun values => f values = None) rows.
Proof.
  induction rows as [|values rows IH]; simpl.
  - split; [discriminate | intros H; inversion H].
  - rewrite Exists_cons, <- IH.
    destruct (f values); [|tauto].
    destruct (all_rows f rows); split; try tauto; try discriminate.
    intros [H|H]; discriminate.
Qed.

Lemma fixed_row_none values : fixed_row values = None <-> length values < 5.
Proof.
  unfold fixed_row.
  destruct values as [|v0 [|v1 [|v2 [|v3 [|v4 rest]]]]]; simpl; split;
    try reflexivity; try lia; discriminate.
Qed.

Lemma scan_pair_row_none values : scan_pair_row values = None <-> length values < 2.
Proof.
  destruct values as [|v0 [|v1 rest]]; simpl; split; try reflexivity; try lia; discriminate.
Qed.

Lemma triplet_row_none values : triplet_row values = None <-> values = [].
Proof. destruct values; simpl; split; try reflexivity; discriminate. Qed.

Lemma Exists_iff {A} (P Q : A -> Prop) l :
  (forall x, P x <-> Q x) -> Exists P l <-> Exists Q l.
Proof. intros H. rewrite !Exists_exists. split; intros (x & Hx & Hp); exists x; firstorder. Qed.

(* where the contacts of a worksheet come from *)

Lemma all_rows_in f rows cs c :
  all_rows f rows = Some cs -> In c cs ->
  exists values here, In values rows /\ f values = Some here /\ In c here.
Proof.
  revert cs. induction rows as [|values rows IH]; intros cs; simpl.
  - intros [= <-] [].
  - destruct (f values) as [here|] eqn:Ef; [|discriminate].
    destruct (all_rows f rows) as [later|]; [|discriminate].
    intros [= <-] Hin. apply in_app_or in Hin. destruct Hin as [Hin|Hin].
    + exists values, here. auto.
    + destruct (IH later eq_refl Hin) as (v & h & Hv & Hf & Hc).
      exists v, h. auto.
Qed.

Lemma In_skipn {A} (x : A) n l : In x (skipn n l) -> In x l.
Proof.
  revert l. induction n as [|n IH]; intros l; [auto|].
  destruct l; simpl; auto.
Qed.

(** ** The composed message *)

Lemma of_latin1_inj a b : of_latin1 a = of_latin1 b -> a = b.
Proof.
  unfold of_latin1. revert b. induction a as [|x a IH]; intros [|y b]; simpl;
    try discriminate; [reflexivity|].
  intros [= Hxy Hab]. f_equal; [|exact (IH _ Hab)].
  rewrite <- (ascii_N_embedding x), <- (ascii_N_embedding y), Hxy. reflexivity.
Qed.

Lemma build_subject_inj a b : build_subject a = build_subject b -> a = b.
Proof.
  unfold build_subject. intros H. apply app_inv_head in H. apply app_inv_tail in H. exact H.
Qed.

Lemma build_email_body_inj_name n1 n2 company :
  build_email_body n1 company = build_email_body n2 company -> n1 = n2.
Proof.
  unfold build_email_body. intros H. apply app_inv_head in H. apply app_inv_tail in H.
  exact H.
Qed.

Lemma compose_fields c :
  msg_to (compose c) = of_latin1 (email c) /\
  msg_subject (compose c) = build_subject (of_latin1 (company c)) /\
  msg_body (compose c) = build_email_body (of_latin1 (name c)) (of_latin1 (company c)).
Proof. repeat split. Qed.

Lemma compose_inj c1 c2 : compose c1 = compose c2 -> c1 = c2.
Proof.
  intros H.
  destruct (compose_fields c1) as (T1 & S1 & B1).
  destruct (compose_fields c2) as (T2 & S2 & B2).
  rewrite H in T1, S1, B1. rewrite T2 in T1. rewrite S2 in S1. rewrite B2 in B1.
  clear H T2 S2 B2.
  destruct c1 as [co1 n1 e1], c2 as [co2 n2 e2]. cbn [company name email] in *.
  apply of_latin1_inj in T1. apply build_subject_inj, of_latin1_inj in S1. subst.
  apply build_email_body_inj_name, of_latin1_inj in B1. subst. reflexivity.
Qed.

Lemma test_contact_is_sender : msg_to (compose test_contact) = SENDER_EMAIL.
Proof. vm_compute. reflexivity. Qed.

Local Opaque u.

Lemma events_assoc (a b c : list event) : a ++ b ++ c = (a ++ b) ++ c.
Proof. apply app_assoc. Qed.

(** ** Sessions *)

Lemma session_run {A} w h p user pw (rest : M A) tr evs r :
  rest (tr ++ [SmtpConnect h p; SmtpStartTLS; SmtpLogin user pw])
  = ((tr ++ [SmtpConnect h p; SmtpStartTLS; SmtpLogin user pw]) ++ evs, r) ->
  with_smtp w h p (starttls w ;; login w user pw ;; rest) tr
  = (tr ++ session w h p user pw evs,
     match session_error w with
     | Some e => Raise e
     | None => r
     end).
Proof.
  intros Hrest.
  unfold with_smtp, starttls, login, finally, session, session_error.
  unfold bind, check, emit, ret, raise.
  destruct (w_smtp_connect w); [reflexivity|].
  rewrite <- ?events_assoc. cbn [app].
  destruct (w_smtp_starttls w); [rewrite <- ?events_assoc; reflexivity|].
  rewrite <- ?events_assoc. cbn [app].
  destruct (w_smtp_login w); [rewrite <- ?events_assoc; reflexivity|].
  rewrite <- ?events_assoc. cbn [app].
  rewrite Hrest. destruct r; rewrite <- ?events_assoc; reflexivity.
Qed.

Lemma smtp_run_app a : forall st b,
  smtp_run st (a ++ b) = match smtp_run st a with
                         | Some st' => smtp_run st' b
                         | None => None
                         end.
Proof.
  induction a as [|e a IH]; intros st b; [reflexivity|].
  simpl. destruct (smtp_step st e); [apply IH | reflexivity].
Qed.

Lemma smtp_run_quiet evs : forall st,
  existsb is_smtp evs = false -> smtp_run st evs = Some st.
Proof.
  induction evs as [|e evs IH]; intros st H; [reflexivity|].
  simpl in H. apply orb_false_elim in H. destruct H as [He H].
  simpl. destruct e; try discriminate; simpl; apply IH, H.
Qed.


Lemma smtp_run_body evs :
  forallb body_event evs = true -> smtp_run Authenticated evs = Some Authenticated.
Proof.
  induction evs as [|e evs IH]; intros H; [reflexivity|].
  simpl in H. apply andb_prop in H. destruct H as [He H].
  simpl. destruct e; try discriminate; simpl; apply IH, H.
Qed.

Lemma smtp_run_session w h p user pw body :
  forallb body_event body = true ->
  smtp_run Closed (session w h p user pw body)
  = Some (match w_smtp_connect w with Some _ => Connected | None => Closed end).
Proof.
  intros Hb. unfold session.
  destruct (w_smtp_connect w); [reflexivity|].
  destruct (w_smtp_starttls w); [reflexivity|].
  destruct (w_smtp_login w); [reflexivity|].
  cbn [smtp_run smtp_step]. rewrite smtp_run_app, (smtp_run_body _ Hb). reflexivity.
Qed.

Lemma attempt_body w c evs ok : attempt_events w c evs ok -> forallb body_event evs = true.
Proof. intros H. destruct H; reflexivity. Qed.

Lemma loop_body w total i cs evs s f :
  loop_events w total i cs evs s f -> forallb body_event evs = true.
Proof.
  induction 1 as [|i c rest evs ok tail s f Ha Hl IH]; [reflexivity|].
  cbn [forallb]. rewrite forallb_app, (attempt_body _ _ _ _ Ha). cbn [forallb].
  rewrite forallb_app, IH. unfold pause. destruct (i <? total), ok; reflexivity.
Qed.

Ltac norm_events := repeat (rewrite <- ?events_assoc; cbn [app]).

(** ** The test run *)




Lemma test_run_shape w pw tr :
  exists banner evs ok,
    forallb is_stdout banner = true /\
    attempt_events w test_contact evs ok /\
    test_run w pw tr =
    (tr ++ banner ++ ReadLine test_prompt ::
        match confirmed w with
        | None => []
        | Some false => [cancelled]
        | Some true =>
            connecting :: session w SMTP_SERVER SMTP_PORT SENDER_EMAIL (the pw)
                            (evs ++ [test_verdict ok])
        end,
     match confirmed w with
     | None => Raise eof_error
     | Some false => Exit 0
     | Some true =>
         match session_error w with
         | Some e => Raise e
         | None => Val tt
         end
     end).
Proof.
  destruct (send_cold_email_total w test_contact
              (tr ++ [Stdout (u "TEST MODE: Sending a test email to yourself" ++ nl);
                      Stdout ((u "  To:      " ++ of_latin1 (email test_contact)) ++ nl);
                      Stdout ((u "  Subject: "
                                 ++ build_subject (of_latin1 (company test_contact))) ++ nl);
                      Stdout ((u "  Resume:  " ++ RESUME_NAME) ++ nl);
                      Stdout nl; ReadLine test_prompt; connecting]
                  ++ [SmtpConnect SMTP_SERVER SMTP_PORT; SmtpStartTLS;
                      SmtpLogin SENDER_EMAIL (the pw)]))
    as (evs & ok & E & Ha).
  exists [Stdout (u "TEST MODE: Sending a test email to yourself" ++ nl);
          Stdout ((u "  To:      " ++ of_latin1 (email test_contact)) ++ nl);
          Stdout ((u "  Subject: "
                     ++ build_subject (of_latin1 (company test_contact))) ++ nl);
          Stdout ((u "  Resume:  " ++ RESUME_NAME) ++ nl);
          Stdout nl], evs, ok.
  split; [reflexivity|]. split; [exact Ha|].
  unfold test_run.
  unfold bind at 1. unfold print at 1, emit at 1.
  unfold bind at 1. unfold print at 1, emit at 1.
  unfold bind at 1. unfold print at 1, emit at 1.
  unfold bind at 1. unfold print at 1, emit at 1.
  unfold bind at 1. unfold print_blank at 1, emit at 1.
  unfold bind at 1. unfold input, confirmed.
  unfold bind at 1. unfold emit at 1.
  rewrite <- ?events_assoc. cbn [app].
  destruct (w_input w) as [answer|]; [|reflexivity].
  unfold ret at 1.
  unfold bind at 1. unfold when at 1.
  destruct (pystr_eqb (lower (strip answer)) (py "y")); cbn [negb];
    [|unfold bind, print, emit, sys_exit; rewrite <- ?events_assoc; reflexivity].
  unfold ret at 1.
  unfold bind at 1. unfold print at 1, emit at 1.
  unfold bind at 1.
  rewrite <- ?events_assoc. cbn [app].
  erewrite (session_run w SMTP_SERVER SMTP_PORT SENDER_EMAIL (the pw) _ _
              (evs ++ [test_verdict ok]) (Val tt)).
  - rewrite <- ?events_assoc. cbn [app].
    destruct (session_error w); reflexivity.
  - unfold bind at 1. rewrite <- ?events_assoc in E. cbn [app] in E.
    rewrite <- ?events_assoc. cbn [app].
    unfold test_prompt, connecting in E. rewrite E.
    destruct ok; unfold print, eprint, emit, test_verdict; rewrite <- ?events_assoc; reflexivity.
Qed.

(** ** The full run *)


Lemma preview_out : forall cs i tr,
  exists evs, forallb is_stdout evs = true /\ preview i cs tr = (tr ++ evs, Val tt).
Proof.
  induction cs as [|c rest IH]; intros i tr; simpl.
  - exists []. unfold ret. rewrite app_nil_r. auto.
  - unfold bind at 1. unfold print, emit.
    match goal with |- context [preview ?j ?l ?t] =>
      destruct (IH j t) as (evs & Hevs & E); rewrite E end.
    eexists (_ :: evs). rewrite <- (@app_assoc event). split; [|reflexivity].
    cbn [forallb is_stdout]. exact Hevs.
Qed.

Lemma full_run_stops w pw tr :
  (forall tr1 c, read_contacts_sheet2 w 4 tr = (tr1, Exit c) ->
                 full_run w pw tr = (tr1, Exit c)) /\
  (forall tr1 e, read_contacts_sheet2 w 4 tr = (tr1, Raise e) ->
                 full_run w pw tr = (tr1, Raise e)).
Proof. split; intros tr1 x H; unfold full_run; unfold bind at 1; rewrite H; reflexivity. Qed.

Lemma full_run_shape w pw tr tr1 cs :
  read_contacts_sheet2 w 4 tr = (tr1, Val cs) ->
  exists summary evs s f,
    forallb is_stdout summary = true /\
    send_all w (length cs) 1 cs 0 0
      (tr1 ++ summary ++ [ReadLine full_prompt; connecting;
                          SmtpConnect SMTP_SERVER SMTP_PORT; SmtpStartTLS;
                          SmtpLogin SENDER_EMAIL (the pw); connected])
    = ((tr1 ++ summary ++ [ReadLine full_prompt; connecting;
                           SmtpConnect SMTP_SERVER SMTP_PORT; SmtpStartTLS;
                           SmtpLogin SENDER_EMAIL (the pw); connected]) ++ evs,
       Val (s, f)) /\
    loop_events w (length cs) 1 cs evs s f /\
    full_run w pw tr =
    (tr1 ++ summary ++ ReadLine full_prompt ::
        match confirmed w with
        | None => []
        | Some false => [cancelled]
        | Some true =>
            connecting :: session w SMTP_SERVER SMTP_PORT SENDER_EMAIL (the pw)
                            (connected :: evs)
              ++ match session_error w with
                 | Some _ => []
                 | None => [done_line s f]
                 end
        end,
     match confirmed w with
     | None => Raise eof_error
     | Some false => Exit 0
     | Some true =>
         match session_error w with
         | Some e => Raise e
         | None => Val tt
         end
     end).
Proof.
  intros Hread.
  destruct (preview_out (firstn 5 cs) 1
              (tr1 ++ [Stdout ((u "Found " ++ text_of_nat (length cs)
                                  ++ u " contacts in Sheet 10." ++ nl) ++ nl);
                       Stdout (u "Preview (first 5):" ++ nl)]))
    as (pevs & Hp & Ep).
  rewrite <- ?events_assoc in Ep. cbn [app] in Ep.
  pose (more := if 5 <? length cs
                then [Stdout ((u "  ... and " ++ text_of_nat (length cs - 5)
                                 ++ u " more" ++ nl) ++ nl)]
                else []).
  pose (summary :=
         Stdout ((u "Found " ++ text_of_nat (length cs)
                    ++ u " contacts in Sheet 10." ++ nl) ++ nl)
           :: Stdout (u "Preview (first 5):" ++ nl)
           :: pevs
           ++ more
           ++ [Stdout ((u "From:    " ++ SENDER_EMAIL) ++ nl);
               Stdout ((u "Resume:  " ++ RESUME_NAME) ++ nl);
               Stdout ((u "Total:   " ++ text_of_nat (length cs) ++ u " emails") ++ nl);
               Stdout nl]).
  destruct (send_all_spec w (length cs) cs 1 0 0
              (tr1 ++ summary ++ [ReadLine full_prompt; connecting;
                                  SmtpConnect SMTP_SERVER SMTP_PORT; SmtpStartTLS;
                                  SmtpLogin SENDER_EMAIL (the pw); connected]))
    as (evs & s & f & Es & Hl).
  cbn [Nat.add] in Es.
  exists summary, evs, s, f.
  split.
  { unfold summary, more. cbn [forallb is_stdout andb]. rewrite !forallb_app, Hp.
    destruct (5 <? length cs); reflexivity. }
  split; [exact Es|]. split; [exact Hl|].
  unfold full_run. unfold bind at 1. rewrite Hread.
  unfold bind at 1. unfold print at 1, emit at 1.
  unfold bind at 1. unfold print at 1, emit at 1.
  unfold bind at 1. rewrite <- ?events_assoc. cbn [app].
  rewrite Ep.
  unfold bind at 1.
  assert (Hwhen : when (5 <? length cs)
                    (print (u "  ... and " ++ text_of_nat (length cs - 5) ++ u " more" ++ nl))
                    (tr1 ++ Stdout ((u "Found " ++ text_of_nat (length cs)
                                       ++ u " contacts in Sheet 10." ++ nl) ++ nl)
                         :: Stdout (u "Preview (first 5):" ++ nl) :: pevs)
                  = (tr1 ++ Stdout ((u "Found " ++ text_of_nat (length cs)
                                       ++ u " contacts in Sheet 10." ++ nl) ++ nl)
                         :: Stdout (u "Preview (first 5):" ++ nl) :: pevs ++ more,
                     Val tt)).
  { unfold when, more, print, emit, ret. destruct (5 <? length cs).
    - rewrite <- ?events_assoc. reflexivity.
    - rewrite app_nil_r. reflexivity. }
  rewrite Hwhen. clear Hwhen.
  unfold bind at 1. unfold print at 1, emit at 1.
  unfold bind at 1. unfold print at 1, emit at 1.
  unfold bind at 1. unfold print at 1, emit at 1.
  unfold bind at 1. unfold print_blank at 1, emit at 1.
  unfold bind at 1. unfold input, confirmed.
  unfold bind at 1. unfold emit at 1.
  unfold summary in Es |- *.
  repeat (rewrite <- ?events_assoc; cbn [app]).
  destruct (w_input w) as [answer|]; [|reflexivity].
  unfold ret at 1.
  unfold bind at 1. unfold when at 1.
  destruct (pystr_eqb (lower (strip answer)) (py "y")); cbn [negb];
    [|unfold bind, print, emit, sys_exit; norm_events; reflexivity].
  unfold ret at 1.
  unfold bind at 1. unfold print at 1, emit at 1.
  unfold bind at 1.
  rewrite <- ?events_assoc. cbn [app].
  erewrite (session_run w SMTP_SERVER SMTP_PORT SENDER_EMAIL (the pw) _ _
              (connected :: evs) (Val (s, f))).
  - norm_events.
    destruct (session_error w); [rewrite app_nil_r; reflexivity|].
    unfold print, emit. cbn [fst snd]. norm_events. reflexivity.
  - unfold bind at 1. unfold print at 1, emit at 1.
    unfold full_prompt, connecting, connected in Es.
    repeat (rewrite <- ?events_assoc in Es; cbn [app] in Es).
    repeat (rewrite <- ?events_assoc; cbn [app]).
    rewrite Es. reflexivity.
Qed.

Lemma bulk_main_run argv w tr :
  BulkEmail.main argv w tr =
  if negb (truthy_opt (w_getenv w "GMAIL_APP_PASSWORD_CODES04"))
  then (tr ++ [Stderr (u "Error: GMAIL_APP_PASSWORD not set in .env" ++ nl)], Exit 1)
  else if negb (w_resume_exists w) then (tr ++ [resume_missing w], Exit 1)
  else if member (py "--test") argv
       then test_run w (w_getenv w "GMAIL_APP_PASSWORD_CODES04") tr
       else full_run w (w_getenv w "GMAIL_APP_PASSWORD_CODES04") tr.
Proof.
  unfold BulkEmail.main. unfold bind at 1. unfold when at 1.
  destruct (truthy_opt (w_getenv w "GMAIL_APP_PASSWORD_CODES04")); cbn [negb];
    [|reflexivity].
  unfold ret at 1. unfold bind at 1. unfold when at 1.
  destruct (w_resume_exists w); cbn [negb]; [|reflexivity].
  unfold ret at 1. destruct (member (py "--test") argv); reflexivity.
Qed.

Lemma output_quiet (p : event -> bool) evs :
  (forall e, is_stdout e = true -> p e = false) ->
  forallb is_stdout evs = true -> existsb p evs = false /\ filter p evs = [].
Proof.
  intros Hp. induction evs as [|e evs IH]; intros H; [auto|].
  simpl in H. apply andb_prop in H. destruct H as [He H].
  destruct (IH H) as [I1 I2]. simpl. rewrite (Hp e He), I1, I2. auto.
Qed.

Lemma output_not_smtp e : is_stdout e = true -> is_smtp e = false.
Proof. destruct e; simpl; congruence. Qed.
Lemma output_not_network e : is_stdout e = true -> is_network e = false.
Proof. destruct e; simpl; congruence. Qed.
Lemma output_not_load e : is_stdout e = true -> is_load e = false.
Proof. destruct e; simpl; congruence. Qed.
Lemma output_not_send e : is_stdout e = true -> is_send e = false.
Proof. destruct e; simpl; congruence. Qed.
Lemma output_not_open e : is_stdout e = true -> is_open e = false.
Proof. destruct e; simpl; congruence. Qed.

(** How the reader of the full run ends. *)
Lemma full_reader_cases w tr :
  (exists cs, read_contacts_sheet2 w 4 tr = (tr ++ [LoadWorkbook (w_excel_path w)], Val cs)) \/
  (exists r, (forall cs, r <> Val cs) /\
             (read_contacts_sheet2 w 4 tr = (tr ++ [LoadWorkbook (w_excel_path w)], r) \/
              read_contacts_sheet2 w 4 tr = (tr ++ [excel_missing w], r))).
Proof.
  rewrite read_contacts_sheet2_run.
  destruct (w_excel_exists w); cbn [negb].
  - destruct (w_load_workbook w) as [e|wss].
    + right. exists (Raise e). split; [discriminate | auto].
    + destruct (nth_error wss 4) as [ws|].
      * destruct (all_rows scan_pair_row (skipn 1 ws)) as [cs|].
        -- left. exists cs. reflexivity.
        -- right. exists (Raise index_error). split; [discriminate | auto].
      * right. exists (Raise index_error). split; [discriminate | auto].
  - right. exists (Exit 1). split; [discriminate | auto].
Qed.

Lemma full_run_unread w pw tr tr1 r :
  (forall cs, r <> Val cs) -> read_contacts_sheet2 w 4 tr = (tr1, r) ->
  exists r', full_run w pw tr = (tr1, r').
Proof.
  intros Hr H. destruct (full_run_stops w pw tr) as [H1 H2].
  destruct r as [cs|c|e].
  - destruct (Hr cs eq_refl).
  - exists (Exit c). apply H1, H.
  - exists (Raise e). apply H2, H.
Qed.

(** ** The relay is contacted only after the operator's yes *)

Lemma bulk_relay_gate argv w :
  existsb is_smtp (fst (BulkEmail.main argv w [])) = true ->
  truthy_opt (w_getenv w "GMAIL_APP_PASSWORD_CODES04") = true /\
  w_resume_exists w = true /\
  confirmed w = Some true /\
  (member (py "--test") argv = false ->
   exists cs, snd (read_contacts_sheet2 w 4 []) = Val cs) /\
  exists before prompt after,
    fst (BulkEmail.main argv w []) = before ++ ReadLine prompt :: after /\
    existsb is_network before = false.
Proof.
  rewrite bulk_main_run.
  destruct (truthy_opt (w_getenv w "GMAIL_APP_PASSWORD_CODES04")); cbn [negb];
    [|intros H; discriminate H].
  destruct (w_resume_exists w); cbn [negb]; [|intros H; discriminate H].
  destruct (member (py "--test") argv).
  - destruct (test_run_shape w (w_getenv w "GMAIL_APP_PASSWORD_CODES04") [])
      as (banner & evs & ok & Hb & Ha & E).
    rewrite E. cbn [fst app].
    destruct (output_quiet is_smtp banner output_not_smtp Hb) as [Q1 _].
    destruct (output_quiet is_network banner output_not_network Hb) as [Q2 _].
    destruct (confirmed w) as [[|]|]; rewrite existsb_app, Q1; cbn [existsb is_smtp orb];
      intros H; try discriminate H.
    repeat (split; [reflexivity || (intros X; discriminate X)|]).
    eexists banner, _, _. split; [reflexivity | exact Q2].
  - destruct (full_reader_cases w []) as [(cs & Hr) | (r & Hr & [H|H])].
    + destruct (full_run_shape w (w_getenv w "GMAIL_APP_PASSWORD_CODES04") [] _ cs Hr)
        as (summary & evs & s & f & Hs & _ & _ & E).
      rewrite E, Hr. cbn [fst snd app].
      destruct (output_quiet is_smtp summary output_not_smtp Hs) as [Q1 _].
      destruct (output_quiet is_network summary output_not_network Hs) as [Q2 _].
      destruct (confirmed w) as [[|]|]; cbn [existsb is_smtp orb];
        rewrite existsb_app, Q1; cbn [existsb is_smtp orb];
        intros H; try discriminate H.
      repeat (split; [reflexivity|]).
      split; [intros _; exists cs; reflexivity|].
      exists (LoadWorkbook (w_excel_path w) :: summary). eexists _, _.
      split; [reflexivity|]. cbn [existsb is_network orb]. exact Q2.
    + destruct (full_run_unread w (w_getenv w "GMAIL_APP_PASSWORD_CODES04") [] _ r Hr H)
        as (r' & E).
      rewrite E. intros X. discriminate X.
    + destruct (full_run_unread w (w_getenv w "GMAIL_APP_PASSWORD_CODES04") [] _ r Hr H)
        as (r' & E).
      rewrite E. intros X. discriminate X.
Qed.

(** ** The test mode *)

Lemma bulk_test_mode argv w :
  member (py "--test") argv = true ->
  existsb is_load (fst (BulkEmail.main argv w [])) = false /\
  existsb is_sleep (fst (BulkEmail.main argv w [])) = false /\
  (filter is_send (fst (BulkEmail.main argv w [])) = [] \/
   filter is_send (fst (BulkEmail.main argv w []))
   = [SmtpSendMessage (compose test_contact)]).
Proof.
  intros Ht. rewrite bulk_main_run, Ht.
  destruct (truthy_opt (w_getenv w "GMAIL_APP_PASSWORD_CODES04")); cbn [negb];
    [|cbn; auto].
  destruct (w_resume_exists w); cbn [negb]; [|cbn; auto].
  destruct (test_run_shape w (w_getenv w "GMAIL_APP_PASSWORD_CODES04") [])
    as (banner & evs & ok & Hb & Ha & E).
  rewrite E. cbn [fst app].
  destruct (output_quiet is_load banner output_not_load Hb) as [L1 _].
  destruct (output_quiet is_sleep banner (fun e H => ltac:(destruct e; simpl in *; congruence))
              Hb) as [S1 _].
  destruct (output_quiet is_send banner output_not_send Hb) as [_ F1].
  rewrite !existsb_app, filter_app, L1, S1, F1. cbn [app orb].
  destruct (confirmed w) as [[|]|]; try (cbn; auto; fail).
  unfold session.
  destruct (w_smtp_connect w); [cbn; auto|].
  destruct (w_smtp_starttls w); [cbn; auto|].
  destruct (w_smtp_login w); [cbn; auto|].
  destruct Ha; cbn; auto.
Qed.

(** ** The full mode *)

Lemma send_all_all_ok w total :
  (forall k, w_open_resume w k = None) ->
  (forall k m, w_send_message w k m = None) ->
  forall cs i sent failed tr,
  exists evs,
    send_all w total i cs sent failed tr = (tr ++ evs, Val (sent + length cs, failed)) /\
    filter is_send evs = map (fun c => SmtpSendMessage (compose c)) cs /\
    existsb is_stderr evs = false.
Proof.
  intros Ho Hs. induction cs as [|c cs IH]; intros i sent failed tr.
  - exists []. cbn. unfold ret. rewrite app_nil_r, Nat.add_0_r. auto.
  - rewrite send_all_step, Ho, Hs.
    match goal with |- context [send_all w total ?j cs ?a ?b ?t] =>
      destruct (IH j a b t) as (evs & E & Hf & He) end.
    rewrite E. eexists. rewrite <- ?events_assoc. split.
    + f_equal. cbn [length]. f_equal. f_equal. lia.
    + rewrite !filter_app, !existsb_app, Hf, He.
      unfold pause. destruct (i <? total); cbn; auto.
Qed.

Lemma last_snoc {A} (l : list A) x d : last (l ++ [x]) d = x.
Proof. apply last_app_nonempty. discriminate. Qed.

Lemma full_mode_completes argv w cs :
  member (py "--test") argv = false ->
  truthy_opt (w_getenv w "GMAIL_APP_PASSWORD_CODES04") = true ->
  w_resume_exists w = true ->
  snd (read_contacts_sheet2 w 4 []) = Val cs ->
  confirmed w = Some true ->
  session_error w = None ->
  exists evs sent failed,
    BulkEmail.main argv w [] = (evs ++ [SmtpQuit; done_line sent failed], Val tt) /\
    existsb is_quit evs = false /\
    sent + failed = length cs /\
    count is_open evs = length cs /\
    ((forall k, w_open_resume w k = None) ->
     (forall k m, w_send_message w k m = None) ->
     sent = length cs /\ failed = 0 /\
     filter is_send evs = map (fun c => SmtpSendMessage (compose c)) cs /\
     existsb is_stderr evs = false).
Proof.
  intros Ht Hpw Hres Hread Hc Hs.
  rewrite bulk_main_run, Hpw, Hres, Ht. cbn [negb].
  destruct (full_reader_cases w []) as [(cs' & Hr) | (r & Hr & [H|H])];
    try (rewrite H in Hread; cbn [snd] in Hread; subst r; destruct (Hr cs eq_refl)).
  rewrite Hr in Hread. cbn [snd] in Hread. injection Hread as ->.
  destruct (full_run_shape w (w_getenv w "GMAIL_APP_PASSWORD_CODES04") [] _ cs Hr)
    as (summary & evs & s & f & Hsum & Es & Hl & E).
  rewrite E, Hc, Hs. unfold session.
  unfold session_error in Hs.
  destruct (w_smtp_connect w); [discriminate|].
  destruct (w_smtp_starttls w); [discriminate|].
  destruct (w_smtp_login w); [discriminate|].
  eexists (LoadWorkbook _ :: summary ++ _ :: _ :: _ :: _ :: _ :: _ :: evs), s, f.
  split; [norm_events; reflexivity|].
  split.
  { destruct (output_quiet is_quit summary
                (fun e H => ltac:(destruct e; simpl in *; congruence)) Hsum) as [Q0 _].
    cbn [existsb is_quit orb]. rewrite existsb_app, Q0.
    cbn [existsb is_quit orb app]. exact (loop_no_quit _ _ _ _ _ _ _ Hl). }
  split; [exact (loop_counters _ _ _ _ _ _ _ Hl)|].
  destruct (output_quiet is_open summary output_not_open Hsum) as [_ Q].
  split.
  { unfold count. cbn [filter is_open]. rewrite filter_app, Q. cbn [filter is_open app].
    exact (loop_opens _ _ _ _ _ _ _ Hl). }
  intros Ho Hm.
  match type of Es with send_all _ _ _ _ _ _ ?t = _ =>
    destruct (send_all_all_ok w (length cs) Ho Hm cs 1 0 0 t) as (evs' & E' & Hf & He) end.
  rewrite E' in Es. injection Es as Hev <- <-. apply app_inv_head in Hev. subst evs'.
  split; [reflexivity|]. split; [reflexivity|].
  destruct (output_quiet is_send summary output_not_send Hsum) as [_ Q2].
  destruct (output_quiet is_stderr summary
              (fun e H => ltac:(destruct e; simpl in *; congruence)) Hsum) as [Q3 _].
  cbn [filter is_send existsb is_stderr orb].
  rewrite filter_app, existsb_app, Q2, Q3. cbn [filter is_send existsb is_stderr orb app].
  auto.
Qed.

(** ** The order of the SMTP calls *)

Lemma session_login w h p user pw body :
  existsb is_login body = false ->
  existsb is_login (session w h p user pw body) = true ->
  w_smtp_connect w = None /\ w_smtp_starttls w = None.
Proof.
  intros Hb. unfold session.
  destruct (w_smtp_connect w); [intros H; discriminate H|].
  destruct (w_smtp_starttls w); [intros H; discriminate H|]. auto.
Qed.

Lemma session_send w h p user pw body :
  existsb is_send (session w h p user pw body) = true -> session_error w = None.
Proof.
  unfold session, session_error.
  destruct (w_smtp_connect w); [intros H; discriminate H|].
  destruct (w_smtp_starttls w); [intros H; discriminate H|].
  destruct (w_smtp_login w); [intros H; discriminate H|]. auto.
Qed.

Lemma body_no_login evs : forallb body_event evs = true -> existsb is_login evs = false.
Proof.
  induction evs as [|e evs IH]; intros H; [reflexivity|].
  simpl in H. apply andb_prop in H. destruct H as [He H].
  simpl. rewrite (IH H). destruct e; simpl in *; congruence.
Qed.

Lemma quiet_no (p : event -> bool) evs :
  (forall e, p e = true -> is_smtp e = true) ->
  existsb is_smtp evs = false -> existsb p evs = false.
Proof.
  intros Hp. induction evs as [|e evs IH]; intros H; [reflexivity|].
  simpl in H. apply orb_false_elim in H. destruct H as [He H].
  simpl. rewrite (IH H), orb_false_r.
  destruct (p e) eqn:E; [|reflexivity]. rewrite (Hp e E) in He. discriminate.
Qed.

Lemma login_is_smtp e : is_login e = true -> is_smtp e = true.
Proof. destruct e; simpl; congruence. Qed.

Lemma send_is_smtp e : is_send e = true -> is_smtp e = true.
Proof. destruct e; simpl; congruence. Qed.


Lemma disciplined_quiet w evs : existsb is_smtp evs = false -> disciplined w evs.
Proof.
  intros H. split; [|split].
  - exists Closed. split; [apply smtp_run_quiet, H | reflexivity].
  - rewrite (quiet_no is_login evs login_is_smtp H). intros X. discriminate X.
  - rewrite (quiet_no is_send evs send_is_smtp H). intros X. discriminate X.
Qed.

Lemma disciplined_session w before h p user pw body after :
  existsb is_smtp before = false -> forallb body_event body = true ->
  existsb is_smtp after = false ->
  disciplined w (before ++ session w h p user pw body ++ after).
Proof.
  intros Hb Hbody Ha. split; [|split].
  - rewrite smtp_run_app, (smtp_run_quiet _ _ Hb).
    rewrite smtp_run_app, (smtp_run_session _ _ _ _ _ _ Hbody).
    destruct (w_smtp_connect w).
    + exists Connected. split; [apply smtp_run_quiet, Ha | discriminate].
    + exists Closed. split; [apply smtp_run_quiet, Ha | reflexivity].
  - rewrite !existsb_app, (quiet_no is_login _ login_is_smtp Hb),
      (quiet_no is_login _ login_is_smtp Ha), orb_false_r. cbn [orb].
    apply session_login, body_no_login, Hbody.
  - rewrite !existsb_app, (quiet_no is_send _ send_is_smtp Hb),
      (quiet_no is_send _ send_is_smtp Ha), orb_false_r. cbn [orb].
    apply session_send.
Qed.

Lemma bulk_disciplined argv w : disciplined w (fst (BulkEmail.main argv w [])).
Proof.
  rewrite bulk_main_run.
  destruct (truthy_opt (w_getenv w "GMAIL_APP_PASSWORD_CODES04")); cbn [negb];
    [|apply disciplined_quiet; reflexivity].
  destruct (w_resume_exists w); cbn [negb]; [|apply disciplined_quiet; reflexivity].
  destruct (member (py "--test") argv).
  - destruct (test_run_shape w (w_getenv w "GMAIL_APP_PASSWORD_CODES04") [])
      as (banner & evs & ok & Hb & Ha & E).
    rewrite E. cbn [fst app].
    destruct (output_quiet is_smtp banner output_not_smtp Hb) as [Q1 _].
    destruct (confirmed w) as [[|]|];
      try (apply disciplined_quiet; rewrite existsb_app, Q1; reflexivity).
    match goal with |- disciplined _ (banner ++ ?a :: ?b :: session ?w ?h ?p ?us ?pw ?body) =>
      replace (banner ++ a :: b :: session w h p us pw body)
        with ((banner ++ [a; b]) ++ session w h p us pw body ++ [])
        by (rewrite app_nil_r; norm_events; reflexivity) end.
    apply disciplined_session; [rewrite existsb_app, Q1; reflexivity | | reflexivity].
    rewrite forallb_app, (attempt_body _ _ _ _ Ha). destruct ok; reflexivity.
  - destruct (full_reader_cases w []) as [(cs & Hr) | (r & Hr & [H|H])].
    + destruct (full_run_shape w (w_getenv w "GMAIL_APP_PASSWORD_CODES04") [] _ cs Hr)
        as (summary & evs & s & f & Hs & _ & Hl & E).
      rewrite E. cbn [fst app].
      destruct (output_quiet is_smtp summary output_not_smtp Hs) as [Q1 _].
      destruct (confirmed w) as [[|]|];
        try (apply disciplined_quiet; cbn [existsb is_smtp orb]; rewrite existsb_app, Q1;
             reflexivity).
      match goal with
      | |- disciplined _ (?l :: summary ++ ?a :: ?b :: session ?w ?h ?p ?us ?pw ?body ++ ?c) =>
          replace (l :: summary ++ a :: b :: session w h p us pw body ++ c)
            with ((l :: summary ++ [a; b]) ++ session w h p us pw body ++ c)
            by (norm_events; reflexivity) end.
      apply disciplined_session.
      * cbn [existsb is_smtp orb app]. rewrite existsb_app, Q1. reflexivity.
      * cbn [forallb body_event andb]. exact (loop_body _ _ _ _ _ _ _ Hl).
      * destruct (session_error w); reflexivity.
    + destruct (full_run_unread w (w_getenv w "GMAIL_APP_PASSWORD_CODES04") [] _ r Hr H)
        as (r' & E).
      rewrite E. apply disciplined_quiet. reflexivity.
    + destruct (full_run_unread w (w_getenv w "GMAIL_APP_PASSWORD_CODES04") [] _ r Hr H)
        as (r' & E).
      rewrite E. apply disciplined_quiet. reflexivity.
Qed.

(** ** The scraper *)

Lemma fetch_all_events w : forall urls all_text tr,
  Unravel.fetch_all w urls all_text tr =
  (tr ++ fetch_events w urls,
   match fetch_pure w urls all_text with
   | inl e => Raise e
   | inr gathered => Val gathered
   end).
Proof.
  induction urls as [|url rest IH]; intros all_text tr.
  - cbn. unfold ret. rewrite app_nil_r. reflexivity.
  - cbn [Unravel.fetch_all fetch_pure fetch_events].
    unfold bind at 1. unfold try_except, bind, eprint, emit, ret, raise.
    destruct (w_http_get w url) as [e|page]; cbn beta iota.
    + destruct (Unravel.is_request_exception (exn_cls e)); cbn beta iota; [|reflexivity].
      rewrite IH. norm_events. reflexivity.
    + rewrite IH. norm_events. reflexivity.
Qed.

Lemma scrape_shape w tr :
  Unravel.scrape_unravel_profiles w tr =
  match fetch_pure w Unravel.UNRAVEL_URLS [] with
  | inl e => (tr ++ fetch_events w Unravel.UNRAVEL_URLS, Raise e)
  | inr [] => (tr ++ fetch_events w Unravel.UNRAVEL_URLS ++ [no_content], Exit 1)
  | inr all_text => (tr ++ fetch_events w Unravel.UNRAVEL_URLS, Val (join (nl ++ nl) all_text))
  end.
Proof.
  unfold Unravel.scrape_unravel_profiles. unfold bind at 1. rewrite fetch_all_events.
  destruct (fetch_pure w Unravel.UNRAVEL_URLS []) as [e|[|p ps]]; try reflexivity.
  unfold bind, when, eprint, emit, sys_exit, ret. cbn [nonempty negb].
  rewrite <- (@app_assoc event). reflexivity.
Qed.

Lemma only_request_errors_tail w url urls :
  only_request_errors w (url :: urls) -> only_request_errors w urls.
Proof. intros H x e Hin. apply H. right. exact Hin. Qed.

Lemma fetch_pure_sections w : forall urls all_text,
  only_request_errors w urls ->
  fetch_pure w urls all_text = inr (all_text ++ sections w urls).
Proof.
  induction urls as [|url urls IH]; intros all_text H.
  - cbn. rewrite app_nil_r. reflexivity.
  - cbn [fetch_pure sections]. destruct (w_http_get w url) as [e|page] eqn:E.
    + rewrite (H url e (or_introl eq_refl) E).
      apply IH, (only_request_errors_tail _ _ _ H).
    + rewrite IH by exact (only_request_errors_tail _ _ _ H).
      rewrite <- app_assoc. reflexivity.
Qed.

Lemma fetch_events_requests w : forall urls,
  only_request_errors w urls ->
  filter is_http (fetch_events w urls) = map HttpGet urls /\
  filter is_stderr (fetch_events w urls) = warnings w urls /\
  forallb scrape_event (fetch_events w urls) = true.
Proof.
  induction urls as [|url urls IH]; intros H; [cbn; auto|].
  destruct (IH (only_request_errors_tail _ _ _ H)) as (I1 & I2 & I3).
  cbn [fetch_events warnings flat_map] in *.
  destruct (w_http_get w url) as [e|page] eqn:E.
  - rewrite (H url e (or_introl eq_refl) E). cbn. rewrite I1, I2, I3. auto.
  - cbn. rewrite I1, I2, I3. auto.
Qed.

Lemma scrape_requests w tr :
  only_request_errors w Unravel.UNRAVEL_URLS ->
  exists evs,
    Unravel.scrape_unravel_profiles w tr
    = (tr ++ evs,
       if nonempty (sections w Unravel.UNRAVEL_URLS)
       then Val (join (nl ++ nl) (sections w Unravel.UNRAVEL_URLS))
       else Exit 1) /\
    filter is_http evs = map HttpGet Unravel.UNRAVEL_URLS /\
    filter is_stderr evs
    = warnings w Unravel.UNRAVEL_URLS
        ++ (if nonempty (sections w Unravel.UNRAVEL_URLS) then [] else [no_content]) /\
    forallb scrape_event evs = true.
Proof.
  intros H. rewrite scrape_shape, (fetch_pure_sections w _ [] H). cbn [app].
  destruct (fetch_events_requests w _ H) as (F1 & F2 & F3).
  destruct (sections w Unravel.UNRAVEL_URLS) as [|p ps]; cbn [nonempty].
  - eexists. split; [reflexivity|].
    rewrite !filter_app, forallb_app, F1, F2, F3. cbn. rewrite app_nil_r. auto.
  - eexists. split; [reflexivity|]. rewrite app_nil_r. auto.
Qed.

(** An error of another kind is not caught: the loop stops at that page. *)
Lemma fetch_events_app w a b :
  only_request_errors w a -> fetch_events w (a ++ b) = fetch_events w a ++ fetch_events w b.
Proof.
  induction a as [|url a IH]; intros H; [reflexivity|].
  cbn [app fetch_events]. destruct (w_http_get w url) as [e|page] eqn:E.
  - rewrite (H url e (or_introl eq_refl) E).
    rewrite IH by exact (only_request_errors_tail _ _ _ H). reflexivity.
  - rewrite IH by exact (only_request_errors_tail _ _ _ H). reflexivity.
Qed.

Lemma fetch_pure_app w a b : forall all_text,
  only_request_errors w a ->
  fetch_pure w (a ++ b) all_text = fetch_pure w b (all_text ++ sections w a).
Proof.
  induction a as [|url a IH]; intros all_text H.
  - cbn. rewrite app_nil_r. reflexivity.
  - cbn [app fetch_pure sections]. destruct (w_http_get w url) as [e|page] eqn:E.
    + rewrite (H url e (or_introl eq_refl) E).
      apply IH, (only_request_errors_tail _ _ _ H).
    + rewrite IH by exact (only_request_errors_tail _ _ _ H).
      rewrite <- app_assoc. reflexivity.
Qed.

Lemma scrape_other_error w before url after e tr :
  Unravel.UNRAVEL_URLS = before ++ url :: after ->
  only_request_errors w before ->
  w_http_get w url = inl e ->
  Unravel.is_request_exception (exn_cls e) = false ->
  Unravel.scrape_unravel_profiles w tr
  = (tr ++ fetch_events w before ++ [HttpGet url], Raise e).
Proof.
  intros Hu Hb He Hc. rewrite scrape_shape, Hu.
  rewrite (fetch_pure_app w before _ [] Hb), (fetch_events_app w before _ Hb).
  cbn [fetch_pure fetch_events]. rewrite He, Hc. reflexivity.
Qed.

(** ** The extractor *)

Lemma extract_frame w profiles tr :
  Unravel.extract_founder_info w profiles tr
  = (tr ++ fst (Unravel.extract_founder_info w profiles []),
     snd (Unravel.extract_founder_info w profiles [])).
Proof.
  rewrite !extract_founder_info_run.
  destruct (truthy_opt (w_getenv w "GROQ_API_KEY")); cbn [negb]; [|reflexivity].
  cbv zeta.
  destruct (w_llm_chat w _ _) as [e|content].
  - destruct (Unravel.is_openai_error (exn_cls e)); reflexivity.
  - destruct (truthy_opt content); cbn [negb]; [|reflexivity].
    destruct (w_json_loads w (the content)); reflexivity.
Qed.

Lemma extract_outcome w profiles tr :
  exists evs r,
    Unravel.extract_founder_info w profiles tr = (tr ++ evs, r) /\
    count is_llm evs <= 1 /\
    forallb (fun e => is_llm e || is_stderr e) evs = true /\
    (existsb is_llm evs = true -> truthy_opt (w_getenv w "GROQ_API_KEY") = true) /\
    (forall result,
        r = Val result <->
        truthy_opt (w_getenv w "GROQ_API_KEY") = true /\
        exists content,
          w_llm_chat w Unravel.SYSTEM_PROMPT (Unravel.build_user_prompt profiles)
          = inr (Some content) /\
          content <> [] /\ w_json_loads w content = inr result) /\
    (forall c, r = Exit c -> c = 1%Z /\ exists line, last evs (Sleep 0) = Stderr line) /\
    (forall e, r = Raise e ->
               w_llm_chat w Unravel.SYSTEM_PROMPT (Unravel.build_user_prompt profiles) = inl e /\
               Unravel.is_openai_error (exn_cls e) = false).
Proof.
  rewrite extract_founder_info_run.
  destruct (truthy_opt (w_getenv w "GROQ_API_KEY")); cbn [negb].
  2:{ eexists _, _. split; [reflexivity|]. cbn.
      split; [lia|]. split; [reflexivity|]. split; [discriminate|].
      split; [|split].
      - intros result. split; [discriminate | intros [X _]; discriminate X].
      - intros c [= <-]. split; [reflexivity | eexists; reflexivity].
      - discriminate. }
  cbv zeta.
  destruct (w_llm_chat w _ _) as [e|content] eqn:El.
  - destruct (Unravel.is_openai_error (exn_cls e)) eqn:Ec.
    + eexists _, _. split; [reflexivity|]. cbn.
      split; [lia|]. split; [reflexivity|]. split; [reflexivity|].
      split; [|split].
      * intros result. split; [discriminate | intros (_ & c & X & _); discriminate X].
      * intros c [= <-]. split; [reflexivity | eexists; reflexivity].
      * discriminate.
    + eexists _, _. split; [reflexivity|]. cbn.
      split; [lia|]. split; [reflexivity|]. split; [reflexivity|].
      split; [|split].
      * intros result. split; [discriminate | intros (_ & c & X & _); discriminate X].
      * discriminate.
      * intros e' [= <-]. auto.
  - destruct content as [[|c0 content]|]; cbn [truthy_opt nonempty negb the].
    + eexists _, _. split; [reflexivity|]. cbn.
      split; [lia|]. split; [reflexivity|]. split; [reflexivity|].
      split; [|split].
      * intros result. split; [discriminate|].
        intros (_ & c & [= <-] & Hne & _). congruence.
      * intros c [= <-]. split; [reflexivity | eexists; reflexivity].
      * discriminate.
    + destruct (w_json_loads w (c0 :: content)) as [err|result] eqn:Ej.
      * eexists _, _. split; [reflexivity|]. cbn.
        split; [lia|]. split; [reflexivity|]. split; [reflexivity|].
        split; [|split].
        -- intros result. split; [discriminate|].
           intros (_ & c & [= <-] & _ & X). rewrite Ej in X. discriminate X.
        -- intros c [= <-]. split; [reflexivity | eexists; reflexivity].
        -- discriminate.
      * eexists _, _. split; [reflexivity|]. cbn.
        split; [lia|]. split; [reflexivity|]. split; [reflexivity|].
        split; [|split].
        -- intros result'. split.
           ++ intros [= <-]. split; [reflexivity|]. exists (c0 :: content).
              split; [reflexivity|]. split; [discriminate | exact Ej].
           ++ intros (_ & c & [= <-] & _ & X). rewrite Ej in X. injection X as ->.
              reflexivity.
        -- discriminate.
        -- discriminate.
    + eexists _, _. split; [reflexivity|]. cbn.
      split; [lia|]. split; [reflexivity|]. split; [reflexivity|].
      split; [|split].
      * intros result. split; [discriminate | intros (_ & c & X & _); discriminate X].
      * intros c [= <-]. split; [reflexivity | eexists; reflexivity].
      * discriminate.
Qed.

(** ** The agent: scrape, then extract *)


Lemma agent_bind {B} w b1 b2 (K : json -> M B) tr :
  (print b1 ;;
   profiles <- Unravel.scrape_unravel_profiles w ;;
   print (u "   Fetched " ++ text_of_nat (length profiles)
            ++ u " characters of content." ++ nl) ;;
   print b2 ;;
   result <- Unravel.extract_founder_info w profiles ;;
   K result) tr
  = match fetch_pure w Unravel.UNRAVEL_URLS [] with
    | inl e => (tr ++ Stdout (b1 ++ nl) :: fetch_events w Unravel.UNRAVEL_URLS, Raise e)
    | inr [] =>
        (tr ++ Stdout (b1 ++ nl) :: fetch_events w Unravel.UNRAVEL_URLS ++ [no_content],
         Exit 1)
    | inr all_text =>
        match snd (Unravel.extract_founder_info w (join (nl ++ nl) all_text) []) with
        | Val result =>
            K result
              (tr ++ Stdout (b1 ++ nl) :: fetch_events w Unravel.UNRAVEL_URLS
                  ++ [fetched (join (nl ++ nl) all_text); Stdout (b2 ++ nl)]
                  ++ fst (Unravel.extract_founder_info w (join (nl ++ nl) all_text) []))
        | Exit c =>
            (tr ++ Stdout (b1 ++ nl) :: fetch_events w Unravel.UNRAVEL_URLS
                ++ [fetched (join (nl ++ nl) all_text); Stdout (b2 ++ nl)]
                ++ fst (Unravel.extract_founder_info w (join (nl ++ nl) all_text) []),
             Exit c)
        | Raise e =>
            (tr ++ Stdout (b1 ++ nl) :: fetch_events w Unravel.UNRAVEL_URLS
                ++ [fetched (join (nl ++ nl) all_text); Stdout (b2 ++ nl)]
                ++ fst (Unravel.extract_founder_info w (join (nl ++ nl) all_text) []),
             Raise e)
        end
    end.
Proof.
  unfold bind at 1. unfold print at 1, emit at 1.
  unfold bind at 1. rewrite scrape_shape.
  destruct (fetch_pure w Unravel.UNRAVEL_URLS []) as [e|[|p ps]];
    try (norm_events; reflexivity).
  unfold bind at 1. unfold print at 1, emit at 1.
  unfold bind at 1. unfold print at 1, emit at 1.
  unfold bind at 1. rewrite extract_frame. unfold fetched.
  norm_events.
  destruct (snd (Unravel.extract_founder_info w (join (nl ++ nl) (p :: ps)) []));
    reflexivity.
Qed.


Lemma scrape_is_agent evs : forallb scrape_event evs = true -> forallb agent_event evs = true.
Proof.
  apply forallb_impl. intros e. unfold scrape_event, agent_event.
  destruct e; simpl; congruence.
Qed.

Lemma fetch_events_scrape w : forall urls, forallb scrape_event (fetch_events w urls) = true.
Proof.
  induction urls as [|url urls IH]; [reflexivity|].
  cbn [fetch_events]. destruct (w_http_get w url) as [e|page].
  - destruct (Unravel.is_request_exception (exn_cls e)); cbn; [exact IH | reflexivity].
  - cbn. exact IH.
Qed.

(** ** Unravel.py as a script *)

(** ** Send_email.py *)




Lemma send_application_email_shape w recipient tr :
  SendEmail.send_application_email w recipient tr =
  if negb (truthy_opt (w_getenv w "GMAIL_APP_PASSWORD"))
  then (tr ++ [Stderr password_message], Exit 1)
  else if negb (w_resume_exists w) then (tr ++ [resume_missing w], Exit 1)
  else
    match w_open_resume w (count is_open tr) with
    | Some e => (tr ++ [OpenResume (w_resume_path w)], Raise e)
    | None =>
        (tr ++ OpenResume (w_resume_path w) :: connecting_single ::
            session w SendEmail.SMTP_SERVER SendEmail.SMTP_PORT SendEmail.SENDER_EMAIL
              (the (w_getenv w "GMAIL_APP_PASSWORD"))
              [SmtpSendMessage (application w recipient)]
            ++ match send_failure w (count is_send tr) recipient with
               | None => [sent_line w recipient]
               | Some e => if SendEmail.is_smtp_error (exn_cls e) then [smtp_report e] else []
               end,
         match send_failure w (count is_send tr) recipient with
         | None => Val tt
         | Some e => if SendEmail.is_smtp_error (exn_cls e) then Exit 1 else Raise e
         end)
    end.
Proof.
  unfold SendEmail.send_application_email, send_failure, session, session_error,
    resume_missing, password_message, smtp_report, connecting_single, sent_line.
  fold (application w recipient).
  unfold read_resume, with_smtp, starttls, login, send_message, finally, try_except.
  unfold bind, when, history, check, print, eprint, emit, sys_exit, ret, raise.
  destruct (truthy_opt (w_getenv w "GMAIL_APP_PASSWORD")); cbn [negb]; [|reflexivity].
  destruct (w_resume_exists w); cbn [negb]; [|reflexivity].
  destruct (w_open_resume w (count is_open tr)) as [e|]; cbn beta iota; [reflexivity|].
  destruct (w_smtp_connect w) as [e|]; cbn beta iota.
  { destruct e as [[] msg]; cbn; norm_events; rewrite ?app_nil_r; reflexivity. }
  destruct (w_smtp_starttls w) as [e|]; cbn beta iota.
  { destruct e as [[] msg]; cbn; norm_events; rewrite ?app_nil_r; reflexivity. }
  destruct (w_smtp_login w) as [e|]; cbn beta iota.
  { destruct e as [[] msg]; cbn; norm_events; rewrite ?app_nil_r; reflexivity. }
  rewrite !count_app. cbn [count filter is_send length]. rewrite !Nat.add_0_r.
  destruct (w_send_message w (count is_send tr) (application w recipient)) as [e|];
    cbn beta iota.
  { destruct e as [[] msg]; cbn; norm_events; rewrite ?app_nil_r; reflexivity. }
  norm_events. reflexivity.
Qed.



(** The single-recipient driver from the extracted result on. *)
Lemma single_tail w result tr :
  exists offer,
    forallb is_stdout offer = true /\
    (founder_name <- SendEmail.get result (u "founder_name") ;;
     recipient <- SendEmail.get result (u "email") ;;
     when (negb (json_truthy founder_name) || negb (json_truthy recipient))
          (eprint (u "Error: Could not extract founder info.") ;; sys_exit 1) ;;
     print (u "   Found: " ++ w_format w founder_name) ;;
     print (u "   Email: " ++ w_format w recipient) ;;
     print_blank ;;
     print (u "📧 Step 2: Ready to send application email:") ;;
     print (u "   From:    " ++ SendEmail.SENDER_EMAIL) ;;
     print (u "   To:      " ++ w_format w recipient) ;;
     print (u "   Subject: " ++ SendEmail.SUBJECT) ;;
     print (u "   Resume:  " ++ SendEmail.RESUME_NAME) ;;
     print_blank ;;
     answer <- input w (u "Send this email? (y/n): ") ;;
     when (negb (BulkEmail.pystr_eqb (lower (strip answer)) (py "y")))
          (print (u "Cancelled.") ;; sys_exit 0) ;;
     SendEmail.send_application_email w recipient ;;
     print_blank ;;
     print (w_json_dumps w result)) tr
    = match result with
      | JObject members =>
          if negb (json_truthy (dict_get members (u "founder_name")))
             || negb (json_truthy (dict_get members (u "email")))
          then (tr ++ [could_not_extract], Exit 1)
          else
            match confirmed w with
            | None => (tr ++ offer ++ [ReadLine send_prompt], Raise eof_error)
            | Some false => (tr ++ offer ++ [ReadLine send_prompt; cancelled], Exit 0)
            | Some true =>
                match SendEmail.send_application_email w (dict_get members (u "email"))
                        (tr ++ offer ++ [ReadLine send_prompt]) with
                | (tr', Val _) =>
                    (tr' ++ [Stdout nl; Stdout (w_json_dumps w result ++ nl)], Val tt)
                | (tr', Exit c) => (tr', Exit c)
                | (tr', Raise e) => (tr', Raise e)
                end
            end
      | _ => (tr, Raise (attribute_error result))
      end.
Proof.
  destruct result as [| | | | |items|members];
    try (exists []; split; [reflexivity|]; reflexivity).
  exists [Stdout ((u "   Found: " ++ w_format w (dict_get members (u "founder_name"))) ++ nl);
          Stdout ((u "   Email: " ++ w_format w (dict_get members (u "email"))) ++ nl);
          Stdout nl;
          Stdout (u "📧 Step 2: Ready to send application email:" ++ nl);
          Stdout ((u "   From:    " ++ SendEmail.SENDER_EMAIL) ++ nl);
          Stdout ((u "   To:      " ++ w_format w (dict_get members (u "email"))) ++ nl);
          Stdout ((u "   Subject: " ++ SendEmail.SUBJECT) ++ nl);
          Stdout ((u "   Resume:  " ++ SendEmail.RESUME_NAME) ++ nl);
          Stdout nl].
  split; [reflexivity|].
  unfold SendEmail.get.
  unfold bind at 1. unfold ret at 1. unfold bind at 1. unfold ret at 1.
  unfold bind at 1. unfold when at 1.
  destruct (negb (json_truthy (dict_get members (u "founder_name")))
            || negb (json_truthy (dict_get members (u "email")))).
  { unfold bind, eprint, emit, sys_exit, could_not_extract. reflexivity. }
  unfold ret at 1.
  do 2 (unfold bind at 1; unfold print at 1, emit at 1).
  unfold bind at 1. unfold print_blank at 1, emit at 1.
  do 5 (unfold bind at 1; unfold print at 1, emit at 1).
  unfold bind at 1. unfold print_blank at 1, emit at 1.
  unfold bind at 1. unfold input, confirmed.
  unfold bind at 1. unfold emit at 1.
  norm_events. unfold send_prompt.
  destruct (w_input w) as [answer|]; [|reflexivity].
  unfold ret at 1.
  unfold bind at 1. unfold when at 1.
  destruct (BulkEmail.pystr_eqb (lower (strip answer)) (py "y")); cbn [negb];
    [|unfold bind, print, emit, sys_exit; norm_events; reflexivity].
  unfold ret at 1. unfold bind at 1.
  destruct (SendEmail.send_application_email w _ _) as [tr' [[]|c|e]]; try reflexivity.
  unfold bind, print_blank, print, emit. norm_events. reflexivity.
Qed.


Lemma calm_not_smtp evs : forallb calm evs = true -> existsb is_smtp evs = false.
Proof.
  induction evs as [|e evs IH]; intros H; [reflexivity|].
  simpl in H. apply andb_prop in H. destruct H as [He H].
  simpl. rewrite (IH H). unfold calm in He. destruct e; simpl in *; congruence.
Qed.

Lemma calm_not_open evs : forallb calm evs = true -> filter is_open evs = [].
Proof.
  induction evs as [|e evs IH]; intros H; [reflexivity|].
  simpl in H. apply andb_prop in H. destruct H as [He H].
  simpl. rewrite (IH H). unfold calm in He. destruct e; simpl in *; congruence.
Qed.

Lemma calm_not_send evs : forallb calm evs = true -> filter is_send evs = [].
Proof.
  induction evs as [|e evs IH]; intros H; [reflexivity|].
  simpl in H. apply andb_prop in H. destruct H as [He H].
  simpl. rewrite (IH H). unfold calm in He. destruct e; simpl in *; congruence.
Qed.

Lemma agent_is_calm evs : forallb agent_event evs = true -> forallb calm evs = true.
Proof.
  apply forallb_impl. intros e. unfold agent_event, calm. destruct e; simpl; congruence.
Qed.

Lemma stdout_is_calm evs : forallb is_stdout evs = true -> forallb calm evs = true.
Proof. apply forallb_impl. intros e. unfold calm. destruct e; simpl; congruence. Qed.

(** The run of the single-recipient script: either it ends before the
    sending stage, or it reaches [send_application_email] with the address
    decoded from the answer of the LLM. *)
Lemma single_main_cases w :
  exists before,
    filter is_network before = filter is_network (fst (Unravel.main w [])) /\
    existsb is_smtp before = false /\
    filter is_open before = [] /\ filter is_send before = [] /\
    ((exists r, SendEmail.main w [] = (before, r)) \/
     (exists profiles content members,
         truthy_opt (w_getenv w "GROQ_API_KEY") = true /\
         w_llm_chat w Unravel.SYSTEM_PROMPT (Unravel.build_user_prompt profiles)
         = inr (Some content) /\
         w_json_loads w content = inr (JObject members) /\
         json_truthy (dict_get members (u "founder_name")) = true /\
         json_truthy (dict_get members (u "email")) = true /\
         confirmed w = Some true /\
         SendEmail.main w [] =
         match SendEmail.send_application_email w (dict_get members (u "email")) before with
         | (tr', Val _) =>
             (tr' ++ [Stdout nl; Stdout (w_json_dumps w (JObject members) ++ nl)], Val tt)
         | (tr', Exit c) => (tr', Exit c)
         | (tr', Raise e) => (tr', Raise e)
         end)).
Proof.
  unfold SendEmail.main, Unravel.main. rewrite !agent_bind. cbn [app]. cbv zeta.
  pose proof (agent_is_calm _ (scrape_is_agent _ (fetch_events_scrape w Unravel.UNRAVEL_URLS)))
    as Hf.
  destruct (fetch_pure w Unravel.UNRAVEL_URLS []) as [e|[|p ps]].
  - eexists. split; [|split; [|split; [|split; [|left; eexists; reflexivity]]]].
    + cbn [fst filter is_network]. reflexivity.
    + apply calm_not_smtp. cbn [forallb]. rewrite Hf. reflexivity.
    + apply calm_not_open. cbn [forallb]. rewrite Hf. reflexivity.
    + apply calm_not_send. cbn [forallb]. rewrite Hf. reflexivity.
  - eexists. split; [|split; [|split; [|split; [|left; eexists; reflexivity]]]].
    + cbn [fst filter is_network]. reflexivity.
    + apply calm_not_smtp. cbn [forallb]. rewrite forallb_app, Hf. reflexivity.
    + apply calm_not_open. cbn [forallb]. rewrite forallb_app, Hf. reflexivity.
    + apply calm_not_send. cbn [forallb]. rewrite forallb_app, Hf. reflexivity.
  - set (profiles := join (nl ++ nl) (p :: ps)).
    destruct (extract_outcome w profiles []) as (evs & r & E & _ & Hev & _ & Hval & _).
    cbn [app] in E. rewrite E. cbn [fst snd].
    assert (Hevs : forallb calm evs = true).
    { revert Hev. apply forallb_impl. intros e. unfold calm.
      destruct e; simpl; congruence. }
    assert (Hhead : forall b1 b2 extra,
               forallb calm extra = true ->
               forallb calm
                 (Stdout b1 :: fetch_events w Unravel.UNRAVEL_URLS
                    ++ fetched profiles :: Stdout b2 :: evs ++ extra) = true).
    { intros b1 b2 extra Hx. cbn [forallb]. rewrite forallb_app, Hf. cbn [forallb].
      rewrite forallb_app, Hevs, Hx. reflexivity. }
    assert (Hnet : forall b1 b2 extra,
               filter is_network extra = [] ->
               filter is_network
                 (Stdout b1 :: fetch_events w Unravel.UNRAVEL_URLS
                    ++ fetched profiles :: Stdout b2 :: evs ++ extra)
               = filter is_network (fetch_events w Unravel.UNRAVEL_URLS)
                   ++ filter is_network evs).
    { intros b1 b2 extra Hx. cbn [filter is_network]. rewrite filter_app.
      cbn [filter is_network fetched]. rewrite filter_app, Hx, app_nil_r. reflexivity. }
    assert (Hnet0 : forall b1 b2,
               filter is_network
                 (Stdout b1 :: fetch_events w Unravel.UNRAVEL_URLS
                    ++ fetched profiles :: Stdout b2 :: evs)
               = filter is_network (fetch_events w Unravel.UNRAVEL_URLS)
                   ++ filter is_network evs).
    { intros b1 b2. rewrite <- (Hnet b1 b2 [] eq_refl), app_nil_r. reflexivity. }
    assert (Hu : filter is_network
                   (fst match r with
                        | Val result =>
                            print (w_json_dumps w result)
                              (Stdout (u "ğŸŒ Scraping unravel.tech for founder profiles..."
                                         ++ nl)
                                 :: fetch_events w Unravel.UNRAVEL_URLS
                                 ++ fetched profiles
                                 :: Stdout (u "ğŸ¤– Analyzing with LLM agent..." ++ nl)
                                 :: evs)
                        | Exit c =>
                            (Stdout (u "ğŸŒ Scraping unravel.tech for founder profiles..."
                                       ++ nl)
                               :: fetch_events w Unravel.UNRAVEL_URLS
                               ++ fetched profiles
                               :: Stdout (u "ğŸ¤– Analyzing with LLM agent..." ++ nl)
                               :: evs, Exit c)
                        | Raise e =>
                            (Stdout (u "ğŸŒ Scraping unravel.tech for founder profiles..."
                                       ++ nl)
                               :: fetch_events w Unravel.UNRAVEL_URLS
                               ++ fetched profiles
                               :: Stdout (u "ğŸ¤– Analyzing with LLM agent..." ++ nl)
                               :: evs, Raise e)
                        end)
                 = filter is_network (fetch_events w Unravel.UNRAVEL_URLS)
                     ++ filter is_network evs).
    { destruct r; unfold print, emit; cbn [fst]; norm_events;
        [apply Hnet; reflexivity | apply Hnet0 | apply Hnet0]. }
    rewrite Hu. clear Hu.
    destruct r as [result|c|e]; cbv beta iota.
    + destruct (proj1 (Hval result) eq_refl) as (Hkey & content & Hl & Hne & Hj).
      match goal with |- context [bind (SendEmail.get result _) _ ?t] =>
        destruct (single_tail w result t) as (offer & Hoff & Et); rewrite Et; clear Et end.
      destruct result as [| | | | |items|members].
      1-6: eexists; (split; [|split; [|split; [|split; [|left; eexists; reflexivity]]]]);
        [ apply Hnet0
        | apply calm_not_smtp; rewrite <- (app_nil_r evs); apply Hhead; reflexivity
        | apply calm_not_open; rewrite <- (app_nil_r evs); apply Hhead; reflexivity
        | apply calm_not_send; rewrite <- (app_nil_r evs); apply Hhead; reflexivity ].
      destruct (json_truthy (dict_get members (u "founder_name"))) eqn:T1;
        destruct (json_truthy (dict_get members (u "email"))) eqn:T2; cbn [negb orb].
      2-4: eexists; (split; [|split; [|split; [|split; [|left; eexists; reflexivity]]]]);
        [ norm_events; apply Hnet; reflexivity
        | apply calm_not_smtp; norm_events; apply Hhead; reflexivity
        | apply calm_not_open; norm_events; apply Hhead; reflexivity
        | apply calm_not_send; norm_events; apply Hhead; reflexivity ].
      assert (Hoffer : forall extra,
                 filter is_network extra = [] ->
                 filter is_network (offer ++ extra) = []).
      { intros extra Hx. rewrite filter_app, Hx.
        rewrite (proj2 (output_quiet is_network offer output_not_network Hoff)).
        reflexivity. }
      destruct (confirmed w) as [[|]|] eqn:Hc.
      2-3: eexists; (split; [|split; [|split; [|split; [|left; eexists; reflexivity]]]]);
        [ norm_events; apply Hnet, Hoffer; reflexivity
        | apply calm_not_smtp; norm_events; apply Hhead;
          rewrite forallb_app, (stdout_is_calm _ Hoff); reflexivity
        | apply calm_not_open; norm_events; apply Hhead;
          rewrite forallb_app, (stdout_is_calm _ Hoff); reflexivity
        | apply calm_not_send; norm_events; apply Hhead;
          rewrite forallb_app, (stdout_is_calm _ Hoff); reflexivity ].
      eexists. split; [|split; [|split; [|split; [|right]]]].
      5:{ exists profiles, content, members.
          repeat (split; [assumption || reflexivity|]). reflexivity. }
      * norm_events. apply Hnet, Hoffer. reflexivity.
      * apply calm_not_smtp. norm_events. apply Hhead.
        rewrite forallb_app, (stdout_is_calm _ Hoff). reflexivity.
      * apply calm_not_open. norm_events. apply Hhead.
        rewrite forallb_app, (stdout_is_calm _ Hoff). reflexivity.
      * apply calm_not_send. norm_events. apply Hhead.
        rewrite forallb_app, (stdout_is_calm _ Hoff). reflexivity.
    + eexists. split; [|split; [|split; [|split; [|left; eexists; reflexivity]]]].
      * apply Hnet0.
      * apply calm_not_smtp. rewrite <- (app_nil_r evs). apply Hhead. reflexivity.
      * apply calm_not_open. rewrite <- (app_nil_r evs). apply Hhead. reflexivity.
      * apply calm_not_send. rewrite <- (app_nil_r evs). apply Hhead. reflexivity.
    + eexists. split; [|split; [|split; [|split; [|left; eexists; reflexivity]]]].
      * apply Hnet0.
      * apply calm_not_smtp. rewrite <- (app_nil_r evs). apply Hhead. reflexivity.
      * apply calm_not_open. rewrite <- (app_nil_r evs). apply Hhead. reflexivity.
      * apply calm_not_send. rewrite <- (app_nil_r evs). apply Hhead. reflexivity.
Qed.

Lemma filter_nil_of_existsb {A} (p : A -> bool) l : existsb p l = false -> filter p l = [].
Proof.
  induction l as [|x l IH]; [reflexivity|]. simpl. intros H.
  apply orb_false_elim in H. destruct H as [-> H]. exact (IH H).
Qed.

Lemma existsb_of_filter_nil {A} (p : A -> bool) l : filter p l = [] -> existsb p l = false.
Proof.
  induction l as [|x l IH]; [reflexivity|]. simpl.
  destruct (p x); [discriminate | exact IH].
Qed.

Lemma disciplined_frame w before evs after :
  existsb is_smtp before = false -> existsb is_smtp after = false ->
  disciplined w evs -> disciplined w (before ++ evs ++ after).
Proof.
  intros Hb Ha ((st & Hrun & Hst) & Hlogin & Hsend). split; [|split].
  - exists st. split; [|exact Hst].
    rewrite smtp_run_app, (smtp_run_quiet _ _ Hb), smtp_run_app, Hrun.
    apply smtp_run_quiet, Ha.
  - rewrite !existsb_app, (quiet_no is_login _ login_is_smtp Hb),
      (quiet_no is_login _ login_is_smtp Ha), orb_false_r. exact Hlogin.
  - rewrite !existsb_app, (quiet_no is_send _ send_is_smtp Hb),
      (quiet_no is_send _ send_is_smtp Ha), orb_false_r. exact Hsend.
Qed.


Lemma send_stage_network evs :
  forallb send_stage_event evs = true -> filter is_network evs = filter is_smtp evs.
Proof.
  induction evs as [|e evs IH]; intros H; [reflexivity|].
  simpl in H. apply andb_prop in H. destruct H as [He H].
  simpl. rewrite (IH H). unfold send_stage_event in He. destruct e; simpl in *; congruence.
Qed.

Lemma output_no (p : event -> bool) evs :
  (forall e, is_output e = true -> p e = false) ->
  forallb is_output evs = true -> existsb p evs = false /\ filter p evs = [].
Proof.
  intros Hp. induction evs as [|e evs IH]; intros H; [auto|].
  simpl in H. apply andb_prop in H. destruct H as [He H].
  destruct (IH H) as [I1 I2]. simpl. rewrite (Hp e He), I1, I2. auto.
Qed.

Lemma session_send_stage w h p user pw m :
  forallb send_stage_event (session w h p user pw [SmtpSendMessage m]) = true /\
  (filter is_send (session w h p user pw [SmtpSendMessage m]) = [] \/
   filter is_send (session w h p user pw [SmtpSendMessage m]) = [SmtpSendMessage m]).
Proof.
  unfold session. destruct (w_smtp_connect w), (w_smtp_starttls w), (w_smtp_login w);
    cbn; auto.
Qed.

(** What [send_application_email] adds to a trace. *)
Lemma send_stage_facts w recipient tr :
  exists evs r,
    SendEmail.send_application_email w recipient tr = (tr ++ evs, r) /\
    forallb send_stage_event evs = true /\
    disciplined w evs /\
    (filter is_send evs = [] \/
     filter is_send evs = [SmtpSendMessage (application w recipient)]) /\
    (existsb is_smtp evs = true ->
     truthy_opt (w_getenv w "GMAIL_APP_PASSWORD") = true /\
     w_resume_exists w = true /\
     w_open_resume w (count is_open tr) = None /\
     exists after, evs = OpenResume (w_resume_path w) :: connecting_single :: after) /\
    (forall x, r = Val x ->
               send_failure w (count is_send tr) recipient = None /\
               last evs (Sleep 0) = sent_line w recipient /\
               filter is_send evs = [SmtpSendMessage (application w recipient)]).
Proof.
  rewrite send_application_email_shape.
  destruct (truthy_opt (w_getenv w "GMAIL_APP_PASSWORD")); cbn [negb].
  2:{ eexists _, _. split; [reflexivity|]. split; [reflexivity|].
      split; [apply disciplined_quiet; reflexivity|]. split; [left; reflexivity|].
      split; [intros X; discriminate X | intros x X; discriminate X]. }
  destruct (w_resume_exists w); cbn [negb].
  2:{ eexists _, _. split; [reflexivity|]. split; [reflexivity|].
      split; [apply disciplined_quiet; reflexivity|]. split; [left; reflexivity|].
      split; [intros X; discriminate X | intros x X; discriminate X]. }
  destruct (w_open_resume w (count is_open tr)) as [e|].
  { eexists _, _. split; [reflexivity|]. split; [reflexivity|].
    split; [apply disciplined_quiet; reflexivity|]. split; [left; reflexivity|].
    split; [intros X; discriminate X | intros x X; discriminate X]. }
  eexists _, _. split; [reflexivity|].
  assert (Htail : forallb is_output
                    (match send_failure w (count is_send tr) recipient with
                     | Some e =>
                         if SendEmail.is_smtp_error (exn_cls e) then [smtp_report e] else []
                     | None => [sent_line w recipient]
                     end) = true).
  { unfold smtp_report. destruct (send_failure w _ _) as [[[] m]|]; reflexivity. }
  destruct (session_send_stage w SendEmail.SMTP_SERVER SendEmail.SMTP_PORT
              SendEmail.SENDER_EMAIL (the (w_getenv w "GMAIL_APP_PASSWORD"))
              (application w recipient)) as [Hs1 Hs2].
  split; [|split; [|split; [|split]]].
  - cbn [forallb]. rewrite forallb_app, Hs1.
    rewrite (forallb_impl is_output send_stage_event _
               ltac:(intros e; unfold send_stage_event; destruct e; simpl; congruence)
               Htail).
    reflexivity.
  - match goal with |- disciplined _ (?a :: ?b :: ?s ++ ?t) =>
      change (disciplined w ([a; b] ++ s ++ t)) end.
    apply disciplined_session; [reflexivity | reflexivity |].
    apply (output_no is_smtp); [|exact Htail]. intros e. destruct e; simpl; congruence.
  - cbn [filter is_send connecting_single]. rewrite filter_app.
    rewrite (proj2 (output_no is_send _
                      ltac:(intros e; destruct e; simpl; congruence) Htail)), app_nil_r.
    exact Hs2.
  - intros _. repeat (split; [reflexivity|]). eexists. reflexivity.
  - intros x Hx. unfold send_failure in *.
    unfold session, session_error in *.
    destruct (w_smtp_connect w);
      [destruct (SendEmail.is_smtp_error _); discriminate Hx|].
    destruct (w_smtp_starttls w);
      [destruct (SendEmail.is_smtp_error _); discriminate Hx|].
    destruct (w_smtp_login w);
      [destruct (SendEmail.is_smtp_error _); discriminate Hx|].
    destruct (w_send_message w _ _);
      [destruct (SendEmail.is_smtp_error _); discriminate Hx|].
    split; [reflexivity|]. split; reflexivity.
Qed.

(** ** The single-recipient script as a whole *)

Lemma single_main_facts w :
  let evs := fst (SendEmail.main w []) in
  filter is_network evs = filter is_network (fst (Unravel.main w [])) ++ filter is_smtp evs /\
  disciplined w evs /\
  (filter is_send evs = [] \/
   exists profiles content members,
     truthy_opt (w_getenv w "GROQ_API_KEY") = true /\
     w_llm_chat w Unravel.SYSTEM_PROMPT (Unravel.build_user_prompt profiles)
     = inr (Some content) /\
     w_json_loads w content = inr (JObject members) /\
     json_truthy (dict_get members (u "founder_name")) = true /\
     json_truthy (dict_get members (u "email")) = true /\
     confirmed w = Some true /\
     filter is_send evs = [SmtpSendMessage (application w (dict_get members (u "email")))]).
Proof.
  cbv zeta.
  destruct (single_main_cases w) as (before & Hnet & Hsm & Hop & Hse & Hcases).
  destruct Hcases as [(r & E) | (profiles & content & members & Hk & Hl & Hj & T1 & T2 & Hc & E)].
  - rewrite E. cbn [fst]. split; [|split].
    + rewrite (filter_nil_of_existsb _ _ Hsm), app_nil_r. exact Hnet.
    + apply disciplined_quiet, Hsm.
    + left. exact Hse.
  - destruct (send_stage_facts w (dict_get members (u "email")) before)
      as (evs & r & Es & Hst & Hd & Hone & _ & _).
    rewrite E, Es.
    assert (Hshape : exists after,
               existsb is_smtp after = false /\ filter is_network after = [] /\
               filter is_send after = [] /\
               fst (match r with
                    | Val _ =>
                        ((before ++ evs)
                           ++ [Stdout nl;
                               Stdout (w_json_dumps w (JObject members) ++ nl)], Val tt)
                    | Exit c => (before ++ evs, Exit c)
                    | Raise e => (before ++ evs, Raise e)
                    end) = before ++ evs ++ after).
    { destruct r; [eexists [_; _] | exists [] | exists []]; cbn [fst];
        rewrite ?app_nil_r, <- ?events_assoc; repeat split; reflexivity. }
    destruct Hshape as (after & A1 & A2 & A3 & ->).
    split; [|split].
    + rewrite !filter_app, A2, (filter_nil_of_existsb _ _ A1), !app_nil_r.
      rewrite (filter_nil_of_existsb _ _ Hsm), Hnet. cbn [app].
      rewrite (send_stage_network _ Hst). reflexivity.
    + apply disciplined_frame; assumption.
    + rewrite !filter_app, Hse, A3, app_nil_r. cbn [app].
      destruct Hone as [H0|H1]; [left; exact H0|].
      right. exists profiles, content, members. auto 10.
Qed.

(** ** Unravel.py as a script *)

Lemma scrape_no_llm evs : forallb scrape_event evs = true -> filter is_llm evs = [].
Proof.
  induction evs as [|e evs IH]; intros H; [reflexivity|].
  simpl in H. apply andb_prop in H. destruct H as [He H].
  simpl. rewrite (IH H). unfold scrape_event in He. destruct e; simpl in *; congruence.
Qed.

Lemma unravel_main_facts w :
  forallb agent_event (fst (Unravel.main w [])) = true /\
  count is_llm (fst (Unravel.main w [])) <= 1 /\
  (existsb is_llm (fst (Unravel.main w [])) = true ->
   truthy_opt (w_getenv w "GROQ_API_KEY") = true) /\
  (snd (Unravel.main w []) = Val tt ->
   exists profiles result,
     snd (Unravel.scrape_unravel_profiles w []) = Val profiles /\
     snd (Unravel.extract_founder_info w profiles []) = Val result /\
     last (fst (Unravel.main w [])) (Sleep 0) = Stdout (w_json_dumps w result ++ nl)) /\
  (snd (Unravel.main w []) <> Val tt ->
   exit_status (snd (Unravel.main w [])) = 1%Z /\
   forall profiles result,
     snd (Unravel.scrape_unravel_profiles w []) = Val profiles ->
     snd (Unravel.extract_founder_info w profiles []) <> Val result).
Proof.
  unfold Unravel.main. rewrite agent_bind. cbn [app].
  pose proof (fetch_events_scrape w Unravel.UNRAVEL_URLS) as Hs.
  pose proof (scrape_is_agent _ Hs) as Hf.
  pose proof (scrape_no_llm _ Hs) as Hl.
  destruct (fetch_pure w Unravel.UNRAVEL_URLS []) as [e|[|p ps]] eqn:Efp; cbn [fst snd].
  - split; [cbn [forallb]; rewrite Hf; reflexivity|].
    unfold count. cbn [filter is_llm existsb orb]. rewrite Hl.
    rewrite (existsb_of_filter_nil _ _ Hl).
    split; [cbn; lia|]. split; [discriminate|]. split; [discriminate|].
    intros _. split; [reflexivity|].
    intros pr res. rewrite scrape_shape, Efp. discriminate.
  - split; [cbn [forallb]; rewrite forallb_app, Hf; reflexivity|].
    unfold count. cbn [filter is_llm existsb orb]. rewrite filter_app, existsb_app, Hl.
    rewrite (existsb_of_filter_nil _ _ Hl).
    split; [cbn; lia|]. split; [discriminate|]. split; [discriminate|].
    intros _. split; [reflexivity|].
    intros pr res. rewrite scrape_shape, Efp. discriminate.
  - set (profiles := join (nl ++ nl) (p :: ps)).
    destruct (extract_outcome w profiles []) as (evs & r & E & Hc & Hev & Hk & _ & Hx & _).
    cbn [app] in E. rewrite E. cbn [fst snd].
    assert (Hevs : forallb agent_event evs = true).
    { revert Hev. apply forallb_impl. intros e. unfold agent_event.
      destruct e; simpl; congruence. }
    assert (Hcount : forall b1 b2 extra,
               filter is_llm extra = [] ->
               filter is_llm (Stdout b1 :: fetch_events w Unravel.UNRAVEL_URLS
                                ++ fetched profiles :: Stdout b2 :: evs ++ extra)
               = filter is_llm evs).
    { intros b1 b2 extra Hx'. cbn [filter is_llm]. rewrite filter_app, Hl.
      cbn [filter is_llm fetched app]. rewrite filter_app, Hx', app_nil_r. reflexivity. }
    assert (Hall : forall b1 b2 extra,
               forallb agent_event extra = true ->
               forallb agent_event (Stdout b1 :: fetch_events w Unravel.UNRAVEL_URLS
                                      ++ fetched profiles :: Stdout b2 :: evs ++ extra)
               = true).
    { intros b1 b2 extra Hx'. cbn [forallb]. rewrite forallb_app, Hf. cbn [forallb].
      rewrite forallb_app, Hevs, Hx'. reflexivity. }
    assert (Hex : forall l, existsb is_llm l = true -> filter is_llm l = filter is_llm evs ->
                            existsb is_llm evs = true).
    { intros l H1 H2. destruct (existsb is_llm evs) eqn:X; [reflexivity|].
      apply filter_nil_of_existsb in X. rewrite X in H2.
      apply existsb_of_filter_nil in H2. congruence. }
    destruct r as [result|c|e]; cbv beta iota; unfold print, emit; cbn [fst snd].
    + split; [norm_events; apply Hall; reflexivity|].
      split; [unfold count; norm_events; rewrite Hcount by reflexivity; exact Hc|].
      split.
      { intros H. apply Hk, (Hex _ H). norm_events. apply Hcount. reflexivity. }
      split.
      * intros _. exists profiles, result.
        split; [rewrite scrape_shape, Efp; reflexivity|].
        split; [rewrite E; reflexivity|].
        apply last_snoc.
      * intros H. congruence.
    + rewrite <- (app_nil_r evs).
      split; [apply Hall; reflexivity|].
      split; [unfold count; rewrite Hcount by reflexivity; exact Hc|].
      split.
      { intros H. apply Hk, (Hex _ H). apply Hcount. reflexivity. }
      split; [discriminate|]. intros _.
      split; [destruct (Hx c eq_refl) as [-> _]; reflexivity|].
      intros pr res. rewrite scrape_shape, Efp. intros H0.
      assert (Hpr : pr = profiles)
        by (cbv beta iota delta [snd] in H0; unfold profiles; congruence).
      rewrite Hpr, E. discriminate.
    + rewrite <- (app_nil_r evs).
      split; [apply Hall; reflexivity|].
      split; [unfold count; rewrite Hcount by reflexivity; exact Hc|].
      split.
      { intros H. apply Hk, (Hex _ H). apply Hcount. reflexivity. }
      split; [discriminate|]. intros _.
      split; [reflexivity|].
      intros pr res. rewrite scrape_shape, Efp. intros H0.
      assert (Hpr : pr = profiles)
        by (cbv beta iota delta [snd] in H0; unfold profiles; congruence).
      rewrite Hpr, E. discriminate.
Qed.

(** ** Failures of the session of the single-recipient script *)

Lemma send_application_email_failure w recipient tr e :
  truthy_opt (w_getenv w "GMAIL_APP_PASSWORD") = true ->
  w_resume_exists w = true ->
  w_open_resume w (count is_open tr) = None ->
  send_failure w (count is_send tr) recipient = Some e ->
  exists evs,
    SendEmail.send_application_email w recipient tr
    = (tr ++ evs, if SendEmail.is_smtp_error (exn_cls e) then Exit 1 else Raise e) /\
    (SendEmail.is_smtp_error (exn_cls e) = true -> last evs (Sleep 0) = smtp_report e) /\
    (SendEmail.is_smtp_error (exn_cls e) = false -> existsb is_stderr evs = false) /\
    (w_smtp_connect w = None -> existsb is_quit evs = true) /\
    filter is_send evs
    = match session_error w with
      | Some _ => []
      | None => [SmtpSendMessage (application w recipient)]
      end.
Proof.
  intros Hpw Hres Hopen Hfail. rewrite send_application_email_shape, Hpw, Hres, Hopen, Hfail.
  cbn [negb]. eexists. split; [reflexivity|].
  unfold send_failure in Hfail. unfold session, session_error, smtp_report in *.
  destruct (w_smtp_connect w) as [e1|].
  { injection Hfail as ->. destruct e as [[] msg]; cbn;
      repeat split; try reflexivity; discriminate. }
  destruct (w_smtp_starttls w) as [e1|].
  { injection Hfail as ->. destruct e as [[] msg]; cbn;
      repeat split; try reflexivity; discriminate. }
  destruct (w_smtp_login w) as [e1|].
  { injection Hfail as ->. destruct e as [[] msg]; cbn;
      repeat split; try reflexivity; discriminate. }
  destruct e as [[] msg]; cbn; repeat split; try reflexivity; discriminate.
Qed.

(** ** An answer that cannot be used *)


Lemma text_eqb_eq a b : text_eqb a b = true -> a = b.
Proof. unfold text_eqb. destruct (list_eq_dec N.eq_dec a b); [auto | discriminate]. Qed.

Lemma dict_get_missing members key :
  (forall v, ~ In (key, v) members) -> dict_get members key = JNull.
Proof.
  induction members as [|[k v] members IH]; intros H; [reflexivity|].
  simpl. destruct (text_eqb k key) eqn:E.
  - apply text_eqb_eq in E. subst. exfalso. apply (H v). left. reflexivity.
  - apply IH. intros v' Hin. apply (H v'). right. exact Hin.
Qed.

Lemma single_main_unusable w raw result :
  truthy_opt (w_getenv w "GROQ_API_KEY") = true ->
  (forall profiles,
      w_llm_chat w Unravel.SYSTEM_PROMPT (Unravel.build_user_prompt profiles)
      = inr (Some raw)) ->
  raw <> [] ->
  w_json_loads w raw = inr result ->
  usable result = false ->
  exit_status (snd (SendEmail.main w [])) = 1%Z /\
  forallb agent_event (fst (SendEmail.main w [])) = true /\
  (forall all_text,
      fetch_pure w Unravel.UNRAVEL_URLS [] = inr all_text -> all_text <> [] ->
      match result with
      | JObject _ =>
          snd (SendEmail.main w []) = Exit 1 /\
          last (fst (SendEmail.main w [])) (Sleep 0) = could_not_extract
      | _ => snd (SendEmail.main w []) = Raise (attribute_error result)
      end).
Proof.
  intros Hkey Hllm Hraw Hjson Hu.
  assert (Ht : truthy_opt (Some raw) = true) by (destruct raw; [congruence | reflexivity]).
  unfold SendEmail.main. rewrite agent_bind. cbn [app]. cbv zeta.
  pose proof (scrape_is_agent _ (fetch_events_scrape w Unravel.UNRAVEL_URLS)) as Hf.
  destruct (fetch_pure w Unravel.UNRAVEL_URLS []) as [e|[|p ps]]; cbn [fst snd].
  - split; [reflexivity|]. split; [cbn [forallb]; rewrite Hf; reflexivity|].
    intros all_text X. discriminate X.
  - split; [reflexivity|]. split; [cbn [forallb]; rewrite forallb_app, Hf; reflexivity|].
    intros all_text [= <-] X. congruence.
  - rewrite extract_founder_info_run, Hkey, Hllm. cbn [negb]. cbv zeta.
    rewrite Ht. cbn [negb the]. rewrite Hjson. cbn [fst snd app].
    match goal with |- context [bind (SendEmail.get result _) _ ?t] =>
      destruct (single_tail w result t) as (offer & Hoff & Et); rewrite Et; clear Et end.
    assert (Hall : forall extra,
               forallb agent_event extra = true ->
               forallb agent_event
                 (Stdout (u "🌐 Step 1: Scraping unravel.tech for founder profiles..." ++ nl)
                    :: fetch_events w Unravel.UNRAVEL_URLS
                    ++ fetched (join (nl ++ nl) (p :: ps))
                    :: Stdout (u "🤖 Step 2: Extracting founder info with LLM agent..." ++ nl)
                    :: LLMRequest Unravel.SYSTEM_PROMPT
                         (Unravel.build_user_prompt (join (nl ++ nl) (p :: ps)))
                    :: extra) = true).
    { intros extra Hx. cbn [forallb]. rewrite forallb_app, Hf. cbn [forallb]. exact Hx. }
    destruct result as [| | | | |items|members]; cbn [fst snd exit_status];
      try (split; [reflexivity|]; split; [apply Hall; reflexivity|];
           intros all_text _ _; reflexivity).
    cbn [usable] in Hu.
    assert (Hfalsy : negb (json_truthy (dict_get members (u "founder_name")))
                     || negb (json_truthy (dict_get members (u "email"))) = true).
    { destruct (json_truthy (dict_get members (u "founder_name"))),
        (json_truthy (dict_get members (u "email"))); cbn in *; congruence. }
    rewrite Hfalsy. cbn [fst snd exit_status].
    split; [reflexivity|]. split; [norm_events; apply Hall; reflexivity|].
    intros all_text _ _. split; [reflexivity | apply last_snoc].
Qed.

Local Transparent u.

(* ===================================================================== *)
(** * The claims on what the readers emit *)
(* ===================================================================== *)

(** These two claims rest on the shape of what [extract_email] returns,
    established in the facts above. *)

(** C3 (counterexample). The repeating-triplet reader drops a group whose
    email is recognised when its name cell is empty; the fixed-column reader
    makes a contact of the cell [mailto:x], whose email [x] is no
    syntactically valid address (it has no at-sign); and a name cell of
    white space only is stored as the empty name, not as the placeholder. *)
Lemma C3_dropped_group_and_invalid_address :
  cell_email (CStr (py "jo@acme.com")) = Some (py "jo@acme.com")
  /\ read_contacts_sheet4_row
       [CStr (py "Acme"); CNone; CStr (py "555"); CStr (py "jo@acme.com")] []
     = Some []
  /\ read_contacts_row
       [CStr (py "Acme"); CStr (py "Jo Smith"); CNone; CNone; CStr (py "mailto:x")] []
     = Some [{| company := py "Acme"; name := py "Jo Smith"; email := py "x" |}]
  /\ contains "@" (py "x") = false
  /\ read_contacts_row
       [CStr (py "Acme"); CStr (py "  "); CNone; CNone; CStr (py "jo@acme.com")] []
     = Some [{| company := py "Acme"; name := []; email := py "jo@acme.com" |}].
Proof. repeat split; vm_compute; reflexivity. Qed.

(** C3 (amended). For every row and each of the three readers, a contact is
    added only with the email that normalization returned for a cell of the
    row, and that email is not empty, lower-cased and trimmed. It is what
    [extract_email] made of the cell, which need not be a syntactically
    valid address: when the trimmed cell text contains [mailto:] followed by
    a character other than white space, the double quote and the comma, the
    email is a lower-cased non-empty run of such characters standing right
    after a [mailto:], whatever that run is; only when the mail-link pattern
    does not occur is it the lower-cased occurrence of an address
    local@domain.tld, with a non-empty local part over [[\w.+-]], a
    non-empty domain over [[\w.-]] and a non-empty last label over [\w].

    The fixed-column reader adds a contact for every row whose column 4
    holds a recognised email; the scan-and-pair reader adds one contact per
    recognised email of the scanned cells, in order, with a name that is
    never empty; neither rejects a row or a cell for its name or company.
    A company or name cell that is falsy (None, the empty string, 0, False)
    gives the placeholder; any other cell gives its trimmed text, which is
    empty for a cell of white space only. The repeating-triplet reader
    treats the company in the same way, adds the contact of a group that
    has a name and a recognised email, and skips a group whose name cell is
    falsy or blank, even when its email is recognised. *)
Theorem C3_contact_needs_email :
  (forall values contacts out c,
      read_contacts_row values contacts = Some out \/
      read_contacts_sheet4_row values contacts = Some out \/
      read_contacts_sheet2_row values contacts = Some out ->
      In c out ->
      In c contacts \/
      exists v, In v values /\ v <> CNone /\ extract_email (py_str v) = Some (email c)) /\
  (forall raw e, extract_email raw = Some e -> e <> [] /\ lower e = e /\ strip e = e) /\
  (forall raw e,
      extract_email raw = Some e ->
      (exists pre g post,
          strip raw = pre ++ py "mailto:" ++ g ++ post /\
          g <> [] /\ forallb addr_char g = true /\ e = lower g) \/
      (~ Re.occurs re_mailto (strip raw) /\
       exists pre l d t post,
          strip raw = pre ++ (l ++ py "@" ++ d ++ py "." ++ t) ++ post /\
          l <> [] /\ forallb local_char l = true /\
          d <> [] /\ forallb domain_char d = true /\
          t <> [] /\ forallb isword t = true /\
          e = lower (l ++ py "@" ++ d ++ py "." ++ t))) /\
  (forall values contacts v0 v1 v4 e,
      nth_error values 0 = Some v0 ->
      nth_error values 1 = Some v1 ->
      nth_error values 4 = Some v4 ->
      cell_email v4 = Some e ->
      read_contacts_row values contacts
      = Some (contacts ++ [{| company := text_or v0 (py "your company");
                              name := text_or v1 (py "Hiring Manager");
                              email := e |}])) /\
  (forall v placeholder, truthy v = false -> text_or v placeholder = placeholder) /\
  (forall v placeholder, truthy v = true -> text_or v placeholder = strip (py_str v)) /\
  (forall v0 v1 rest contacts,
      exists added,
        read_contacts_sheet2_row (v0 :: v1 :: rest) contacts = Some (contacts ++ added) /\
        map email added = scanned_emails rest /\
        Forall (fun c => company c = text_or v1 (py "your company")) added /\
        Forall (fun c => name c <> []) added) /\
  (forall v0 rest contacts,
      read_contacts_sheet4_row (v0 :: rest) contacts
      = Some (contacts ++ flat_map (group_contacts (text_or v0 (py "your company")))
                                   (triplets rest))) /\
  (forall company n p e nm em,
      cell_name n = Some nm -> cell_email e = Some em ->
      group_contacts company (n, p, e) = [{| company := company; name := nm; email := em |}]) /\
  (forall company n p e, cell_name n = None -> group_contacts company (n, p, e) = []) /\
  (forall v, cell_name v = None <-> truthy v = false \/ strip (py_str v) = []).
Proof.
  split; [exact emitted_has_email|].
  split; [exact extract_email_normal|].
  split.
  { intros raw e H. apply extract_email_cases in H.
    destruct H as [(g & Hne & Hg & He & pre & post & Es) |
                   (Hn & l & d & t & He & Hl & Fl & Hd & Fd & Ht & Ft & pre & post & Es)].
    - left. exists pre, g, post. auto.
    - right. split; [apply search_none; exact Hn|].
      exists pre, l, d, t, post. auto 10. }
  split.
  { intros values contacts v0 v1 v4 e H0 H1 H4 He.
    rewrite read_contacts_row_spec, H0, H1, H4, He. reflexivity. }
  split; [exact text_or_missing|].
  split; [intros v placeholder H; unfold text_or; rewrite H; reflexivity|].
  split.
  { intros v0 v1 rest contacts.
    exists (pair_cells (text_or v1 (py "your company")) AwaitingName rest).
    split; [rewrite sheet2_row_refines; reflexivity|].
    split; [apply pair_cells_emails|].
    split; [apply pair_cells_company | apply pair_cells_names; discriminate]. }
  split.
  { intros v0 rest contacts. rewrite sheet4_row_refines. reflexivity. }
  split.
  { intros company n p e nm em Hn He. unfold group_contacts. simpl. rewrite Hn, He.
    reflexivity. }
  split.
  { intros company n p e Hn. unfold group_contacts. simpl. rewrite Hn. reflexivity. }
  intros v. unfold cell_name. destruct (truthy v); cbn [andb].
  - destruct (strip (py_str v)) as [|c s]; cbn [nonempty]; split.
    + auto.
    + reflexivity.
    + discriminate.
    + intros [H|H]; discriminate H.
  - split; [auto | reflexivity].
Qed.

(** C6 (counterexample). The cell [mailto:abc] is not purely numeric, has
    no slash, is longer than 2 and has no at-sign, so it qualifies as a
    candidate name by the four conditions; yet the reader does not keep it
    as the pending name: it emits the contact of the address [abc], and the
    email that follows is paired with the placeholder name. *)
Lemma C6_mail_link_cell_is_no_name :
  is_candidate_name (strip (py_str (CStr (py "mailto:abc")))) = true
  /\ contains "@" (py "abc") = false
  /\ read_contacts_sheet2_row
       [CInt 1; CStr (py "Acme"); CStr (py "mailto:abc"); CStr (py "x@y.zz")] []
     = Some [{| company := py "Acme"; name := py "Hiring Manager"; email := py "abc" |};
             {| company := py "Acme"; name := py "Hiring Manager";
                email := py "x@y.zz" |}].
Proof. repeat split; vm_compute; reflexivity. Qed.

(** C6 (amended). For every row, the scan-and-pair reader takes the company
    from column 1 and runs, over the cells from column 2 on, the two-state
    machine of the specification, with the email test first: a cell for
    which normalization returns an email emits one contact with the pending
    name, or with the placeholder when none is pending, and clears the
    pending name; only a cell for which normalization returns nothing is
    put to the name test, and it becomes the pending name iff it is not
    purely numeric, has no slash, is longer than 2 and has no at-sign, and
    only when no name is pending. A cell that passes the name test is taken
    for an email only when it holds a mail link: its trimmed text contains
    [mailto:] followed by a character other than white space, the double
    quote and the comma, and the email is a lower-cased run of such
    characters standing right after a [mailto:]; and a text that holds a
    mail link is always taken for an email, the lower-cased run that
    follows its first [mailto:]. The two example rows yield exactly the
    contacts of the specification. *)
Theorem C6_scan_and_pair :
  (forall values contacts,
      read_contacts_sheet2_row values contacts
      = option_map (app contacts) (scan_pair_row values)) /\
  (forall v0 v1 rest,
      scan_pair_row (v0 :: v1 :: rest)
      = Some (pair_cells (text_or v1 (py "your company")) AwaitingName rest)) /\
  (forall company st v e,
      v <> CNone -> extract_email (strip (py_str v)) = Some e ->
      pair_step company st v
      = (AwaitingName, [{| company := company; name := pending_name st; email := e |}])) /\
  (forall company st v,
      v <> CNone -> extract_email (strip (py_str v)) = None ->
      pair_step company st v
      = (match st with
         | AwaitingName =>
             if is_candidate_name (strip (py_str v)) then Pending (strip (py_str v))
             else AwaitingName
         | Pending n => Pending n
         end, [])) /\
  (forall t,
      is_candidate_name t = true <->
      isdigit t = false /\ contains "/" t = false /\ 2 < length t /\ contains "@" t = false) /\
  (forall t e,
      is_candidate_name t = true -> extract_email t = Some e ->
      exists pre g post,
        strip t = pre ++ py "mailto:" ++ g ++ post /\
        g <> [] /\ forallb addr_char g = true /\ e = lower g) /\
  (forall t pre g post,
      strip t = pre ++ py "mailto:" ++ g ++ post ->
      contains ":" pre = false ->
      g <> [] -> forallb addr_char g = true -> stops addr_char post ->
      extract_email t = Some (lower g)) /\
  read_contacts_sheet2_row
    [CStr (py "1"); CStr (py "Acme"); CStr (py "Jo Smith"); CStr (py "jo@acme.com")] []
  = Some [{| company := py "Acme"; name := py "Jo Smith"; email := py "jo@acme.com" |}] /\
  read_contacts_sheet2_row [CStr (py "1"); CStr (py "Acme"); CStr (py "jo@acme.com")] []
  = Some [{| company := py "Acme"; name := py "Hiring Manager";
             email := py "jo@acme.com" |}].
Proof.
  split; [exact sheet2_row_refines|].
  split; [reflexivity|].
  split.
  { intros company st v e Hv He. destruct v; try congruence; simpl in *; rewrite He;
      reflexivity. }
  split.
  { intros company st v Hv He. destruct v; try congruence; simpl in *; rewrite He;
      destruct (is_candidate_name _); destruct st; reflexivity. }
  split.
  { intros t. unfold is_candidate_name. rewrite !andb_true_iff, !negb_true_iff, Nat.ltb_lt.
    tauto. }
  split.
  { intros t e Hc He. apply extract_email_cases in He.
    destruct He as [(g & Hne & Hg & He & pre & post & Es) |
                    (_ & l & d & t' & _ & _ & _ & _ & _ & _ & _ & pre & post & Es)].
    - exists pre, g, post. auto.
    - exfalso. unfold is_candidate_name in Hc.
      rewrite !andb_true_iff, !negb_true_iff in Hc. destruct Hc as [_ Hat].
      apply contains_strip in Hat. rewrite Es in Hat.
      rewrite !contains_app in Hat. cbn in Hat. rewrite !orb_true_r in Hat.
      discriminate Hat. }
  split; [exact extract_email_mail_link|].
  split; vm_compute; reflexivity.
Qed.

(* ===================================================================== *)
(** * Further properties of the code *)
(* ===================================================================== *)

(** ** Email normalization *)

(** X1. When the trimmed cell text holds [mailto:] after a prefix without a
    colon, [extract_email] returns what follows it up to the first white
    space, double quote or comma (or the end), lower-cased: the address of
    a HYPERLINK formula, whatever the text after it. *)
Theorem X1_mail_link_address (raw pre addr post : pystr)
  (Hraw : strip raw = pre ++ py "mailto:" ++ addr ++ post)
  (Hpre : contains ":" pre = false)
  (Hne : addr <> [])
  (Haddr : forallb addr_char addr = true)
  (Hpost : stops addr_char post) :
  extract_email raw = Some (lower addr).
Proof. exact (extract_email_mail_link raw pre addr post Hraw Hpre Hne Haddr Hpost). Qed.

(** The formula of a spreadsheet link to Jo@Acme.com. *)
Lemma X1_hyperlink_formula :
  extract_email (py "=HYPERLINK(" ++ [dquote] ++ py "mailto:Jo@Acme.com" ++ [dquote]
                   ++ py "," ++ [dquote] ++ py "Jo" ++ [dquote] ++ py ")")
  = Some (py "jo@acme.com").
Proof.
  exact (X1_mail_link_address
           (py "=HYPERLINK(" ++ [dquote] ++ py "mailto:Jo@Acme.com" ++ [dquote]
              ++ py "," ++ [dquote] ++ py "Jo" ++ [dquote] ++ py ")")
           (py "=HYPERLINK(" ++ [dquote]) (py "Jo@Acme.com")
           ([dquote] ++ py "," ++ [dquote] ++ py "Jo" ++ [dquote] ++ py ")")
           eq_refl eq_refl ltac:(discriminate) eq_refl eq_refl).
Defined.

(** X2. A bare address is returned whole and lower-cased: when the trimmed
    text has no colon and reads [pre ++ local@domain.tld ++ post], where
    [pre] has no at-sign and does not end in a character of the local part,
    and [post] does not start with a character of the domain, the result is
    [local@domain.tld] in lower case. *)
Theorem X2_bare_address (raw pre l d t post : pystr)
  (Hraw : strip raw = pre ++ l ++ py "@" ++ d ++ py "." ++ t ++ post)
  (Hat : contains "@" pre = false)
  (Hend : stops local_char (rev pre))
  (Hl : l <> []) (Fl : forallb local_char l = true)
  (Hd : d <> []) (Fd : forallb domain_char d = true)
  (Ht : t <> []) (Ft : forallb isword t = true)
  (Hpost : stops domain_char post)
  (Hc1 : contains ":" pre = false) (Hc2 : contains ":" post = false) :
  extract_email raw = Some (lower (l ++ py "@" ++ d ++ py "." ++ t)).
Proof.
  exact (extract_email_bare_address raw pre l d t post
           Hraw Hat Hend Hl Fl Hd Fd Ht Ft Hpost Hc1 Hc2).
Qed.

(** An address between angle brackets, with white space around. *)
Lemma X2_bracketed_address :
  extract_email (py "  <Jo.Smith+hr@Mail.Acme.co.in>, ")
  = Some (py "jo.smith+hr@mail.acme.co.in").
Proof.
  exact (X2_bare_address (py "  <Jo.Smith+hr@Mail.Acme.co.in>, ")
           (py "<") (py "Jo.Smith+hr") (py "Mail.Acme.co") (py "in") (py ">,")
           eq_refl eq_refl eq_refl ltac:(discriminate) eq_refl ltac:(discriminate) eq_refl
           ltac:(discriminate) eq_refl eq_refl eq_refl eq_refl).
Defined.

Lemma addr_char_spec c :
  addr_char c = true -> isspace c = false /\ c <> dquote /\ c <> ","%char.
Proof.
  unfold addr_char. rewrite negb_true_iff. intros H.
  apply orb_false_elim in H. destruct H as [H H3].
  apply orb_false_elim in H. destruct H as [H1 H2].
  split; [exact H1|]. split; intros ->; rewrite Ascii.eqb_refl in *; discriminate.
Qed.

(** X3. Whatever [extract_email] returns holds no white space, no double
    quote and no comma. *)
Theorem X3_address_alphabet (raw e : pystr) (H : extract_email raw = Some e) :
  forallb addr_char e = true /\
  forall c, In c e -> isspace c = false /\ c <> dquote /\ c <> ","%char.
Proof.
  pose proof (extract_email_alphabet raw e H) as Ha. split; [exact Ha|].
  intros c Hin. apply addr_char_spec. rewrite forallb_forall in Ha. exact (Ha c Hin).
Qed.

Lemma X3_upper_case_address : forallb addr_char (py "a@b.com") = true.
Proof.
  exact (proj1 (X3_address_alphabet (py " A@B.COM ") (py "a@b.com")
                  ltac:(vm_compute; reflexivity))).
Defined.

(** X4. Without a colon in the cell text there is no mail link, and a
    result is the lower-cased text of an occurrence of the generic pattern
    in the trimmed cell text: a non-empty local part over [[\w.+-]], one
    at-sign, and a domain that ends in a dot and a non-empty word. *)
Theorem X4_plain_result_is_lowered_match (raw e : pystr)
  (Hcolon : contains ":" raw = false)
  (H : extract_email raw = Some e) :
  exists pre l d t post,
    strip raw = pre ++ (l ++ py "@" ++ d ++ py "." ++ t) ++ post /\
    e = lower (l ++ py "@" ++ d ++ py "." ++ t) /\
    l <> [] /\ forallb local_char l = true /\
    d <> [] /\ forallb domain_char d = true /\
    t <> [] /\ forallb isword t = true /\
    length (filter (Ascii.eqb "@") (l ++ py "@" ++ d ++ py "." ++ t)) = 1.
Proof.
  apply extract_email_cases in H.
  destruct H as [(g & _ & _ & _ & pre & post & Es) |
                 (_ & l & d & t & He & Hl & Fl & Hd & Fd & Ht & Ft & pre & post & Es)].
  - exfalso. apply contains_strip in Hcolon. rewrite Es in Hcolon.
    rewrite !contains_app in Hcolon. cbn in Hcolon. rewrite orb_true_r in Hcolon.
    discriminate Hcolon.
  - exists pre, l, d, t, post. repeat (split; [assumption|]).
    apply shape_one_at; assumption.
Qed.

Lemma X4_match_in_upper_case :
  exists pre l d t post,
    strip (py " A@B.COM ") = pre ++ (l ++ py "@" ++ d ++ py "." ++ t) ++ post /\
    py "a@b.com" = lower (l ++ py "@" ++ d ++ py "." ++ t) /\
    l <> [] /\ forallb local_char l = true /\
    d <> [] /\ forallb domain_char d = true /\
    t <> [] /\ forallb isword t = true /\
    length (filter (Ascii.eqb "@") (l ++ py "@" ++ d ++ py "." ++ t)) = 1.
Proof.
  exact (X4_plain_result_is_lowered_match (py " A@B.COM ") (py "a@b.com") eq_refl
           ltac:(vm_compute; reflexivity)).
Defined.

(** X5. A cell text with neither an at-sign nor a colon never yields an
    address. *)
Theorem X5_no_at_no_colon_no_address (raw : pystr)
  (Hat : contains "@" raw = false) (Hcolon : contains ":" raw = false) :
  extract_email raw = None.
Proof. exact (extract_email_needs_at_or_colon raw Hat Hcolon). Qed.

Lemma X5_phone_note : extract_email (py "call me on +91 98765 43210") = None.
Proof.
  exact (X5_no_at_no_colon_no_address (py "call me on +91 98765 43210") eq_refl eq_refl).
Defined.

(** X6. A cell that holds an integer never yields an address, and a cell
    that holds a non-negative integer (a serial or phone number) is passed
    over by the scan of [read_contacts_sheet2]: it adds no contact and is no
    candidate name. *)
Theorem X6_numbers_are_passed_over :
  (forall z, extract_email (str_of_Z z) = None /\ cell_email (CInt z) = None) /\
  (forall company z rest last_name contacts,
      (0 <= z)%Z ->
      scan_cells company (CInt z :: rest) last_name contacts
      = scan_cells company rest last_name contacts).
Proof.
  split.
  - intros z. split; [apply extract_email_number|].
    unfold cell_email. destruct (truthy (CInt z)); [apply extract_email_number | reflexivity].
  - intros company z rest last_name contacts Hz. apply scan_cells_number, Hz.
Qed.

(** ** The readers *)

(** X7. Without the workbook file each of the three readers prints the
    error line on stderr and exits with status 1; the workbook is not
    loaded. *)
Theorem X7_readers_need_the_workbook (w : world) (i : nat) (tr : list event)
  (H : w_excel_exists w = false) :
  read_contacts w i tr = (tr ++ [excel_missing w], Exit 1) /\
  read_contacts_sheet4 w tr = (tr ++ [excel_missing w], Exit 1) /\
  read_contacts_sheet2 w i tr = (tr ++ [excel_missing w], Exit 1).
Proof.
  rewrite read_contacts_run, read_contacts_sheet4_run, read_contacts_sheet2_run, H.
  auto.
Qed.

Lemma X7_workbook_missing :
  snd (read_contacts_sheet2 (no_workbook Scenario.sunny) 4 []) = Exit 1.
Proof.
  exact (f_equal snd (proj2 (proj2 (X7_readers_need_the_workbook
                                      (no_workbook Scenario.sunny) 4 [] eq_refl)))).
Defined.

(** X8. With the workbook loaded, a reader does nothing but load it, and
    its result is the concatenation, in row order, of the contacts of the
    rows: of the rows after the first for [read_contacts] and
    [read_contacts_sheet2], of all rows of worksheet 5 for
    [read_contacts_sheet4]. A row too short for the layout makes the whole
    read end in an IndexError. *)
Theorem X8_readers_concatenate_rows
  (w : world) (i : nat) (tr : list event) (worksheets : list sheet)
  (Hfile : w_excel_exists w = true)
  (Hload : w_load_workbook w = inr worksheets) :
  (forall ws, nth_error worksheets i = Some ws ->
     read_contacts w i tr
     = (tr ++ [LoadWorkbook (w_excel_path w)],
        match all_rows fixed_row (skipn 1 ws) with
        | Some cs => Val cs
        | None => Raise index_error
        end) /\
     read_contacts_sheet2 w i tr
     = (tr ++ [LoadWorkbook (w_excel_path w)],
        match all_rows scan_pair_row (skipn 1 ws) with
        | Some cs => Val cs
        | None => Raise index_error
        end)) /\
  (forall ws, nth_error worksheets 5 = Some ws ->
     read_contacts_sheet4 w tr
     = (tr ++ [LoadWorkbook (w_excel_path w)],
        match all_rows triplet_row ws with
        | Some cs => Val cs
        | None => Raise index_error
        end)).
Proof.
  rewrite read_contacts_run, read_contacts_sheet4_run, read_contacts_sheet2_run.
  rewrite Hfile, Hload. cbn [negb].
  split; [intros ws ->; auto | intros ws ->; reflexivity].
Qed.

Lemma X8_example_workbook :
  read_contacts_sheet2 Scenario.sunny 4 []
  = ([LoadWorkbook (u "Email Excel.xlsx")], Val [Scenario.jo])
  /\ read_contacts_sheet4 Scenario.sunny []
     = ([LoadWorkbook (u "Email Excel.xlsx")], Val [Scenario.al]).
Proof.
  pose proof (X8_readers_concatenate_rows Scenario.sunny 4 [] Scenario.workbook
                eq_refl eq_refl) as [H2 H4].
  split.
  - exact (proj2 (H2 _ eq_refl)).
  - exact (H4 _ eq_refl).
Defined.

(** X9. With the workbook loaded, a reader ends in an IndexError exactly
    when its worksheet index is out of range or one of the rows it reads is
    too short: fewer than five cells for [read_contacts], fewer than two for
    [read_contacts_sheet2], none for [read_contacts_sheet4]. *)
Theorem X9_index_error_when_too_short
  (w : world) (i : nat) (tr : list event) (worksheets : list sheet)
  (Hfile : w_excel_exists w = true)
  (Hload : w_load_workbook w = inr worksheets) :
  (snd (read_contacts w i tr) = Raise index_error <->
   match nth_error worksheets i with
   | Some ws => Exists (fun values => length values < 5) (skipn 1 ws)
   | None => True
   end) /\
  (snd (read_contacts_sheet2 w i tr) = Raise index_error <->
   match nth_error worksheets i with
   | Some ws => Exists (fun values => length values < 2) (skipn 1 ws)
   | None => True
   end) /\
  (snd (read_contacts_sheet4 w tr) = Raise index_error <->
   match nth_error worksheets 5 with
   | Some ws => Exists (fun values => values = []) ws
   | None => True
   end).
Proof.
  rewrite read_contacts_run, read_contacts_sheet4_run, read_contacts_sheet2_run.
  rewrite Hfile, Hload. cbn [negb snd].
  split; [|split].
  - destruct (nth_error worksheets i) as [ws|]; [|tauto].
    rewrite <- (Exists_iff _ _ _ fixed_row_none), <- all_rows_none.
    destruct (all_rows fixed_row (skipn 1 ws)); split; congruence.
  - destruct (nth_error worksheets i) as [ws|]; [|tauto].
    rewrite <- (Exists_iff _ _ _ scan_pair_row_none), <- all_rows_none.
    destruct (all_rows scan_pair_row (skipn 1 ws)); split; congruence.
  - destruct (nth_error worksheets 5) as [ws|]; [|tauto].
    rewrite <- (Exists_iff _ _ _ triplet_row_none), <- all_rows_none.
    destruct (all_rows triplet_row ws); split; congruence.
Qed.

(** The rows of worksheet 4 of the example have four cells. *)
Lemma X9_four_columns_are_too_few :
  snd (read_contacts Scenario.sunny 4 []) = Raise index_error.
Proof.
  apply (proj1 (X9_index_error_when_too_short Scenario.sunny 4 [] Scenario.workbook
                  eq_refl eq_refl)).
  cbn. apply Exists_cons_hd. cbn. lia.
Defined.

(** X10. Every contact returned by a reader carries an address that
    [extract_email] found in a cell of a row of a worksheet of the workbook;
    the address is not empty, lower-cased, and free of white space, double
    quotes and commas. *)
Theorem X10_contacts_come_from_cells
  (w : world) (i : nat) (tr : list event) (cs : list contact) (c : contact)
  (Hread : snd (read_contacts w i tr) = Val cs \/
           snd (read_contacts_sheet4 w tr) = Val cs \/
           snd (read_contacts_sheet2 w i tr) = Val cs)
  (Hin : In c cs) :
  email c <> [] /\ lower (email c) = email c /\ forallb addr_char (email c) = true /\
  exists worksheets ws values v,
    w_load_workbook w = inr worksheets /\ In ws worksheets /\ In values ws /\
    In v values /\ v <> CNone /\ extract_email (py_str v) = Some (email c).
Proof.
  assert (Hrow : forall body f (rows_of : sheet -> list (list cell)) k,
             (forall values contacts,
                 body values contacts = option_map (app contacts) (f values)) ->
             (forall values here, f values = Some here ->
                read_contacts_row values [] = Some here \/
                read_contacts_sheet4_row values [] = Some here \/
                read_contacts_sheet2_row values [] = Some here) ->
             (forall ws values, In values (rows_of ws) -> In values ws) ->
             snd ((ws <- open_sheet w k ;; for_rows body (rows_of ws) []) tr) = Val cs ->
             exists worksheets ws values v,
               w_load_workbook w = inr worksheets /\ In ws worksheets /\ In values ws /\
               In v values /\ v <> CNone /\ extract_email (py_str v) = Some (email c)).
  { intros body f rows_of k Hb Hf Hrows H.
    rewrite (reader_run body f rows_of w k tr Hb) in H.
    destruct (w_excel_exists w); cbn [negb snd] in H; [|discriminate].
    destruct (w_load_workbook w) as [e|wss]; [discriminate|].
    destruct (nth_error wss k) as [ws|] eqn:En; [|discriminate].
    destruct (all_rows f (rows_of ws)) as [out|] eqn:Ea; [|discriminate].
    injection H as H. subst out.
    destruct (all_rows_in f _ _ c Ea Hin) as (values & here & Hv & Hfv & Hc).
    destruct (emitted_has_email values [] here c (Hf _ _ Hfv) Hc) as [[]|(v & H1 & H2 & H3)].
    exists wss, ws, values, v.
    split; [reflexivity|]. split; [exact (nth_error_In _ _ En)|].
    split; [exact (Hrows _ _ Hv)|]. auto. }
  assert (Hcell : exists worksheets ws values v,
             w_load_workbook w = inr worksheets /\ In ws worksheets /\ In values ws /\
             In v values /\ v <> CNone /\ extract_email (py_str v) = Some (email c)).
  { destruct Hread as [H|[H|H]].
    - apply (Hrow read_contacts_row fixed_row (skipn 1) i fixed_row_refines); [| |exact H].
      + intros values here Hf. left. rewrite fixed_row_refines, Hf. reflexivity.
      + intros ws values. apply In_skipn.
    - apply (Hrow read_contacts_sheet4_row triplet_row (fun ws => ws) 5 sheet4_row_refines);
        [| |exact H].
      + intros values here Hf. right. left. rewrite sheet4_row_refines, Hf. reflexivity.
      + auto.
    - apply (Hrow read_contacts_sheet2_row scan_pair_row (skipn 1) i sheet2_row_refines);
        [| |exact H].
      + intros values here Hf. right. right. rewrite sheet2_row_refines, Hf. reflexivity.
      + intros ws values. apply In_skipn. }
  destruct Hcell as (wss & ws & values & v & H1 & H2 & H3 & H4 & H5 & H6).
  destruct (extract_email_normal _ _ H6) as (N1 & N2 & _).
  split; [exact N1|]. split; [exact N2|].
  split; [exact (extract_email_alphabet _ _ H6)|].
  exists wss, ws, values, v. auto 10.
Qed.

Lemma X10_contact_of_the_example :
  exists worksheets ws values v,
    w_load_workbook Scenario.sunny = inr worksheets /\ In ws worksheets /\ In values ws /\
    In v values /\ v <> CNone /\ extract_email (py_str v) = Some (email Scenario.jo).
Proof.
  refine (proj2 (proj2 (proj2
            (X10_contacts_come_from_cells Scenario.sunny 4 [] [Scenario.jo] Scenario.jo
               _ _)))).
  - right. right. vm_compute. reflexivity.
  - left. reflexivity.
Defined.

(** ** The composed message *)

(** X11. Composing loses nothing of a contact: two contacts that differ in
    company, name or address get different messages. *)
Theorem X11_distinct_contacts_distinct_messages (c1 c2 : contact) (H : c1 <> c2) :
  compose c1 <> compose c2.
Proof. intros E. apply H, compose_inj, E. Qed.

Lemma X11_jo_and_al :
  exists m1 m2, m1 = compose Scenario.jo /\ m2 = compose Scenario.al /\ m1 <> m2.
Proof.
  exists (compose Scenario.jo), (compose Scenario.al).
  split; [reflexivity|]. split; [reflexivity|].
  exact (X11_distinct_contacts_distinct_messages Scenario.jo Scenario.al
           ltac:(discriminate)).
Defined.

(** ** The bulk script *)

(** X12. The bulk script contacts the relay only after the operator
    answered y: a run with SMTP traffic had the password and the resume in
    place, in full mode a worksheet that was read, and the prompt comes
    before any network traffic. *)
Theorem X12_bulk_relay_needs_the_yes (argv : list pystr) (w : world)
  (H : existsb is_smtp (fst (BulkEmail.main argv w [])) = true) :
  truthy_opt (w_getenv w "GMAIL_APP_PASSWORD_CODES04") = true /\
  w_resume_exists w = true /\
  confirmed w = Some true /\
  (member (py "--test") argv = false ->
   exists cs, snd (read_contacts_sheet2 w 4 []) = Val cs) /\
  exists before prompt after,
    fst (BulkEmail.main argv w []) = before ++ ReadLine prompt :: after /\
    existsb is_network before = false.
Proof. exact (bulk_relay_gate argv w H). Qed.

Lemma X12_confirmed_run : confirmed Scenario.sunny = Some true.
Proof.
  exact (proj1 (proj2 (proj2 (X12_bulk_relay_needs_the_yes [py "bulk_email.py"]
                                Scenario.sunny ltac:(vm_compute; reflexivity))))).
Defined.

(** X13. In test mode the workbook is never loaded and nobody of the sheet
    is written to: the run hands the relay no message, or the one message
    composed for the test contact, whose address is the sender's own; it
    never sleeps. *)
Theorem X13_test_mode_mails_the_sender_only (argv : list pystr) (w : world)
  (H : member (py "--test") argv = true) :
  existsb is_load (fst (BulkEmail.main argv w [])) = false /\
  existsb is_sleep (fst (BulkEmail.main argv w [])) = false /\
  (filter is_send (fst (BulkEmail.main argv w [])) = [] \/
   filter is_send (fst (BulkEmail.main argv w []))
   = [SmtpSendMessage (compose test_contact)]) /\
  msg_to (compose test_contact) = SENDER_EMAIL.
Proof.
  destruct (bulk_test_mode argv w H) as (H1 & H2 & H3).
  auto using test_contact_is_sender.
Qed.

Lemma X13_test_run :
  filter is_send (fst (BulkEmail.main [py "bulk_email.py"; py "--test"] Scenario.sunny []))
  = [SmtpSendMessage (compose test_contact)].
Proof.
  destruct (proj1 (proj2 (proj2 (X13_test_mode_mails_the_sender_only
                                   [py "bulk_email.py"; py "--test"] Scenario.sunny eq_refl))))
    as [E|E]; [|exact E].
  vm_compute in E. discriminate E.
Defined.

(** X14. A confirmed full run over an established session writes to every
    contact and then closes the session: the trace reaches the quit, and up
    to it the resume is read once per contact; when no resume read and no
    send fails, every contact is sent its message before the quit, in the
    order of the sheet, and nothing is written to stderr. Whenever the run
    returns after the quit, what it printed last is the summary, whose
    counters add up to the number of contacts read and count no failure
    when nothing failed. *)
Theorem X14_full_mode_writes_to_every_contact
  (argv : list pystr) (w : world) (cs : list contact)
  (Hmode : member (py "--test") argv = false)
  (Hpw : truthy_opt (w_getenv w "GMAIL_APP_PASSWORD_CODES04") = true)
  (Hresume : w_resume_exists w = true)
  (Hread : snd (read_contacts_sheet2 w 4 []) = Val cs)
  (Hyes : confirmed w = Some true)
  (Hsession : session_error w = None) :
  exists evs rest r,
    BulkEmail.main argv w [] = (evs ++ SmtpQuit :: rest, r) /\
    existsb is_quit evs = false /\
    count is_open evs = length cs /\
    ((forall k, w_open_resume w k = None) ->
     (forall k m, w_send_message w k m = None) ->
     filter is_send evs = map (fun c => SmtpSendMessage (compose c)) cs /\
     existsb is_stderr evs = false) /\
    (r = Val tt ->
     exists sent failed,
       rest = [done_line sent failed] /\
       sent + failed = length cs /\
       ((forall k, w_open_resume w k = None) ->
        (forall k m, w_send_message w k m = None) ->
        sent = length cs /\ failed = 0)).
Proof.
  destruct (full_mode_completes argv w cs Hmode Hpw Hresume Hread Hyes Hsession)
    as (evs & sent & failed & E & Hq & Hsum & Hopen & Hok).
  exists evs, [done_line sent failed], (Val tt).
  split; [exact E|]. split; [exact Hq|]. split; [exact Hopen|].
  split.
  - intros Ho Hm. destruct (Hok Ho Hm) as (_ & _ & Hf & He). auto.
  - intros _. exists sent, failed. split; [reflexivity|]. split; [exact Hsum|].
    intros Ho Hm. destruct (Hok Ho Hm) as (Hs & Hf & _). auto.
Qed.

Lemma X14_example_run :
  exists evs rest r,
    BulkEmail.main [py "bulk_email.py"] Scenario.sunny [] = (evs ++ SmtpQuit :: rest, r) /\
    existsb is_quit evs = false /\
    count is_open evs = 1.
Proof.
  destruct (X14_full_mode_writes_to_every_contact
              [py "bulk_email.py"] Scenario.sunny [Scenario.jo]
              eq_refl eq_refl eq_refl ltac:(vm_compute; reflexivity) eq_refl eq_refl)
    as (evs & rest & r & E & Hq & Hopen & _).
  exists evs, rest, r. split; [exact E|]. split; [exact Hq | exact Hopen].
Defined.

(** X15. Both scripts drive SMTP in the order of the protocol, in every
    world: connect, STARTTLS, login, messages, quit. A session that was
    opened is closed by quit however the run ends; the login (which carries
    the password) is issued only after STARTTLS succeeded, and a message is
    handed over only after the login succeeded. *)
Theorem X15_sessions_follow_the_protocol (argv : list pystr) (w : world) :
  disciplined w (fst (BulkEmail.main argv w [])) /\
  disciplined w (fst (SendEmail.main w [])).
Proof.
  split; [apply bulk_disciplined|].
  exact (proj1 (proj2 (single_main_facts w))).
Qed.

(** ** The agent *)

(** X16. When the pages fail with RequestExceptions only (or not at all),
    the scraper requests every page of the list, in order, and warns once
    per page that failed; it returns the sections of the pages that
    answered, joined by blank lines, and when none answered it reports so
    and exits with status 1. *)
Theorem X16_scraper_tries_every_page (w : world) (tr : list event)
  (H : only_request_errors w Unravel.UNRAVEL_URLS) :
  exists evs,
    Unravel.scrape_unravel_profiles w tr
    = (tr ++ evs,
       if nonempty (sections w Unravel.UNRAVEL_URLS)
       then Val (join (nl ++ nl) (sections w Unravel.UNRAVEL_URLS))
       else Exit 1) /\
    filter is_http evs = map HttpGet Unravel.UNRAVEL_URLS /\
    filter is_stderr evs
    = warnings w Unravel.UNRAVEL_URLS
        ++ (if nonempty (sections w Unravel.UNRAVEL_URLS) then [] else [no_content]) /\
    forallb scrape_event evs = true.
Proof. exact (scrape_requests w tr H). Qed.

(** The first page is refused, the others answer. *)
Lemma X16_first_page_refused :
  exists evs,
    fst (Unravel.scrape_unravel_profiles
           (with_pages (fun url => if text_eqb url (u "https://unravel.tech")
                                   then inl refused else inr (u "About us"))
                       Scenario.sunny) []) = evs /\
    filter is_http evs = map HttpGet Unravel.UNRAVEL_URLS /\
    filter is_stderr evs = [fetch_warning (u "https://unravel.tech") refused].
Proof.
  destruct (X16_scraper_tries_every_page
              (with_pages (fun url => if text_eqb url (u "https://unravel.tech")
                                      then inl refused else inr (u "About us"))
                          Scenario.sunny) []) as (evs & E & H1 & H2 & _).
  - intros url e Hin He.
    destruct Hin as [<-|[<-|[<-|[]]]]; vm_compute in He; try discriminate He.
    injection He as <-. reflexivity.
  - exists evs. rewrite E. split; [reflexivity|]. split; [exact H1|].
    rewrite H2. vm_compute. reflexivity.
Defined.

(** X17. An error that is no RequestException is not caught by the scraper:
    the loop stops at that page, the pages after it are not requested, no
    line is printed for it and the exception leaves the function. *)
Theorem X17_scraper_passes_other_errors
  (w : world) (before : list text) (url : text) (after : list text) (e : exn)
  (tr : list event)
  (Hurls : Unravel.UNRAVEL_URLS = before ++ url :: after)
  (Hbefore : only_request_errors w before)
  (Hpage : w_http_get w url = inl e)
  (Hclass : Unravel.is_request_exception (exn_cls e) = false) :
  Unravel.scrape_unravel_profiles w tr
  = (tr ++ fetch_events w before ++ [HttpGet url], Raise e).
Proof. exact (scrape_other_error w before url after e tr Hurls Hbefore Hpage Hclass). Qed.

(** The handling of the second page fails. *)
Lemma X17_second_page_breaks :
  Unravel.scrape_unravel_profiles
    (with_pages (fun url => if text_eqb url (u "https://unravel.tech/blog")
                            then inl broken else inr (u "About us"))
                Scenario.sunny) []
  = ([HttpGet (u "https://unravel.tech"); HttpGet (u "https://unravel.tech/blog")],
     Raise broken).
Proof.
  refine (X17_scraper_passes_other_errors
            (with_pages (fun url => if text_eqb url (u "https://unravel.tech/blog")
                                    then inl broken else inr (u "About us"))
                        Scenario.sunny)
            [u "https://unravel.tech"] (u "https://unravel.tech/blog")
            [u "https://unravel.tech/talks"] broken [] eq_refl _ eq_refl eq_refl).
  intros url e Hin He. destruct Hin as [<-|[]]. vm_compute in He. discriminate He.
Defined.

(** X18. [extract_founder_info] calls the LLM at most once and only with
    the key set; besides the call it writes to stderr only. It returns a
    value exactly when the key is set, the LLM answered a non-empty content
    and that content was decoded, and then it returns the decoded value;
    every exit of its own has status 1 and follows an error line. With the
    key set, an exception of the LLM call that is an OpenAIError is reported
    and ends the run with status 1, and one that is no OpenAIError passes
    through, right after the call. *)
Theorem X18_extractor_outcomes (w : world) (profiles : text) (tr : list event) :
  exists evs r,
    Unravel.extract_founder_info w profiles tr = (tr ++ evs, r) /\
    count is_llm evs <= 1 /\
    forallb (fun e => is_llm e || is_stderr e) evs = true /\
    (existsb is_llm evs = true -> truthy_opt (w_getenv w "GROQ_API_KEY") = true) /\
    (forall result,
        r = Val result <->
        truthy_opt (w_getenv w "GROQ_API_KEY") = true /\
        exists content,
          w_llm_chat w Unravel.SYSTEM_PROMPT (Unravel.build_user_prompt profiles)
          = inr (Some content) /\
          content <> [] /\ w_json_loads w content = inr result) /\
    (forall c, r = Exit c -> c = 1%Z /\ exists line, last evs (Sleep 0) = Stderr line) /\
    (forall e,
        truthy_opt (w_getenv w "GROQ_API_KEY") = true ->
        w_llm_chat w Unravel.SYSTEM_PROMPT (Unravel.build_user_prompt profiles) = inl e ->
        evs = LLMRequest Unravel.SYSTEM_PROMPT (Unravel.build_user_prompt profiles)
              :: (if Unravel.is_openai_error (exn_cls e)
                  then [Stderr (u "Groq API error: " ++ exn_msg e ++ nl)]
                  else []) /\
        r = (if Unravel.is_openai_error (exn_cls e) then Exit 1 else Raise e)).
Proof.
  destruct (extract_outcome w profiles tr) as (evs & r & E & Hc & Hev & Hk & Hval & Hx & _).
  exists evs, r. repeat (split; [assumption|]).
  intros e Hkey Hl. rewrite extract_founder_info_run, Hkey in E. cbn [negb] in E.
  cbv zeta in E. rewrite Hl in E.
  destruct (Unravel.is_openai_error (exn_cls e));
    injection E as Hev' Hr; apply app_inv_head in Hev'; subst evs r; split; reflexivity.
Qed.

(** X19. Run as a script, unravel.py only prints, fetches pages and calls
    the LLM, at most once and only with the key set: it never prompts, reads
    no file and sends no mail. It returns exactly when scraping produced
    text and the extraction returned a value, which it prints last as JSON;
    every other run ends with exit status 1. *)
Theorem X19_unravel_script (w : world) :
  forallb agent_event (fst (Unravel.main w [])) = true /\
  count is_llm (fst (Unravel.main w [])) <= 1 /\
  (existsb is_llm (fst (Unravel.main w [])) = true ->
   truthy_opt (w_getenv w "GROQ_API_KEY") = true) /\
  (snd (Unravel.main w []) = Val tt ->
   exists profiles result,
     snd (Unravel.scrape_unravel_profiles w []) = Val profiles /\
     snd (Unravel.extract_founder_info w profiles []) = Val result /\
     last (fst (Unravel.main w [])) (Sleep 0) = Stdout (w_json_dumps w result ++ nl)) /\
  (snd (Unravel.main w []) <> Val tt ->
   exit_status (snd (Unravel.main w [])) = 1%Z /\
   forall profiles result,
     snd (Unravel.scrape_unravel_profiles w []) = Val profiles ->
     snd (Unravel.extract_founder_info w profiles []) <> Val result).
Proof. exact (unravel_main_facts w). Qed.

(** ** The single-recipient script *)

(** X20. When the session or the relay fails while the application is
    sent, [send_application_email] ends with status 1 after the line that
    reports the error when the error is an SMTP error, and lets any other
    exception through without a line of its own; a connection that was made
    is closed by quit, and the message reached the relay only when the
    session was established. *)
Theorem X20_send_failure_is_reported
  (w : world) (recipient : json) (tr : list event) (e : exn)
  (Hpw : truthy_opt (w_getenv w "GMAIL_APP_PASSWORD") = true)
  (Hresume : w_resume_exists w = true)
  (Hopen : w_open_resume w (count is_open tr) = None)
  (Hfail : send_failure w (count is_send tr) recipient = Some e) :
  exists evs,
    SendEmail.send_application_email w recipient tr
    = (tr ++ evs, if SendEmail.is_smtp_error (exn_cls e) then Exit 1 else Raise e) /\
    (SendEmail.is_smtp_error (exn_cls e) = true -> last evs (Sleep 0) = smtp_report e) /\
    (SendEmail.is_smtp_error (exn_cls e) = false -> existsb is_stderr evs = false) /\
    (w_smtp_connect w = None -> existsb is_quit evs = true) /\
    filter is_send evs
    = match session_error w with
      | Some _ => []
      | None => [SmtpSendMessage (application w recipient)]
      end.
Proof. exact (send_application_email_failure w recipient tr e Hpw Hresume Hopen Hfail). Qed.

(** The relay refuses the application. *)
Lemma X20_refused_application :
  snd (SendEmail.send_application_email
         (Scenario.with_relay (fun _ => true) Scenario.sunny)
         (JString (u "founder@unrel.tech")) [])
  = Exit 1.
Proof.
  destruct (X20_send_failure_is_reported
              (Scenario.with_relay (fun _ => true) Scenario.sunny)
              (JString (u "founder@unrel.tech")) [] Scenario.relay_error
              eq_refl eq_refl eq_refl eq_refl) as (evs & E & _).
  rewrite E. reflexivity.
Defined.

(** X21. The network traffic of send_email.py is that of unravel.py (the
    same page fetches and LLM call) followed by its SMTP traffic, in every
    world. *)
Theorem X21_single_script_extends_the_agent (w : world) :
  filter is_network (fst (SendEmail.main w []))
  = filter is_network (fst (Unravel.main w []))
      ++ filter is_smtp (fst (SendEmail.main w [])).
Proof. exact (proj1 (single_main_facts w)). Qed.

(** X22. The single-recipient script hands the relay at most one message,
    and only the application addressed to the value of the email field of
    the dict decoded from the answer of the LLM, with both fields true and
    after the operator answered y. *)
Theorem X22_one_message_to_the_extracted_address (w : world) :
  filter is_send (fst (SendEmail.main w [])) = [] \/
  exists profiles content members,
    truthy_opt (w_getenv w "GROQ_API_KEY") = true /\
    w_llm_chat w Unravel.SYSTEM_PROMPT (Unravel.build_user_prompt profiles)
    = inr (Some content) /\
    w_json_loads w content = inr (JObject members) /\
    json_truthy (dict_get members (u "founder_name")) = true /\
    json_truthy (dict_get members (u "email")) = true /\
    confirmed w = Some true /\
    filter is_send (fst (SendEmail.main w []))
    = [SmtpSendMessage (application w (dict_get members (u "email")))].
Proof. exact (proj2 (proj2 (single_main_facts w))). Qed.

(** X23. An answer of the LLM that cannot be used stops the
    single-recipient script with exit status 1 before the prompt: the run
    has only console output, page fetches and the LLM call. A dict with a
    missing or false founder_name or email (a missing key reads as None) is
    reported by the could-not-extract line and [sys.exit(1)]; a decoded
    value that is no dict makes [result.get] raise an AttributeError that
    nobody catches. *)
Theorem X23_unusable_answer_stops_the_run (w : world) (raw : text) (result : json)
  (Hkey : truthy_opt (w_getenv w "GROQ_API_KEY") = true)
  (Hllm : forall profiles,
      w_llm_chat w Unravel.SYSTEM_PROMPT (Unravel.build_user_prompt profiles)
      = inr (Some raw))
  (Hraw : raw <> [])
  (Hjson : w_json_loads w raw = inr result)
  (Hunusable : usable result = false) :
  exit_status (snd (SendEmail.main w [])) = 1%Z /\
  forallb agent_event (fst (SendEmail.main w [])) = true /\
  (forall all_text,
      fetch_pure w Unravel.UNRAVEL_URLS [] = inr all_text -> all_text <> [] ->
      match result with
      | JObject _ =>
          snd (SendEmail.main w []) = Exit 1 /\
          last (fst (SendEmail.main w [])) (Sleep 0) = could_not_extract
      | _ => snd (SendEmail.main w []) = Raise (attribute_error result)
      end) /\
  (forall members key,
      (forall v, ~ In (key, v) members) -> dict_get members key = JNull).
Proof.
  destruct (single_main_unusable w raw result Hkey Hllm Hraw Hjson Hunusable)
    as (H1 & H2 & H3).
  auto using dict_get_missing.
Qed.

(** The answer names a founder and no email. *)
Lemma X23_answer_without_email :
  exit_status
    (snd (SendEmail.main
            (with_answer name_only_answer name_only_object Scenario.sunny) []))
  = 1%Z.
Proof.
  exact (proj1 (X23_unusable_answer_stops_the_run
                  (with_answer name_only_answer name_only_object Scenario.sunny)
                  name_only_answer name_only_object
                  eq_refl (fun _ => eq_refl) ltac:(vm_compute; discriminate)
                  eq_refl eq_refl)).
Defined.
